(** * Request binding of the httpserver provider

    A shallow embedding of [providers/httpserver/data_bind.go]: the
    [dataBinder] that fills a caller-supplied value from the body, the
    query string and the path parameters of a request.

    The Go code works through [reflect]; here a Go type is an [rtype], a Go
    value a [value], and a [reflect.Value] is the pair of the two.  A
    function that mutates the value behind a [reflect.Value] returns the
    value it leaves there. *)

From Stdlib Require Import ZArith String Ascii List.
From Stdlib Require Import Floats.SpecFloat.
From stdpp Require Import gmap strings list pretty.

Set Warnings "-register-all".
Local Open Scope string_scope.
Local Open Scope Z_scope.

(** ** Errors and outcomes *)

(** [strconv.ErrSyntax] and [strconv.ErrRange]. *)
Inductive NumErr := ErrSyntax | ErrRange.

(** What [encoding/json] reports: [*json.UnmarshalTypeError],
    [*json.SyntaxError], or anything else. *)
Inductive JSONError :=
| JSONUnmarshalTypeError (Type_ Value_ Field_ : string) (Offset : Z)
| JSONSyntaxError (Offset : Z) (msg : string)
| JSONOther (msg : string).

(** What [encoding/xml] reports: [*xml.UnsupportedTypeError],
    [*xml.SyntaxError], or anything else. *)
Inductive XMLError :=
| XMLUnsupportedTypeError (Type_ : string) (msg : string)
| XMLSyntaxError (Line : Z) (msg : string)
| XMLOther (msg : string).

(** Go [error] values the binder returns or passes on. *)
Inductive error :=
| NumError (Func Num : string) (Err : NumErr)   (* *strconv.NumError *)
| errorString (msg : string)                    (* errors.New, fmt.Errorf *)
| jsonError (e : JSONError)
| xmlError (e : XMLError)
| HTTPError (Code : Z) (Message : string) (Internal : option error).

(** Run-time panics of the Go code. *)
Inductive panic :=
| IndexOutOfRange          (* v[0] on an empty slice *)
| ReflectPanic             (* a reflect call on a value it does not accept *)
| NilMapAssignment         (* assignment to entry in nil map *)
| NilDereference.          (* a method call on a nil reflect.Type *)

(** How a call ends: a nil error, a non-nil error, or a panic. *)
Inductive outcome :=
| Nil
| Err (e : error)
| Panic (p : panic).

Definition ofError (e : option error) : outcome :=
  match e with
  | None => Nil
  | Some e => Err e
  end.

(** ** Kinds, values and types *)

Module reflect.

Inductive Kind :=
| Invalid | Bool
| Int | Int8 | Int16 | Int32 | Int64
| Uint | Uint8 | Uint16 | Uint32 | Uint64 | Uintptr
| Float32 | Float64 | Complex64 | Complex128
| Array | Chan | Func | Interface | Map | Ptr | Slice | String | Struct
| UnsafePointer.

End reflect.

(** Go values.  A pointer owns what it points to; a map value is [None]
    for the nil map; only the string keys of a map are kept, the binder
    reads and writes no others. *)
Inductive value :=
| VBool (b : bool)
| VInt (n : Z)
| VUint (n : Z)
| VFloat (f : spec_float)
| VString (s : string)
| VPtr (p : option value)
| VSlice (l : list value)
| VMap (m : option (gmap string value))
| VStruct (fields : list value)
| VNil                       (* nil interface *)
| VOpaque.                   (* a value of a kind the binder cannot set *)

(** The two capabilities [unmarshalFieldNonPtr] looks for in the method set
    of the pointer to a field: [echo.BindUnmarshaler] and
    [encoding.TextUnmarshaler].  A method gets the receiver's value and
    returns the value it leaves and its error. *)
Record methods := {
  UnmarshalParam : option (string -> value -> value * option error);
  UnmarshalText : option (list Byte.byte -> value -> value * option error)
}.

Definition noMethods : methods :=
  {| UnmarshalParam := None; UnmarshalText := None |}.

(** A defined type [type Name ...] with the methods of its pointer. *)
Record Defined := { TypeName : string; Methods : methods }.

(** [reflect.StructField] without its type: name, tag (as the list of its
    [key:"value"] pairs) and whether the field is exported. *)
Record StructField := {
  Name : string;
  Tag : list (string * string);
  Exported : bool
}.

Inductive IntWidth := W0 | W8 | W16 | W32 | W64.
Inductive FloatWidth := F32 | F64.
Inductive OpaqueKind :=
| KUintptr | KComplex64 | KComplex128 | KArray | KChan | KFunc
| KUnsafePointer.

(** Go types.  [d] is [None] for a predeclared type or a type literal and
    [Some] for a defined type. *)
Inductive rtype :=
| TBool (d : option Defined)
| TInt (w : IntWidth) (d : option Defined)
| TUint (w : IntWidth) (d : option Defined)
| TFloat (w : FloatWidth) (d : option Defined)
| TString (d : option Defined)
| TPtr (elem : rtype)
| TSlice (elem : rtype) (d : option Defined)
| TMap (key elem : rtype) (d : option Defined)
| TStruct (fields : list (StructField * rtype)) (d : option Defined)
| TInterface (methodNames : list string)
| TOpaque (k : OpaqueKind) (d : option Defined).

(** [Type.Kind()]. *)
Definition KindOf (t : rtype) : reflect.Kind :=
  match t with
  | TBool _ => reflect.Bool
  | TInt W0 _ => reflect.Int
  | TInt W8 _ => reflect.Int8
  | TInt W16 _ => reflect.Int16
  | TInt W32 _ => reflect.Int32
  | TInt W64 _ => reflect.Int64
  | TUint W0 _ => reflect.Uint
  | TUint W8 _ => reflect.Uint8
  | TUint W16 _ => reflect.Uint16
  | TUint W32 _ => reflect.Uint32
  | TUint W64 _ => reflect.Uint64
  | TFloat F32 _ => reflect.Float32
  | TFloat F64 _ => reflect.Float64
  | TString _ => reflect.String
  | TPtr _ => reflect.Ptr
  | TSlice _ _ => reflect.Slice
  | TMap _ _ _ => reflect.Map
  | TStruct _ _ => reflect.Struct
  | TInterface _ => reflect.Interface
  | TOpaque KUintptr _ => reflect.Uintptr
  | TOpaque KComplex64 _ => reflect.Complex64
  | TOpaque KComplex128 _ => reflect.Complex128
  | TOpaque KArray _ => reflect.Array
  | TOpaque KChan _ => reflect.Chan
  | TOpaque KFunc _ => reflect.Func
  | TOpaque KUnsafePointer _ => reflect.UnsafePointer
  end.

(** The method set of [*T], as far as the binder asks.  Pointers to
    pointers and pointers to interfaces have no methods. *)
Definition methodsOf (t : rtype) : methods :=
  match t with
  | TBool d | TInt _ d | TUint _ d | TFloat _ d | TString d
  | TSlice _ d | TMap _ _ d | TStruct _ d | TOpaque _ d =>
      match d with
      | Some d => Methods d
      | None => noMethods
      end
  | TPtr _ | TInterface _ => noMethods
  end.

(** The zero value of a type: what [reflect.New] and [reflect.MakeSlice]
    put behind a fresh pointer and in every fresh element. *)
Fixpoint zeroValue (t : rtype) : value :=
  match t with
  | TBool _ => VBool false
  | TInt _ _ => VInt 0
  | TUint _ _ => VUint 0
  | TFloat _ _ => VFloat (S754_zero false)
  | TString _ => VString ""
  | TPtr _ => VPtr None
  | TSlice _ _ => VSlice []
  | TMap _ _ _ => VMap None
  | TStruct fields _ => VStruct (map (fun f => zeroValue (snd f)) fields)
  | TInterface _ => VNil
  | TOpaque _ _ => VOpaque
  end.

(** [StructTag.Get]: the value under [key], or the empty string. *)
Fixpoint TagGet (tag : list (string * string)) (key : string) : string :=
  match tag with
  | [] => ""
  | (k, v) :: rest => if String.eqb k key then v else TagGet rest key
  end.

(** ** The Go library functions the binder calls *)

(** [strconv.ParseUint], [strconv.ParseInt] and [strconv.ParseBool], from
    the documentation of Go's [strconv], for the base 10 the binder asks
    for.  The integer of a successful parse is on the left. *)
Module strconv.

Definition IntSize : Z := 64.

Definition digit (c : ascii) : option Z :=
  let n := Z.of_N (N_of_ascii c) in
  if (48 <=? n) && (n <=? 57) then Some (n - 48) else None.

(** The digit loop of [ParseUint]: the first character that is no digit
    is a syntax error, the first digit that takes the number past
    [maxVal] a range error. *)
Fixpoint parseDigits (s : string) (n maxVal : Z) : Z + NumErr :=
  match s with
  | EmptyString => inl n
  | String c rest =>
      match digit c with
      | None => inr ErrSyntax
      | Some d =>
          if maxVal <? n * 10 + d then inr ErrRange
          else parseDigits rest (n * 10 + d) maxVal
      end
  end.

Definition bits (bitSize : Z) : Z :=
  if bitSize =? 0 then IntSize else bitSize.

Definition parseUint (s : string) (bitSize : Z) : Z + NumErr :=
  match s with
  | EmptyString => inr ErrSyntax
  | _ => parseDigits s 0 (2 ^ bits bitSize - 1)
  end.

Definition ParseUint (s : string) (bitSize : Z) : Z + error :=
  match parseUint s bitSize with
  | inl n => inl n
  | inr e => inr (NumError "ParseUint" s e)
  end.

Definition ParseInt (s : string) (bitSize : Z) : Z + error :=
  match s with
  | EmptyString => inr (NumError "ParseInt" s ErrSyntax)
  | String c rest =>
      let neg := Ascii.eqb c "-" in
      let s' := if Ascii.eqb c "+" || neg then rest else s in
      match parseUint s' bitSize with
      | inr e => inr (NumError "ParseInt" s e)
      | inl un =>
          let cutoff := 2 ^ (bits bitSize - 1) in
          if negb neg && (cutoff <=? un) then
            inr (NumError "ParseInt" s ErrRange)
          else if neg && (cutoff <? un) then
            inr (NumError "ParseInt" s ErrRange)
          else inl (if neg then - un else un)
      end
  end.

Definition ParseBool (str : string) : bool + error :=
  if existsb (String.eqb str) ["1"; "t"; "T"; "TRUE"; "true"; "True"]
  then inl true
  else if existsb (String.eqb str) ["0"; "f"; "F"; "FALSE"; "false"; "False"]
  then inl false
  else inr (NumError "ParseBool" str ErrSyntax).

End strconv.

Module strings.

(** [strings.HasPrefix s prefix]. *)
Definition HasPrefix (s prefix : string) : bool := String.prefix prefix s.

End strings.

(** The constants of [echo] and [net/http] that [Bind] uses. *)
Module echo.

Definition MIMEApplicationJSON := "application/json".
Definition MIMEApplicationXML := "application/xml".
Definition MIMETextXML := "text/xml".
Definition MIMEApplicationForm := "application/x-www-form-urlencoded".
Definition MIMEMultipartForm := "multipart/form-data".

Definition StatusBadRequest : Z := 400.
Definition StatusUnsupportedMediaType : Z := 415.

(** [echo.NewHTTPError(code, message).SetInternal(err)]. *)
Definition NewHTTPError (code : Z) (message : string) (internal : error)
  : error :=
  HTTPError code message (Some internal).

Definition ErrUnsupportedMediaType : error :=
  HTTPError StatusUnsupportedMediaType "Unsupported Media Type" None.

End echo.

#[global] Instance Kind_eq_dec : EqDecision reflect.Kind.
Proof. solve_decision. Defined.

(** [data map[string][]string]: the entries of the Go map in the order in
    which this call's [range] loops meet them.  The keys of a Go map are
    pairwise different; a list lets the statements speak about every
    order, and about a repeated key. *)
Definition SourceMap : Type := list (string * list string).

(** [data[name]]. *)
Fixpoint mapIndex (data : SourceMap) (name : string) : option (list string) :=
  match data with
  | [] => None
  | (k, v) :: rest => if String.eqb k name then Some v else mapIndex rest name
  end.

(** ** Reflect setters *)

Definition widthBits (w : IntWidth) : Z :=
  match w with
  | W0 => strconv.IntSize
  | W8 => 8
  | W16 => 16
  | W32 => 32
  | W64 => 64
  end.

(** Conversion of an [int64] to a signed and of a [uint64] to an unsigned
    integer of [b] bits. *)
Definition wrapSigned (b x : Z) : Z :=
  (x + 2 ^ (b - 1)) mod 2 ^ b - 2 ^ (b - 1).

Definition wrapUnsigned (b x : Z) : Z := x mod 2 ^ b.

(** Conversion of a [float64] to [float32]. *)
Definition toFloat32 (f : spec_float) : spec_float :=
  match f with
  | S754_finite s m e => binary_normalize 24 128 (cond_Zopp s (Zpos m)) e s
  | _ => f
  end.

(** [Value.SetInt] and its siblings: each panics on a value of another
    kind. *)
Definition SetInt (ft : rtype) (field : value) (x : Z) : value * outcome :=
  match ft with
  | TInt w _ => (VInt (wrapSigned (widthBits w) x), Nil)
  | _ => (field, Panic ReflectPanic)
  end.

Definition SetUint (ft : rtype) (field : value) (x : Z) : value * outcome :=
  match ft with
  | TUint w _ => (VUint (wrapUnsigned (widthBits w) x), Nil)
  | _ => (field, Panic ReflectPanic)
  end.

Definition SetBool (ft : rtype) (field : value) (x : bool) : value * outcome :=
  match ft with
  | TBool _ => (VBool x, Nil)
  | _ => (field, Panic ReflectPanic)
  end.

Definition SetFloat (ft : rtype) (field : value) (x : spec_float)
  : value * outcome :=
  match ft with
  | TFloat F32 _ => (VFloat (toFloat32 x), Nil)
  | TFloat F64 _ => (VFloat x, Nil)
  | _ => (field, Panic ReflectPanic)
  end.

Definition SetString (ft : rtype) (field : value) (x : string)
  : value * outcome :=
  match ft with
  | TString _ => (VString x, Nil)
  | _ => (field, Panic ReflectPanic)
  end.

(** A string can be assigned to the predeclared [string] and to an
    interface without methods. *)
Definition assignableString (t : rtype) : bool :=
  match t with
  | TString None => true
  | TInterface [] => true
  | _ => false
  end.

(** [val.SetMapIndex(reflect.ValueOf(k), reflect.ValueOf(v))] for strings
    [k] and [v], on a map of type [map[key]elem]: reflect panics when [k]
    or [v] cannot be assigned to the key or element type, and the
    assignment panics on the nil map. *)
Definition SetMapIndex (key elem : rtype) (m : option (gmap string value))
    (k v : string) : option (gmap string value) * outcome :=
  if assignableString key && assignableString elem then
    match m with
    | Some m => (Some (<[k := VString v]> m), Nil)
    | None => (None, Panic NilMapAssignment)
    end
  else (m, Panic ReflectPanic).

(** [Type.Elem()] of a pointer or slice type. *)
Definition Elem (t : rtype) : option rtype :=
  match t with
  | TPtr elem => Some elem
  | TSlice elem _ => Some elem
  | _ => None
  end.

(** ** Custom-unmarshal dispatch *)

(** The [(bool, error)] of [unmarshalField]: [true] with the method's
    error, or [false] with nil. *)
Inductive handled :=
| Handled (err : option error)
| NotHandled
| HandledPanic (p : panic).

Definition unmarshalFieldNonPtr (value_ : string) (ft : rtype) (field : value)
  : value * handled :=
  match UnmarshalParam (methodsOf ft) with
  | Some unmarshalParam =>
      let (field', err) := unmarshalParam value_ field in
      (field', Handled err)
  | None =>
      match UnmarshalText (methodsOf ft) with
      | Some unmarshalText =>
          let (field', err) :=
            unmarshalText (list_byte_of_string value_) field in
          (field', Handled err)
      | None => (field, NotHandled)
      end
  end.

Definition unmarshalFieldPtr (value_ : string) (ft : rtype) (field : value)
  : value * handled :=
  match ft, field with
  | TPtr elem, VPtr p =>
      let pointee :=
        match p with
        | None => zeroValue elem     (* reflect.New(field.Type().Elem()) *)
        | Some v => v
        end in
      let (pointee', h) := unmarshalFieldNonPtr value_ elem pointee in
      (VPtr (Some pointee'), h)
  | _, _ => (field, HandledPanic ReflectPanic)
  end.

Definition unmarshalField (valueKind : reflect.Kind) (val : string)
    (ft : rtype) (field : value) : value * handled :=
  match valueKind with
  | reflect.Ptr => unmarshalFieldPtr val ft field
  | _ => unmarshalFieldNonPtr val ft field
  end.

(** ** Scalar coercion *)

Definition setIntField (value_ : string) (bitSize : Z) (ft : rtype)
    (field : value) : value * outcome :=
  let value_ := if String.eqb value_ "" then "0" else value_ in
  match strconv.ParseInt value_ bitSize with
  | inl intVal => SetInt ft field intVal
  | inr err => (field, Err err)
  end.

Definition setUintField (value_ : string) (bitSize : Z) (ft : rtype)
    (field : value) : value * outcome :=
  let value_ := if String.eqb value_ "" then "0" else value_ in
  match strconv.ParseUint value_ bitSize with
  | inl uintVal => SetUint ft field uintVal
  | inr err => (field, Err err)
  end.

Definition setBoolField (value_ : string) (ft : rtype) (field : value)
  : value * outcome :=
  let value_ := if String.eqb value_ "" then "false" else value_ in
  match strconv.ParseBool value_ with
  | inl boolVal => SetBool ft field boolVal
  | inr err => (field, Err err)
  end.

Section Binder.

(** [strconv.ParseFloat], [strings.EqualFold] and the [Error] method of
    the errors, of the Go library. *)
Variable ParseFloat : string -> Z -> spec_float + error.
Variable EqualFold : string -> string -> bool.
Variable ErrorText : error -> string.

Definition setFloatField (value_ : string) (bitSize : Z) (ft : rtype)
    (field : value) : value * outcome :=
  let value_ := if String.eqb value_ "" then "0.0" else value_ in
  match ParseFloat value_ bitSize with
  | inl floatVal => SetFloat ft field floatVal
  | inr err => (field, Err err)
  end.

Fixpoint setWithProperType (valueKind : reflect.Kind) (val : string)
    (ft : rtype) (structField : value) {struct ft} : value * outcome :=
  match unmarshalField valueKind val ft structField with
  | (structField, Handled err) => (structField, ofError err)
  | (structField, HandledPanic p) => (structField, Panic p)
  | (structField, NotHandled) =>
      match valueKind with
      | reflect.Ptr =>
          match ft, structField with
          | TPtr elem, VPtr (Some pointee) =>
              let (pointee', r) :=
                setWithProperType (KindOf elem) val elem pointee in
              (VPtr (Some pointee'), r)
          | _, _ => (structField, Panic ReflectPanic)
          end
      | reflect.Int => setIntField val 0 ft structField
      | reflect.Int8 => setIntField val 8 ft structField
      | reflect.Int16 => setIntField val 16 ft structField
      | reflect.Int32 => setIntField val 32 ft structField
      | reflect.Int64 => setIntField val 64 ft structField
      | reflect.Uint => setUintField val 0 ft structField
      | reflect.Uint8 => setUintField val 8 ft structField
      | reflect.Uint16 => setUintField val 16 ft structField
      | reflect.Uint32 => setUintField val 32 ft structField
      | reflect.Uint64 => setUintField val 64 ft structField
      | reflect.Bool => setBoolField val ft structField
      | reflect.Float32 => setFloatField val 32 ft structField
      | reflect.Float64 => setFloatField val 64 ft structField
      | reflect.String => SetString ft structField val
      | _ => (structField, Err (errorString "unknown type"))
      end
  end.

(** *** The structural field binder *)

(** The fallback loop of [bindData]: the first entry, in the order of
    the iteration, whose key equals [name] up to case. *)
Fixpoint mapIndexFold (data : SourceMap) (name : string)
  : option (list string) :=
  match data with
  | [] => None
  | (k, v) :: rest =>
      if EqualFold k name then Some v else mapIndexFold rest name
  end.

(** [inputValue, exists] after the exact and the case-insensitive
    lookup. *)
Definition lookupInput (data : SourceMap) (inputFieldName : string)
  : option (list string) :=
  match mapIndex data inputFieldName with
  | Some inputValue => Some inputValue
  | None => mapIndexFold data inputFieldName
  end.

(** The loop over the elements of a fresh slice: the elements set so
    far, and how the loop ended. *)
Fixpoint setElems (sliceOf : reflect.Kind) (elemT : rtype)
    (inputValue : list string) : list value * outcome :=
  match inputValue with
  | [] => ([], Nil)
  | s :: rest =>
      match setWithProperType sliceOf s elemT (zeroValue elemT) with
      | (elem, Nil) =>
          let (elems, r) := setElems sliceOf elemT rest in
          (elem :: elems, r)
      | (elem, r) => ([elem], r)
      end
  end.

(** What [bindData] does with a field whose input was found (from the
    call of [unmarshalField] to the end of the loop body). *)
Definition bindInput (ft : rtype) (structField : value)
    (inputValue : list string) : value * outcome :=
  match inputValue with
  | [] => (structField, Panic IndexOutOfRange)      (* inputValue[0] *)
  | first :: _ =>
      match unmarshalField (KindOf ft) first ft structField with
      | (structField, Handled err) => (structField, ofError err)
      | (structField, HandledPanic p) => (structField, Panic p)
      | (structField, NotHandled) =>
          let numElems := length inputValue in
          if bool_decide (KindOf ft = reflect.Slice) && (0 <? numElems)%nat
          then
            match Elem ft with
            | Some elemT =>
                match setElems (KindOf elemT) elemT inputValue with
                | (slice, Nil) => (VSlice slice, Nil)
                | (_, r) => (structField, r)
                end
            | None => (structField, Panic ReflectPanic)
            end
          else setWithProperType (KindOf ft) first ft structField
      end
  end.

(** [_, ok := structField.Addr().Interface().(echo.BindUnmarshaler)]. *)
Definition isBindUnmarshaler (ft : rtype) : bool :=
  match UnmarshalParam (methodsOf ft) with
  | Some _ => true
  | None => false
  end.

(** The name under which a field is looked up: its tag for the
    namespace or, without one, its own name.  [None] is the untagged
    field of struct kind without [echo.BindUnmarshaler]: [bindData]
    recurses into it and looks no name up. *)
Definition resolveName (typeField : StructField) (ft : rtype)
    (tag : string) : option string :=
  let structFieldKind := KindOf ft in
  let inputFieldName := TagGet (Tag typeField) tag in
  if String.eqb inputFieldName "" then
    if negb (isBindUnmarshaler ft)
       && bool_decide (structFieldKind = reflect.Struct)
    then None
    else Some (Name typeField)
  else Some inputFieldName.

(** One round of the loop over the fields; [recurse] is the call of
    [bindData] on the address of the field.  [Nil] goes on to the next
    field, everything else is returned. *)
Definition bindField (recurse : value -> value * outcome)
    (typeField : StructField) (ft : rtype) (structField : value)
    (data : SourceMap) (tag : string) : value * outcome :=
  if negb (Exported typeField) then (structField, Nil)   (* !CanSet() *)
  else
    match resolveName typeField ft tag with
    | None => recurse structField
    | Some inputFieldName =>
        match lookupInput data inputFieldName with
        | None => (structField, Nil)
        | Some inputValue => bindInput ft structField inputValue
        end
    end.

(** The loop over the entries of [data] for a map target. *)
Fixpoint bindMapEntries (key elem : rtype) (entries : SourceMap)
    (m : option (gmap string value))
  : option (gmap string value) * outcome :=
  match entries with
  | [] => (m, Nil)
  | (k, v) :: rest =>
      match v with
      | [] => (m, Panic IndexOutOfRange)                   (* v[0] *)
      | first :: _ =>
          match SetMapIndex key elem m k first with
          | (m', Nil) => bindMapEntries key elem rest m'
          | (m', r) => (m', r)
          end
      end
  end.

(** The loop over the fields of a struct; [bind] is [bindData] on the
    address of a field.  The loop stops at the first field that does
    not end in [Nil], and the fields before it keep what they got. *)
Fixpoint bindFields (bind : rtype -> value -> value * outcome)
    (data : SourceMap) (tag : string)
    (fields : list (StructField * rtype)) (vals : list value)
    {struct fields} : list value * outcome :=
  match fields, vals with
  | [], _ => (vals, Nil)
  | _ :: _, [] => ([], Panic ReflectPanic)             (* val.Field(i) *)
  | (typeField, ft) :: fields', structField :: vals' =>
      match bindField (bind ft) typeField ft structField data tag with
      | (structField', Nil) =>
          let (vals'', r) := bindFields bind data tag fields' vals' in
          (structField' :: vals'', r)
      | (structField', r) => (structField' :: vals', r)
      end
  end.

(** [bindData(ptr, data, tag)] for a non-nil [ptr]: [typ] and [val] are
    [reflect.TypeOf(ptr).Elem()] and [reflect.ValueOf(ptr).Elem()], and
    the value returned is the one [ptr] points to in the end. *)
Fixpoint bindData (typ : rtype) (val : value) (data : SourceMap)
    (tag : string) {struct typ} : value * outcome :=
  match data with
  | [] => (val, Nil)
  | _ :: _ =>
      match typ with
      | TMap key elem _ =>
          match val with
          | VMap m =>
              let (m', r) := bindMapEntries key elem data m in
              (VMap m', r)
          | _ => (val, Panic ReflectPanic)
          end
      | TStruct fields _ =>
          match val with
          | VStruct vals =>
              let (vals', r) :=
                bindFields (fun ft v => bindData ft v data tag)
                  data tag fields vals in
              (VStruct vals', r)
          | _ => (val, Panic ReflectPanic)
          end
      | _ => (val, Err (errorString "binding element must be a struct"))
      end
  end.

(** [bindData(ptr, data, tag)] on the interface value [ptr]: [None] is
    the nil interface, [Some (t, v)] a value [v] of type [t].  The value
    returned is [ptr] after the call. *)
Definition bindDataPtr (ptr : option (rtype * value)) (data : SourceMap)
    (tag : string) : option (rtype * value) * outcome :=
  match ptr, data with
  | None, _ => (ptr, Nil)
  | _, [] => (ptr, Nil)
  | Some (TPtr typ, VPtr (Some val)), _ =>
      let (val', r) := bindData typ val data tag in
      (Some (TPtr typ, VPtr (Some val')), r)
  | Some (TPtr typ, VPtr None), (_, v) :: _ =>
      (* reflect.ValueOf(ptr).Elem() is the zero Value *)
      match typ with
      | TMap _ _ _ =>
          match v with
          | [] => (ptr, Panic IndexOutOfRange)
          | _ :: _ => (ptr, Panic ReflectPanic)
          end
      | TStruct [] _ => (ptr, Nil)
      | TStruct (_ :: _) _ => (ptr, Panic ReflectPanic)
      | _ => (ptr, Err (errorString "binding element must be a struct"))
      end
  | Some _, _ => (ptr, Panic ReflectPanic)
  end.

(** *** The content router *)

(** [json.Unmarshal(body, i)] and [xml.Unmarshal(body, i)]: the value
    they leave in [i] and their error. *)
Variable jsonUnmarshal :
  string -> option (rtype * value) -> option (rtype * value) * option JSONError.
Variable xmlUnmarshal :
  string -> option (rtype * value) -> option (rtype * value) * option XMLError.

(** What [Bind] reads of [echo.Context]: the request's content length
    and content type, what reading its body gives, and the form, query
    and path parameters. *)
Record Context := {
  ContentLength : Z;
  HeaderContentType : string;
  ReadBody : string + error;
  FormParams : SourceMap + error;
  QueryParams : SourceMap;
  ParamNames : list string;
  ParamValues : list string
}.

(** [params[name] = v] on a map. *)
Fixpoint mapAssign (params : SourceMap) (name : string) (v : list string)
  : SourceMap :=
  match params with
  | [] => [(name, v)]
  | (k, v') :: rest =>
      if String.eqb k name then (k, v) :: rest
      else (k, v') :: mapAssign rest name v
  end.

(** [for i, name := range names { params[name] = []string{values[i]} }],
    from index [i] on; [None] when [values[i]] is out of range. *)
Fixpoint pathParams (names values : list string) (i : nat)
    (params : SourceMap) : option SourceMap :=
  match names with
  | [] => Some params
  | name :: names' =>
      match values !! i with
      | Some v => pathParams names' values (S i) (mapAssign params name [v])
      | None => None
      end
  end.

(** [for typ.Kind() == reflect.Ptr { typ = typ.Elem() }]. *)
Fixpoint derefType (typ : rtype) : rtype :=
  match typ with
  | TPtr elem => derefType elem
  | _ => typ
  end.

Definition badRequest (err : error) : outcome :=
  Err (echo.NewHTTPError echo.StatusBadRequest (ErrorText err) err).

(** The part of [Bind] after the body: query and path parameters. *)
Definition bindQueryAndParams (i : option (rtype * value)) (c : Context)
  : option (rtype * value) * outcome :=
  match i with
  | None => (i, Panic NilDereference)           (* typ.Kind() on nil *)
  | Some (t, _) =>
      if bool_decide (KindOf (derefType t) = reflect.Struct) then
        match bindDataPtr i (QueryParams c) "query" with
        | (i, Nil) =>
            match pathParams (ParamNames c) (ParamValues c) 0 [] with
            | None => (i, Panic IndexOutOfRange)
            | Some params =>
                match bindDataPtr i params "param" with
                | (i, Nil) => (i, Nil)
                | (i, Err err) => (i, badRequest err)
                | (i, Panic p) => (i, Panic p)
                end
            end
        | (i, Err err) => (i, badRequest err)
        | (i, Panic p) => (i, Panic p)
        end
      else (i, Nil)
  end.

(** [ctype] after an empty header is replaced by the JSON type. *)
Definition contentType (c : Context) : string :=
  let ctype := HeaderContentType c in
  if (String.length ctype <=? 0)%nat then echo.MIMEApplicationJSON
  else ctype.

(** The decoding of the body, for a request with a body: [Nil] goes on
    to the query and path parameters. *)
Definition bindBody (i : option (rtype * value)) (c : Context)
  : option (rtype * value) * outcome :=
  let ctype := contentType c in
  match ReadBody c with
  | inr err =>
      (i, Err (errorString ("fail to read body: " +:+ ErrorText err)))
  | inl body =>
      if strings.HasPrefix ctype echo.MIMEApplicationJSON then
        match jsonUnmarshal body i with
        | (i, None) => (i, Nil)
        | (i, Some (JSONUnmarshalTypeError t v f o as ute)) =>
            (i, Err (echo.NewHTTPError echo.StatusBadRequest
                       ("Unmarshal type error: expected=" +:+ t
                        +:+ ", got=" +:+ v +:+ ", field=" +:+ f
                        +:+ ", offset=" +:+ pretty o)
                       (jsonError ute)))
        | (i, Some (JSONSyntaxError o _ as se)) =>
            (i, Err (echo.NewHTTPError echo.StatusBadRequest
                       ("Syntax error: offset=" +:+ pretty o
                        +:+ ", error=" +:+ ErrorText (jsonError se))
                       (jsonError se)))
        | (i, Some err) => (i, badRequest (jsonError err))
        end
      else if strings.HasPrefix ctype echo.MIMEApplicationXML
              || strings.HasPrefix ctype echo.MIMETextXML then
        match xmlUnmarshal body i with
        | (i, None) => (i, Nil)
        | (i, Some (XMLUnsupportedTypeError t _ as ute)) =>
            (i, Err (echo.NewHTTPError echo.StatusBadRequest
                       ("Unsupported type error: type=" +:+ t
                        +:+ ", error=" +:+ ErrorText (xmlError ute))
                       (xmlError ute)))
        | (i, Some (XMLSyntaxError l _ as se)) =>
            (i, Err (echo.NewHTTPError echo.StatusBadRequest
                       ("Syntax error: line=" +:+ pretty l
                        +:+ ", error=" +:+ ErrorText (xmlError se))
                       (xmlError se)))
        | (i, Some err) => (i, badRequest (xmlError err))
        end
      else if strings.HasPrefix ctype echo.MIMEApplicationForm
              || strings.HasPrefix ctype echo.MIMEMultipartForm then
        match FormParams c with
        | inr err => (i, badRequest err)
        | inl params =>
            match bindDataPtr i params "form" with
            | (i, Nil) => (i, Nil)
            | (i, Err err) => (i, badRequest err)
            | (i, Panic p) => (i, Panic p)
            end
        end
      else (i, Err echo.ErrUnsupportedMediaType)
  end.

(** [Bind(i, c)]: the value of [i] after the call, and the error. *)
Definition Bind (i : option (rtype * value)) (c : Context)
  : option (rtype * value) * outcome :=
  if 0 <? ContentLength c then
    match bindBody i c with
    | (i, Nil) => bindQueryAndParams i c
    | (i, r) => (i, r)
    end
  else bindQueryAndParams i c.

End Binder.

(** ** Instances of the library functions, for the examples *)

(** [strings.EqualFold] on ASCII strings. *)
Module ASCII.

Definition lower (c : ascii) : ascii :=
  let n := N_of_ascii c in
  if ((65 <=? n) && (n <=? 90))%N then ascii_of_N (n + 32) else c.

Fixpoint EqualFold (s t : string) : bool :=
  match s, t with
  | EmptyString, EmptyString => true
  | String a s', String b t' =>
      Ascii.eqb (lower a) (lower b) && EqualFold s' t'
  | _, _ => false
  end.

End ASCII.

(** [strconv.ParseFloat] on decimal literals: an optional sign, digits
    with an optional point, an optional decimal exponent; rounded to the
    nearest binary float of the width, ties to even.  The hexadecimal
    literals, the infinities and NaN of Go are no literals here. *)
Module Decimal.

(** The leading digits of [s]: their number so far, the count of
    digits, and the rest of [s]. *)
Fixpoint readDigits (s : string) (n count : Z) : Z * Z * string :=
  match s with
  | EmptyString => (n, count, s)
  | String c rest =>
      match strconv.digit c with
      | Some d => readDigits rest (n * 10 + d) (count + 1)
      | None => (n, count, s)
      end
  end.

Definition readSign (s : string) : bool * string :=
  match s with
  | String "-" rest => (true, rest)
  | String "+" rest => (false, rest)
  | _ => (false, s)
  end.

(** The exponent part: [Some 0] when there is none, [None] when it is
    malformed or something follows it. *)
Definition readExponent (s : string) : option Z :=
  match s with
  | EmptyString => Some 0
  | String c rest =>
      if Ascii.eqb c "e" || Ascii.eqb c "E" then
        let (neg, rest) := readSign rest in
        match readDigits rest 0 0 with
        | (e, count, EmptyString) =>
            if 0 <? count then Some (if neg then - e else e) else None
        | _ => None
        end
      else None
  end.

(** [m * 10 ^ e] for [m > 0], rounded to precision [prec]. *)
Definition round (prec emax : Z) (neg : bool) (m e : Z) : spec_float :=
  if 0 <=? e then
    binary_normalize prec emax (cond_Zopp neg (m * 10 ^ e)) 0 neg
  else
    let den := 10 ^ (- e) in
    let s := Z.max 0 (prec + 3 + Z.log2_up den - Z.log2 m) in
    let q := (m * 2 ^ s) / den in
    let sticky := if (m * 2 ^ s) mod den =? 0 then 0 else 1 in
    binary_normalize prec emax (cond_Zopp neg (2 * q + sticky)) (- s - 1) neg.

Definition ParseFloat (s : string) (bitSize : Z) : spec_float + error :=
  let syntax := inr (NumError "ParseFloat" s ErrSyntax) in
  let (neg, rest) := readSign s in
  let '(int, nint, rest) := readDigits rest 0 0 in
  let '(m, nfrac, rest) :=
    match rest with
    | String "." rest => readDigits rest int 0
    | _ => (int, 0, rest)
    end in
  if (nint + nfrac =? 0) then syntax
  else
    match readExponent rest with
    | None => syntax
    | Some e =>
        if m =? 0 then inl (S754_zero neg)
        else
          let f :=
            if bitSize =? 32 then round 24 128 neg m (e - nfrac)
            else round 53 1024 neg m (e - nfrac) in
          match f with
          | S754_infinity _ => inr (NumError "ParseFloat" s ErrRange)
          | _ => inl f
          end
    end.

End Decimal.

(** An [Error] method for the examples: the message without the
    quoting of Go. *)
Definition plainErrorText (e : error) : string :=
  match e with
  | NumError f n ErrSyntax =>
      "strconv." +:+ f +:+ ": parsing " +:+ n +:+ ": invalid syntax"
  | NumError f n ErrRange =>
      "strconv." +:+ f +:+ ": parsing " +:+ n +:+ ": value out of range"
  | errorString msg => msg
  | jsonError (JSONUnmarshalTypeError _ v _ _) =>
      "json: cannot unmarshal " +:+ v
  | jsonError (JSONSyntaxError _ msg) => msg
  | jsonError (JSONOther msg) => msg
  | xmlError (XMLUnsupportedTypeError t _) => "xml: unsupported type: " +:+ t
  | xmlError (XMLSyntaxError _ msg) => msg
  | xmlError (XMLOther msg) => msg
  | HTTPError _ m _ => m
  end.

(** A decoder that accepts every body and leaves the target as it is. *)
Definition idleDecoder {E : Type} (body : string)
    (i : option (rtype * value)) : option (rtype * value) * option E :=
  (i, None).

(** ** Example types and requests *)

Definition tInt := TInt W0 None.
Definition tString := TString None.
Definition tInts := TSlice tInt None.

(** [struct { City string `query:"city"` }]. *)
Definition fCity :=
  {| Name := "City"; Tag := [("query", "city")]; Exported := true |}.
Definition tAddr := TStruct [(fCity, tString)] None.

(** [type Level int] with
    [func (l *Level) UnmarshalParam(param string) error]. *)
Definition levelUnmarshalParam (param : string) (l : value)
  : value * option error :=
  if String.eqb param "high" then (VInt 3, None)
  else if String.eqb param "low" then (VInt 1, None)
  else (l, Some (errorString "unknown level")).

Definition tLevel :=
  TInt W0 (Some {| TypeName := "Level";
                   Methods := {| UnmarshalParam := Some levelUnmarshalParam;
                                 UnmarshalText := None |} |}).

(** [struct {
      Name string `query:"name"`; Ids []int `query:"x"`; Score float64;
      Level Level `query:"level"`; Addr struct{...};
      Home struct{...} `query:"home"` }]. *)
Definition fName :=
  {| Name := "Name"; Tag := [("query", "name")]; Exported := true |}.
Definition fIds :=
  {| Name := "Ids"; Tag := [("query", "x")]; Exported := true |}.
Definition fScore := {| Name := "Score"; Tag := []; Exported := true |}.
Definition fLevel :=
  {| Name := "Level"; Tag := [("query", "level")]; Exported := true |}.
Definition fAddr := {| Name := "Addr"; Tag := []; Exported := true |}.
Definition fHome :=
  {| Name := "Home"; Tag := [("query", "home")]; Exported := true |}.

Definition tUser :=
  TStruct [(fName, tString); (fIds, tInts); (fScore, TFloat F64 None);
           (fLevel, tLevel); (fAddr, tAddr); (fHome, tAddr)] None.

(** [struct { Name string `query:"name"` }] and a pointer to its zero
    value. *)
Definition tNamed := TStruct [(fName, tString)] None.
Definition pNamed : option (rtype * value) :=
  Some (TPtr tNamed, VPtr (Some (zeroValue tNamed))).

(** A round of the field loop never recurses in the examples that use
    this. *)
Definition noRecursion (v : value) : value * outcome := (v, Nil).

(** A request of unknown length and one whose body cannot be read, both
    of a content type the router does not know, with a query string
    [name=bob]. *)
Definition chunkedRequest : Context :=
  {| ContentLength := -1;
     HeaderContentType := "application/octet-stream";
     ReadBody := inl "payload";
     FormParams := inl [];
     QueryParams := [("name", ["bob"])];
     ParamNames := [];
     ParamValues := [] |}.

Definition brokenRequest : Context :=
  {| ContentLength := 7;
     HeaderContentType := "application/octet-stream";
     ReadBody := inr (errorString "unexpected EOF");
     FormParams := inl [];
     QueryParams := [("name", ["bob"])];
     ParamNames := [];
     ParamValues := [] |}.

Definition octetRequest : Context :=
  {| ContentLength := 7;
     HeaderContentType := "application/octet-stream";
     ReadBody := inl "payload";
     FormParams := inl [];
     QueryParams := [("name", ["bob"])];
     ParamNames := [];
     ParamValues := [] |}.

(** More fields and requests for the examples: an [int] field, a
    [*string] field, a field that cannot be set, and requests with a
    form and without anything. *)
Definition fAge :=
  {| Name := "Age"; Tag := [("query", "age")]; Exported := true |}.
Definition fNick :=
  {| Name := "Nick"; Tag := [("query", "nick")]; Exported := true |}.
Definition fSecret :=
  {| Name := "secret"; Tag := [("query", "secret")]; Exported := false |}.

Definition formRequest : Context :=
  {| ContentLength := 7;
     HeaderContentType := "application/x-www-form-urlencoded";
     ReadBody := inl "name=al";
     FormParams := inl [("name", ["al"])];
     QueryParams := [("name", ["bob"])];
     ParamNames := ["name"];
     ParamValues := ["cy"] |}.

Definition bareRequest : Context :=
  {| ContentLength := 2;
     HeaderContentType := "";
     ReadBody := inl "{}";
     FormParams := inl [];
     QueryParams := [("name", ["bob"])];
     ParamNames := [];
     ParamValues := [] |}.

Definition emptyRequest : Context :=
  {| ContentLength := 0;
     HeaderContentType := "application/json";
     ReadBody := inl "";
     FormParams := inl [];
     QueryParams := [];
     ParamNames := [];
     ParamValues := [] |}.

(** [struct { Zip int `query:"zip"` }], an untagged field [Place] of
    that type, and a tagged field of type [struct { City string }] that
    cannot be set: [home struct{...} `query:"home"`]. *)
Definition fZip :=
  {| Name := "Zip"; Tag := [("query", "zip")]; Exported := true |}.
Definition tPlace := TStruct [(fZip, tInt)] None.
Definition fPlace := {| Name := "Place"; Tag := []; Exported := true |}.
Definition fPrivateHome :=
  {| Name := "home"; Tag := [("query", "home")]; Exported := false |}.

(** ** The etcd provider *)

(** A shallow embedding of [providers/etcd/etcd.go].  The certificates,
    the files and the etcd client are those of the Go library and of
    the system: their types and functions are parameters. *)

(** [strings.Split(s, sep)] for a separator [sep] of one byte. *)
Fixpoint splitOn (sep : ascii) (s : string) : list string :=
  match s with
  | EmptyString => [""]
  | String c rest =>
      if Ascii.eqb c sep then "" :: splitOn sep rest
      else
        match splitOn sep rest with
        | piece :: pieces => String c piece :: pieces
        | [] => [String c ""]
        end
  end.

(** [strings.Join(pieces, sep)] for a separator of one byte. *)
Fixpoint joinWith (sep : ascii) (pieces : list string) : string :=
  match pieces with
  | [] => ""
  | [piece] => piece
  | piece :: pieces' => piece +:+ String sep (joinWith sep pieces')
  end.

Module etcd.

Section Provider.

Context {Certificate CertPool Client E : Type}.

(** [tls.LoadX509KeyPair], [ioutil.ReadFile], [os.IsNotExist],
    [x509.NewCertPool], [CertPool.AppendCertsFromPEM] (the pool it
    leaves and its [ok]), [clientv3.New], and the [Error] method. *)
Variable LoadX509KeyPair : string -> string -> Certificate + E.
Variable ReadFile : string -> string + E.
Variable IsNotExist : E -> bool.
Variable NewCertPool : CertPool.
Variable AppendCertsFromPEM : CertPool -> string -> CertPool * bool.
Variable ErrorText : E -> string.

(** [tls.Config] and [clientv3.Config], as far as the provider fills
    them. *)
Record tlsConfig := {
  Certificates : list Certificate;
  RootCAs : CertPool
}.

Record clientConfig := {
  ClientEndpoints : list string;
  DialTimeout : Z;
  TLS : option tlsConfig
}.

Variable New : clientConfig -> Client + E.

Record config := {
  Endpoints : string;
  Timeout : Z;
  CertFile : string;
  CertKeyFile : string;
  CaFile : string
}.

(** The provider: [Log] is what [p.Log.Warnf] has written, the last
    message first; [client] and [tls] are nil at first. *)
Record provider := {
  Cfg : config;
  Log : list string;
  client : option Client;
  tls : option tlsConfig
}.

Definition readTLSConfig (certFile certKeyFile caFile : string)
  : tlsConfig + E :=
  match LoadX509KeyPair certFile certKeyFile with
  | inr err => inr err
  | inl cert =>
      match ReadFile caFile with
      | inr err => inr err
      | inl caData =>
          let pool := fst (AppendCertsFromPEM NewCertPool caData) in
          inl {| Certificates := [cert]; RootCAs := pool |}
      end
  end.

Definition initTLSConfig (p : provider) : provider * option E :=
  if (0 <? String.length (CertFile (Cfg p)))%nat
     || (0 <? String.length (CertKeyFile (Cfg p)))%nat
  then
    match readTLSConfig (CertFile (Cfg p)) (CertKeyFile (Cfg p))
            (CaFile (Cfg p)) with
    | inr err =>
        if IsNotExist err then
          ({| Cfg := Cfg p;
              Log := ("fail to load tls files: " +:+ ErrorText err) :: Log p;
              client := client p;
              tls := tls p |}, None)
        else (p, Some err)
    | inl cfg =>
        ({| Cfg := Cfg p; Log := Log p; client := client p;
            tls := Some cfg |}, None)
    end
  else (p, None).

(** The [config] that [Connect] hands to [clientv3.New]. *)
Definition connectConfig (p : provider) : clientConfig :=
  {| ClientEndpoints := splitOn "," (Endpoints (Cfg p));
     DialTimeout := Timeout (Cfg p);
     TLS := tls p |}.

Definition Connect (p : provider) : Client + E := New (connectConfig p).

Definition Init (p : provider) : provider * option E :=
  match initTLSConfig p with
  | (p, Some err) => (p, Some err)
  | (p, None) =>
      match Connect p with
      | inr err => (p, Some err)
      | inl c =>
          ({| Cfg := Cfg p; Log := Log p; client := Some c; tls := tls p |},
           None)
      end
  end.

(** What [Provide] returns: the client or the provider itself. *)
Inductive provided :=
| ProvidedClient (c : option Client)
| ProvidedProvider (p : provider).

(** [Provide(ctx)]: [isClientType] is [ctx.Type() == clientType] and
    [service] is [ctx.Service()]. *)
Definition Provide (p : provider) (isClientType : bool) (service : string)
  : provided :=
  if isClientType || String.eqb service "etcd-client"
  then ProvidedClient (client p)
  else ProvidedProvider p.

End Provider.

End etcd.

(** A file system and an etcd library for the examples: two files
    that are there, one that cannot be read, and a [New] that refuses
    an empty endpoint. *)
Inductive fileError :=
| NotExist (path : string)
| Permission (path : string)
| NoEndpoint.

Definition exampleLoadX509KeyPair (certFile keyFile : string)
  : string + fileError :=
  if String.eqb certFile "cert.pem" then
    if String.eqb keyFile "key.pem" then inl "CERT"
    else if String.eqb keyFile "locked.pem" then inr (Permission keyFile)
    else inr (NotExist keyFile)
  else inr (NotExist certFile).

Definition exampleReadFile (path : string) : string + fileError :=
  if String.eqb path "ca.pem" then inl "CA" else inr (NotExist path).

Definition exampleIsNotExist (err : fileError) : bool :=
  match err with
  | NotExist _ => true
  | _ => false
  end.

Definition exampleAppendCerts (pool : list string) (pem : string)
  : list string * bool :=
  (pem :: pool, true).

Definition exampleErrorText (err : fileError) : string :=
  match err with
  | NotExist path => "open " +:+ path +:+ ": no such file or directory"
  | Permission path => "open " +:+ path +:+ ": permission denied"
  | NoEndpoint => "etcdclient: no available endpoints"
  end.

Definition exampleNew (cfg : @etcd.clientConfig string (list string))
  : list string + fileError :=
  match etcd.ClientEndpoints cfg with
  | [""] => inr NoEndpoint
  | endpoints => inl endpoints
  end.

Definition exampleProvider (endpoints certFile keyFile caFile : string)
  : @etcd.provider string (list string) (list string) :=
  {| etcd.Cfg := {| etcd.Endpoints := endpoints; etcd.Timeout := 10;
                    etcd.CertFile := certFile; etcd.CertKeyFile := keyFile;
                    etcd.CaFile := caFile |};
     etcd.Log := [];
     etcd.client := None;
     etcd.tls := None |}.

(** ** Values that fit a type *)

(** The values of the fields of a struct, one for each field of the
    type, each fitting its type. *)
Fixpoint shapeFields (shape : rtype -> value -> bool)
    (fields : list (StructField * rtype)) (vals : list value) : bool :=
  match fields, vals with
  | [], [] => true
  | (_, ft) :: fields', v :: vals' =>
      shape ft v && shapeFields shape fields' vals'
  | _, _ => false
  end.

(** [hasShape t v]: [v] is built like a value of type [t], as far as the
    binder looks into a value: a struct field by field, a pointer through
    to what it points to.  Of a slice, a map and an interface the
    contents are not looked at. *)
Fixpoint hasShape (t : rtype) (v : value) {struct t} : bool :=
  match t, v with
  | TBool _, VBool _ => true
  | TInt _ _, VInt _ => true
  | TUint _ _, VUint _ => true
  | TFloat _ _, VFloat _ => true
  | TString _, VString _ => true
  | TPtr _, VPtr None => true
  | TPtr elem, VPtr (Some pointee) => hasShape elem pointee
  | TSlice _ _, VSlice _ => true
  | TMap _ _ _, VMap _ => true
  | TStruct fields _, VStruct vals => shapeFields hasShape fields vals
  | TInterface _, _ => true
  | TOpaque _ _, VOpaque => true
  | _, _ => false
  end.

(** The custom unmarshallers of [ms], methods of a type [t], leave a
    value of [t] built like one. *)
Definition keepsShape (t : rtype) (ms : methods) : Prop :=
  (forall unmarshalParam param v,
      UnmarshalParam ms = Some unmarshalParam ->
      hasShape t v = true ->
      hasShape t (fst (unmarshalParam param v)) = true)
  /\ (forall unmarshalText text v,
        UnmarshalText ms = Some unmarshalText ->
        hasShape t v = true ->
        hasShape t (fst (unmarshalText text v)) = true).

Fixpoint allFields (P : rtype -> Prop) (fields : list (StructField * rtype))
  : Prop :=
  match fields with
  | [] => True
  | (_, ft) :: fields' => P ft /\ allFields P fields'
  end.

(** [keepsShape] for [t], for what a pointer [t] points to and for the
    fields of a struct [t]. *)
Fixpoint unmarshalersKeepShape (t : rtype) : Prop :=
  keepsShape t (methodsOf t)
  /\ match t with
     | TPtr elem => unmarshalersKeepShape elem
     | TStruct fields _ => allFields unmarshalersKeepShape fields
     | _ => True
     end.

(** The names that [bindData] looks up for a struct type and a
    namespace: those of its settable fields and, for the fields it
    recurses into, those of their fields. *)
Fixpoint resolvedNames (tag : string) (typ : rtype) {struct typ}
  : list string :=
  match typ with
  | TStruct fields _ =>
      flat_map
        (fun f =>
           if Exported (fst f) then
             match resolveName (fst f) (snd f) tag with
             | Some name => [name]
             | None => resolvedNames tag (snd f)
             end
           else [])
        fields
  | _ => []
  end.

(** ** Properties *)

(** Induction on types that reaches the field types of a struct. *)
Section rtype_induction.

Variable P : rtype -> Prop.
Hypothesis HBool : forall d, P (TBool d).
Hypothesis HInt : forall w d, P (TInt w d).
Hypothesis HUint : forall w d, P (TUint w d).
Hypothesis HFloat : forall w d, P (TFloat w d).
Hypothesis HString : forall d, P (TString d).
Hypothesis HPtr : forall elem, P elem -> P (TPtr elem).
Hypothesis HSlice : forall elem d, P elem -> P (TSlice elem d).
Hypothesis HMap : forall key elem d, P key -> P elem -> P (TMap key elem d).
Hypothesis HStruct :
  forall fields d, Forall (fun f => P (snd f)) fields -> P (TStruct fields d).
Hypothesis HInterface : forall ms, P (TInterface ms).
Hypothesis HOpaque : forall k d, P (TOpaque k d).

Fixpoint rtype_nested_ind (t : rtype) : P t :=
  match t with
  | TBool d => HBool d
  | TInt w d => HInt w d
  | TUint w d => HUint w d
  | TFloat w d => HFloat w d
  | TString d => HString d
  | TPtr elem => HPtr elem (rtype_nested_ind elem)
  | TSlice elem d => HSlice elem d (rtype_nested_ind elem)
  | TMap key elem d =>
      HMap key elem d (rtype_nested_ind key) (rtype_nested_ind elem)
  | TStruct fields d =>
      HStruct fields d
        ((fix go (l : list (StructField * rtype))
            : Forall (fun f => P (snd f)) l :=
            match l with
            | [] => List.Forall_nil _
            | f :: l' =>
                List.Forall_cons _ f l' (rtype_nested_ind (snd f)) (go l')
            end) fields)
  | TInterface ms => HInterface ms
  | TOpaque k d => HOpaque k d
  end.

End rtype_induction.

Local Open Scope list_scope.

Section Properties.

Variable ParseFloat : string -> Z -> spec_float + error.
Variable EqualFold : string -> string -> bool.

(** *** Custom-unmarshal dispatch *)

Lemma unmarshalFieldNonPtr_NotHandled s ft field field' :
  unmarshalFieldNonPtr s ft field = (field', NotHandled) ->
  field' = field
  /\ UnmarshalParam (methodsOf ft) = None
  /\ UnmarshalText (methodsOf ft) = None.
Proof.
  unfold unmarshalFieldNonPtr.
  destruct (UnmarshalParam (methodsOf ft)) as [f|].
  - destruct (f s field); discriminate.
  - destruct (UnmarshalText (methodsOf ft)) as [g|].
    + destruct (g _ field); discriminate.
    + intros [= <-]. auto.
Qed.

Lemma unmarshalFieldNonPtr_none s ft field :
  UnmarshalParam (methodsOf ft) = None ->
  UnmarshalText (methodsOf ft) = None ->
  unmarshalFieldNonPtr s ft field = (field, NotHandled).
Proof. unfold unmarshalFieldNonPtr. intros -> ->. reflexivity. Qed.

Lemma unmarshalField_nonptr k s ft field :
  k <> reflect.Ptr ->
  unmarshalField k s ft field = unmarshalFieldNonPtr s ft field.
Proof. destruct k; intros H; try reflexivity. congruence. Qed.

(** *** The loop over the fields *)

Lemma bindFields_app bind data tag fs1 :
  forall vs1 vs1' fs vs,
    length fs1 = length vs1 ->
    bindFields ParseFloat EqualFold bind data tag fs1 vs1 = (vs1', Nil) ->
    bindFields ParseFloat EqualFold bind data tag (fs1 ++ fs) (vs1 ++ vs)
    = let (vs', r) := bindFields ParseFloat EqualFold bind data tag fs vs in
      (vs1' ++ vs', r).
Proof.
  induction fs1 as [|[typeField ft] fs1 IH]; intros vs1 vs1' fs vs Hlen H.
  - destruct vs1; [|discriminate]. simpl in H. injection H as <-.
    simpl. destruct (bindFields _ _ _ _ _ fs vs). reflexivity.
  - destruct vs1 as [|v vs1]; [discriminate|].
    simpl in Hlen. injection Hlen as Hlen.
    simpl in H |- *.
    destruct (bindField _ _ _ typeField ft v data tag) as [v' [|e|p]];
      try discriminate.
    destruct (bindFields _ _ bind data tag fs1 vs1) as [vs1'' r] eqn:E.
    injection H as <- ->.
    rewrite (IH vs1 vs1'' fs vs Hlen E).
    destruct (bindFields _ _ _ _ _ fs vs). reflexivity.
Qed.

Lemma bindField_matched recurse typeField ft structField data tag name
    inputValue :
  Exported typeField = true ->
  resolveName typeField ft tag = Some name ->
  lookupInput EqualFold data name = Some inputValue ->
  bindField ParseFloat EqualFold recurse typeField ft structField data tag
  = bindInput ParseFloat ft structField inputValue.
Proof.
  intros Hexp Hname Hlook. unfold bindField.
  rewrite Hexp, Hname, Hlook. reflexivity.
Qed.

(** *** The elements of a slice *)

Lemma setElems_all_set sliceOf elemT inputValue :
  (forall s, In s inputValue ->
     snd (setWithProperType ParseFloat sliceOf s elemT (zeroValue elemT)) = Nil) ->
  setElems ParseFloat sliceOf elemT inputValue
  = (map (fun s =>
            fst (setWithProperType ParseFloat sliceOf s elemT (zeroValue elemT)))
       inputValue, Nil).
Proof.
  induction inputValue as [|s rest IH]; intros H; [reflexivity|].
  simpl.
  pose proof (H s (or_introl eq_refl)) as Hs.
  destruct (setWithProperType ParseFloat sliceOf s elemT (zeroValue elemT))
    as [elem r]. simpl in Hs. subst r.
  rewrite IH by (intros; apply H; right; assumption). reflexivity.
Qed.

Lemma setElems_first_failure sliceOf elemT pre s post elem r :
  (forall s', In s' pre ->
     snd (setWithProperType ParseFloat sliceOf s' elemT (zeroValue elemT)) = Nil) ->
  setWithProperType ParseFloat sliceOf s elemT (zeroValue elemT) = (elem, r) ->
  r <> Nil ->
  snd (setElems ParseFloat sliceOf elemT (pre ++ s :: post)) = r.
Proof.
  intros Hpre Hs Hr.
  induction pre as [|s' pre IH]; simpl.
  - rewrite Hs. destruct r; [congruence| |]; reflexivity.
  - pose proof (Hpre s' (or_introl eq_refl)) as Hs'.
    destruct (setWithProperType ParseFloat sliceOf s' elemT (zeroValue elemT))
      as [elem' r']. simpl in Hs'. subst r'.
    destruct (setElems ParseFloat sliceOf elemT (pre ++ s :: post)) as [elems r'].
    simpl in *. apply IH. intros; apply Hpre; right; assumption.
Qed.

(** C1 (as amended).  A matched field that the custom-unmarshal dispatch
    does not claim: if it is of slice kind, then, whenever every value
    of its entry coerces, the field gets a slice with one element per
    value of the entry, each the coercion of its value into a zero
    element -- also when the entry has a single value; if it is of
    another kind, the first value is coerced into the field. *)
Theorem bindField_slice_or_scalar recurse typeField ft structField data tag
    name first rest structField' :
  Exported typeField = true ->
  resolveName typeField ft tag = Some name ->
  lookupInput EqualFold data name = Some (first :: rest) ->
  unmarshalField (KindOf ft) first ft structField = (structField', NotHandled) ->
  (forall elemT,
      KindOf ft = reflect.Slice ->
      Elem ft = Some elemT ->
      (forall s, In s (first :: rest) ->
         snd (setWithProperType ParseFloat (KindOf elemT) s elemT
                (zeroValue elemT)) = Nil) ->
      bindField ParseFloat EqualFold recurse typeField ft structField data tag
      = (VSlice
           (map (fun s =>
                   fst (setWithProperType ParseFloat (KindOf elemT) s elemT
                          (zeroValue elemT)))
              (first :: rest)),
         Nil))
  /\ (KindOf ft <> reflect.Slice ->
      bindField ParseFloat EqualFold recurse typeField ft structField data tag
      = setWithProperType ParseFloat (KindOf ft) first ft structField').
Proof.
  intros Hexp Hname Hlook Hun.
  rewrite (bindField_matched _ _ _ _ _ _ _ _ Hexp Hname Hlook).
  unfold bindInput. rewrite Hun. split.
  - intros elemT Hk He Hall. rewrite Hk, He.
    rewrite bool_decide_true by reflexivity. simpl andb. cbv iota.
    rewrite (setElems_all_set _ _ _ Hall). reflexivity.
  - intros Hk. rewrite bool_decide_false by assumption. reflexivity.
Qed.

(** C2.  A field of slice kind without custom unmarshalling, bound from
    its entry: when the coercion of an element fails, and those of the
    elements before it did not, [bindData] returns the error of that
    element, the field keeps the value it had, and so do the fields
    after it. *)
Theorem bindData_slice_element_error fs1 typeField ft fs2 d vs1 vs1'
    structField vs2 data tag name elemT pre s post elem e :
  length fs1 = length vs1 ->
  bindFields ParseFloat EqualFold
    (fun ft v => bindData ParseFloat EqualFold ft v data tag)
    data tag fs1 vs1 = (vs1', Nil) ->
  Exported typeField = true ->
  resolveName typeField ft tag = Some name ->
  lookupInput EqualFold data name = Some (pre ++ s :: post) ->
  KindOf ft = reflect.Slice ->
  Elem ft = Some elemT ->
  UnmarshalParam (methodsOf ft) = None ->
  UnmarshalText (methodsOf ft) = None ->
  (forall s', In s' pre ->
     snd (setWithProperType ParseFloat (KindOf elemT) s' elemT
            (zeroValue elemT)) = Nil) ->
  setWithProperType ParseFloat (KindOf elemT) s elemT (zeroValue elemT)
  = (elem, Err e) ->
  bindData ParseFloat EqualFold
    (TStruct (fs1 ++ (typeField, ft) :: fs2) d)
    (VStruct (vs1 ++ structField :: vs2)) data tag
  = (VStruct (vs1' ++ structField :: vs2), Err e).
Proof.
  intros Hlen Hfs1 Hexp Hname Hlook Hk He Hp Ht Hpre Hs.
  assert (Hdata : data <> []).
  { intros ->. unfold lookupInput in Hlook. simpl in Hlook. discriminate. }
  destruct data as [|entry data']; [congruence|].
  cbn [bindData].
  rewrite (bindFields_app _ _ _ _ _ _ _ _ Hlen Hfs1).
  cbn [bindFields].
  rewrite (bindField_matched _ _ _ _ _ _ _ _ Hexp Hname Hlook).
  assert (Hin : bindInput ParseFloat ft structField (pre ++ s :: post)
                = (structField, Err e)).
  { unfold bindInput.
    destruct (pre ++ s :: post) as [|first rest] eqn:Hiv.
    { destruct pre; discriminate. }
    rewrite unmarshalField_nonptr by (rewrite Hk; discriminate).
    rewrite (unmarshalFieldNonPtr_none _ _ _ Hp Ht).
    rewrite Hk, He. rewrite bool_decide_true by reflexivity.
    simpl andb. cbv iota. rewrite <- Hiv.
    pose proof (setElems_first_failure _ _ _ _ post _ _ Hpre Hs) as Hf.
    destruct (setElems ParseFloat (KindOf elemT) elemT (pre ++ s :: post))
      as [slice r].
    simpl in Hf. rewrite Hf by discriminate. reflexivity. }
  rewrite Hin. reflexivity.
Qed.

(** *** The lookup of a field's input *)

Lemma mapIndexFold_first pre k v post name :
  EqualFold k name = true ->
  (forall k' v', In (k', v') pre -> EqualFold k' name = false) ->
  mapIndexFold EqualFold (pre ++ (k, v) :: post) name = Some v.
Proof.
  intros Hk Hpre. induction pre as [|[k' v'] pre IH]; simpl.
  - rewrite Hk. reflexivity.
  - rewrite (Hpre k' v') by (left; reflexivity).
    apply IH. intros; eapply Hpre; right; eassumption.
Qed.

Lemma mapIndexFold_none data name :
  (forall k v, In (k, v) data -> EqualFold k name = false) ->
  mapIndexFold EqualFold data name = None.
Proof.
  induction data as [|[k v] data IH]; intros H; simpl; [reflexivity|].
  rewrite (H k v) by (left; reflexivity).
  apply IH. intros; eapply H; right; eassumption.
Qed.

Lemma mapIndex_exact data name v :
  NoDup (map fst data) -> In (name, v) data -> mapIndex data name = Some v.
Proof.
  induction data as [|[k v'] data IH]; simpl; [intros _ []|].
  intros Hnd Hin. apply NoDup_cons in Hnd as [Hk Hnd].
  destruct (String.eqb_spec k name) as [->|Hne].
  - destruct Hin as [Heq|Hin]; [congruence|].
    destruct Hk. apply list_elem_of_In.
    apply (in_map fst) in Hin. exact Hin.
  - destruct Hin as [Heq|Hin]; [congruence|]. exact (IH Hnd Hin).
Qed.

Lemma mapIndex_absent data name :
  (forall k v, In (k, v) data -> k <> name) -> mapIndex data name = None.
Proof.
  induction data as [|[k v] data IH]; intros H; simpl; [reflexivity|].
  destruct (String.eqb_spec k name) as [Heq|Hne].
  - destruct (H k v (or_introl eq_refl) Heq).
  - apply IH. intros k' v' Hin. exact (H k' v' (or_intror Hin)).
Qed.

Lemma resolveName_looked_up typeField ft tag :
  TagGet (Tag typeField) tag <> ""
  \/ UnmarshalParam (methodsOf ft) <> None
  \/ KindOf ft <> reflect.Struct ->
  resolveName typeField ft tag
  = Some (if String.eqb (TagGet (Tag typeField) tag) ""
          then Name typeField else TagGet (Tag typeField) tag).
Proof.
  intros H. unfold resolveName, isBindUnmarshaler.
  destruct (String.eqb_spec (TagGet (Tag typeField) tag) "") as [Ht|Ht];
    [|reflexivity].
  destruct H as [H|[H|H]].
  - contradiction.
  - destruct (UnmarshalParam (methodsOf ft)); [reflexivity|congruence].
  - rewrite (bool_decide_false _ H), andb_false_r. reflexivity.
Qed.

(** C3 (as amended).  A settable field that is not an untagged field of
    struct kind without [UnmarshalParam] is looked up under its tag for
    the namespace or, without a tag, under its own name.  When that name
    is a key of [data], the input is the entry of that key, whatever
    other keys equal the name up to case and wherever they come in the
    iteration.  When no key is the name, the first key of the iteration
    that equals the name up to case gives the input.  When no key is the
    name or equals it up to case, the field keeps its value, there is no
    error, and the loop goes on with the next field. *)
Theorem bindField_lookup bind typeField ft structField data tag name :
  Exported typeField = true ->
  TagGet (Tag typeField) tag <> ""
  \/ UnmarshalParam (methodsOf ft) <> None
  \/ KindOf ft <> reflect.Struct ->
  name = (if String.eqb (TagGet (Tag typeField) tag) ""
          then Name typeField else TagGet (Tag typeField) tag) ->
  (forall inputValue,
      NoDup (map fst data) ->
      In (name, inputValue) data ->
      bindField ParseFloat EqualFold (bind ft) typeField ft structField data tag
      = bindInput ParseFloat ft structField inputValue)
  /\ (forall pre k inputValue post,
        (forall k' v', In (k', v') data -> k' <> name) ->
        data = pre ++ (k, inputValue) :: post ->
        EqualFold k name = true ->
        (forall k' v', In (k', v') pre -> EqualFold k' name = false) ->
        bindField ParseFloat EqualFold (bind ft) typeField ft structField data tag
        = bindInput ParseFloat ft structField inputValue)
  /\ ((forall k v, In (k, v) data -> k <> name /\ EqualFold k name = false) ->
      bindField ParseFloat EqualFold (bind ft) typeField ft structField data tag
      = (structField, Nil)
      /\ forall fields vals,
          bindFields ParseFloat EqualFold bind data tag
            ((typeField, ft) :: fields) (structField :: vals)
          = let (vals', r) :=
              bindFields ParseFloat EqualFold bind data tag fields vals in
            (structField :: vals', r)).
Proof.
  intros Hexp Hres ->.
  pose proof (resolveName_looked_up typeField ft tag Hres) as Hname.
  split; [|split].
  - intros inputValue Hnd Hin.
    apply (bindField_matched _ _ _ _ _ _ _ _ Hexp Hname).
    unfold lookupInput. rewrite (mapIndex_exact _ _ _ Hnd Hin). reflexivity.
  - intros pre k inputValue post Habs -> Hk Hpre.
    apply (bindField_matched _ _ _ _ _ _ _ _ Hexp Hname).
    unfold lookupInput. rewrite (mapIndex_absent _ _ Habs).
    apply mapIndexFold_first; assumption.
  - intros Hnone.
    assert (Hskip : bindField ParseFloat EqualFold (bind ft) typeField ft
                      structField data tag = (structField, Nil)).
    { unfold bindField. rewrite Hexp, Hname. unfold lookupInput.
      rewrite mapIndex_absent
        by (intros k v Hin; exact (proj1 (Hnone k v Hin))).
      rewrite mapIndexFold_none
        by (intros k v Hin; exact (proj2 (Hnone k v Hin))).
      reflexivity. }
    split; [exact Hskip|].
    intros fields vals. cbn [bindFields]. rewrite Hskip. reflexivity.
Qed.

(** *** Scalar coercion of the empty string *)

(** C4.  The empty string, coerced into a field without custom
    unmarshalling: a signed or unsigned integer field is set to 0, a
    boolean field to false, and a floating-point field to 0.0 (given
    that [strconv.ParseFloat] reads "0.0" as zero). *)
Theorem setWithProperType_empty_string ft structField :
  ParseFloat "0.0" 32 = inl (S754_zero false) ->
  ParseFloat "0.0" 64 = inl (S754_zero false) ->
  UnmarshalParam (methodsOf ft) = None ->
  UnmarshalText (methodsOf ft) = None ->
  (forall w d, ft = TInt w d ->
     setWithProperType ParseFloat (KindOf ft) "" ft structField
     = (VInt 0, Nil))
  /\ (forall w d, ft = TUint w d ->
     setWithProperType ParseFloat (KindOf ft) "" ft structField
     = (VUint 0, Nil))
  /\ (forall d, ft = TBool d ->
     setWithProperType ParseFloat (KindOf ft) "" ft structField
     = (VBool false, Nil))
  /\ (forall w d, ft = TFloat w d ->
     setWithProperType ParseFloat (KindOf ft) "" ft structField
     = (VFloat (S754_zero false), Nil)).
Proof.
  intros H32 H64 Hp Ht.
  repeat split; intros; subst ft;
    try match goal with w : IntWidth |- _ => destruct w end;
    try match goal with w : FloatWidth |- _ => destruct w end;
    cbn [setWithProperType KindOf unmarshalField];
    rewrite (unmarshalFieldNonPtr_none _ _ _ Hp Ht);
    try reflexivity;
    unfold setFloatField; simpl String.eqb; cbv iota;
    [rewrite H32 | rewrite H64]; reflexivity.
Qed.

(** *** Fields with custom unmarshalling *)

(** C5.  A matched field whose type has [UnmarshalParam]: the method is
    called with the first value of the entry, and what it leaves and
    returns is the outcome for the field, whatever the kind of the
    field.  With [UnmarshalText] alone, that method is called with the
    bytes of the value.  For a field of pointer kind the methods are
    those of the type pointed to, called on the value pointed to (a
    zero value when the pointer was nil). *)
Theorem bindField_custom_unmarshal recurse typeField ft structField data
    tag name first rest :
  Exported typeField = true ->
  resolveName typeField ft tag = Some name ->
  lookupInput EqualFold data name = Some (first :: rest) ->
  (KindOf ft <> reflect.Ptr ->
     (forall unmarshalParam,
        UnmarshalParam (methodsOf ft) = Some unmarshalParam ->
        bindField ParseFloat EqualFold recurse typeField ft structField data tag
        = (fst (unmarshalParam first structField),
           ofError (snd (unmarshalParam first structField))))
     /\ (forall unmarshalText,
          UnmarshalParam (methodsOf ft) = None ->
          UnmarshalText (methodsOf ft) = Some unmarshalText ->
          bindField ParseFloat EqualFold recurse typeField ft structField
            data tag
          = (fst (unmarshalText (list_byte_of_string first) structField),
             ofError (snd (unmarshalText (list_byte_of_string first)
                             structField)))))
  /\ (forall elem p pointee,
        ft = TPtr elem ->
        structField = VPtr p ->
        pointee = default (zeroValue elem) p ->
        (forall unmarshalParam,
           UnmarshalParam (methodsOf elem) = Some unmarshalParam ->
           bindField ParseFloat EqualFold recurse typeField ft structField
             data tag
           = (VPtr (Some (fst (unmarshalParam first pointee))),
              ofError (snd (unmarshalParam first pointee))))
        /\ (forall unmarshalText,
             UnmarshalParam (methodsOf elem) = None ->
             UnmarshalText (methodsOf elem) = Some unmarshalText ->
             bindField ParseFloat EqualFold recurse typeField ft structField
               data tag
             = (VPtr (Some (fst (unmarshalText (list_byte_of_string first)
                                   pointee))),
                ofError (snd (unmarshalText (list_byte_of_string first)
                                pointee))))).
Proof.
  intros Hexp Hname Hlook.
  rewrite (bindField_matched _ _ _ _ _ _ _ _ Hexp Hname Hlook).
  unfold bindInput. split.
  - intros Hk. rewrite unmarshalField_nonptr by assumption.
    unfold unmarshalFieldNonPtr. split.
    + intros f ->. destruct (f first structField). reflexivity.
    + intros g -> ->. destruct (g _ structField). reflexivity.
  - intros elem p pointee -> -> ->.
    cbn [KindOf unmarshalField unmarshalFieldPtr].
    unfold unmarshalFieldNonPtr. split.
    + intros f ->. destruct p as [v|]; cbn [default];
        destruct (f first _); reflexivity.
    + intros g -> ->. destruct p as [v|]; cbn [default];
        destruct (g _ _); reflexivity.
Qed.

(** *** Nested structs *)


Lemma resolveName_tagged typeField ft tag :
  TagGet (Tag typeField) tag <> "" ->
  resolveName typeField ft tag = Some (TagGet (Tag typeField) tag).
Proof.
  intros Htag. unfold resolveName.
  destruct (String.eqb_spec (TagGet (Tag typeField) tag) "");
    [contradiction | reflexivity].
Qed.


(** C10 (as amended).  A settable field of struct kind with a tag for
    the namespace and without custom unmarshalling, whose tag is a key
    of [data] (or, when no key is the tag, equals a key up to case) with
    at least one value: there is no recursion into the field (whatever
    [recurse] is); the first value is coerced into the field, the
    coercion fails with "unknown type", and the field keeps its value. *)
Theorem bindField_tagged_struct recurse typeField ft structField data tag :
  Exported typeField = true ->
  TagGet (Tag typeField) tag <> "" ->
  KindOf ft = reflect.Struct ->
  UnmarshalParam (methodsOf ft) = None ->
  UnmarshalText (methodsOf ft) = None ->
  (forall first rest,
      NoDup (map fst data) ->
      In (TagGet (Tag typeField) tag, first :: rest) data ->
      bindField ParseFloat EqualFold recurse typeField ft structField data tag
      = setWithProperType ParseFloat (KindOf ft) first ft structField
      /\ setWithProperType ParseFloat (KindOf ft) first ft structField
         = (structField, Err (errorString "unknown type")))
  /\ (forall pre k first rest post,
        (forall k' v', In (k', v') data -> k' <> TagGet (Tag typeField) tag) ->
        data = pre ++ (k, first :: rest) :: post ->
        EqualFold k (TagGet (Tag typeField) tag) = true ->
        (forall k' v', In (k', v') pre ->
           EqualFold k' (TagGet (Tag typeField) tag) = false) ->
        bindField ParseFloat EqualFold recurse typeField ft structField data tag
        = setWithProperType ParseFloat (KindOf ft) first ft structField
        /\ setWithProperType ParseFloat (KindOf ft) first ft structField
           = (structField, Err (errorString "unknown type"))).
Proof.
  intros Hexp Htag Hk Hp Ht.
  assert (Hset : forall first,
             setWithProperType ParseFloat (KindOf ft) first ft structField
             = (structField, Err (errorString "unknown type"))).
  { intros first.
    destruct ft as [| w ? | w ? | w ? | | | | | | | k ?];
      try destruct w; try destruct k; try discriminate Hk.
    cbn [setWithProperType KindOf unmarshalField].
    rewrite (unmarshalFieldNonPtr_none _ _ _ Hp Ht). reflexivity. }
  assert (Hround : forall first rest,
             lookupInput EqualFold data (TagGet (Tag typeField) tag)
             = Some (first :: rest) ->
             bindField ParseFloat EqualFold recurse typeField ft structField
               data tag
             = setWithProperType ParseFloat (KindOf ft) first ft structField).
  { intros first rest Hlook.
    rewrite (bindField_matched _ _ _ _ _ _ _ _ Hexp
               (resolveName_tagged _ _ _ Htag) Hlook).
    unfold bindInput.
    rewrite unmarshalField_nonptr by (rewrite Hk; discriminate).
    rewrite (unmarshalFieldNonPtr_none _ _ _ Hp Ht).
    rewrite bool_decide_false by (rewrite Hk; discriminate).
    reflexivity. }
  split.
  - intros first rest Hnd Hin. split; [|apply Hset].
    apply (Hround first rest). unfold lookupInput.
    rewrite (mapIndex_exact _ _ _ Hnd Hin). reflexivity.
  - intros pre k first rest post Habs -> Hfold Hpre. split; [|apply Hset].
    apply (Hround first rest). unfold lookupInput.
    rewrite (mapIndex_absent _ _ Habs).
    apply mapIndexFold_first; assumption.
Qed.

(** *** First-element accesses *)

Lemma unmarshalField_panic k s ft field field' p :
  unmarshalField k s ft field = (field', HandledPanic p) -> p = ReflectPanic.
Proof.
  assert (Hn : forall t f f', unmarshalFieldNonPtr s t f
                              <> (f', HandledPanic p)).
  { intros t f f'. unfold unmarshalFieldNonPtr.
    destruct (UnmarshalParam (methodsOf t)) as [g|].
    - destruct (g s f); discriminate.
    - destruct (UnmarshalText (methodsOf t)) as [g|]; [|discriminate].
      destruct (g _ f); discriminate. }
  destruct k; cbn [unmarshalField]; try (intros H; destruct (Hn _ _ _ H)).
  unfold unmarshalFieldPtr.
  destruct ft; try (intros [= _ <-]; reflexivity).
  destruct field as [| | | | |q| | | | |]; try (intros [= _ <-]; reflexivity).
  destruct (unmarshalFieldNonPtr s ft _) as [v h] eqn:E.
  intros [= _ ->]. destruct (Hn _ _ _ E).
Qed.

Lemma setField_in_bounds ft val structField :
  (forall bitSize, snd (setIntField val bitSize ft structField)
                   <> Panic IndexOutOfRange)
  /\ (forall bitSize, snd (setUintField val bitSize ft structField)
                      <> Panic IndexOutOfRange)
  /\ snd (setBoolField val ft structField) <> Panic IndexOutOfRange
  /\ (forall bitSize, snd (setFloatField ParseFloat val bitSize ft structField)
                      <> Panic IndexOutOfRange)
  /\ snd (SetString ft structField val) <> Panic IndexOutOfRange.
Proof.
  unfold setIntField, setUintField, setBoolField, setFloatField,
    SetInt, SetUint, SetBool, SetFloat, SetString.
  repeat split; intros;
    repeat match goal with
      | |- context [match ?x with _ => _ end] => destruct x
      end;
    discriminate.
Qed.

Lemma setWithProperType_in_bounds ft :
  forall valueKind val structField,
    snd (setWithProperType ParseFloat valueKind val ft structField)
    <> Panic IndexOutOfRange.
Proof.
  induction ft using rtype_nested_ind; intros valueKind val structField;
    cbn [setWithProperType];
    (destruct (unmarshalField valueKind val _ structField) as [v [err| |p]] eqn:E;
     [ destruct err; discriminate
     |
     | apply unmarshalField_panic in E; subst p; discriminate ]);
    match goal with
    | |- context [setIntField _ _ ?t ?f] =>
        destruct (setField_in_bounds t val f) as (Hi & Hu & Hb & Hf & Hs)
    end;
    destruct valueKind;
    try apply Hi; try apply Hu; try apply Hb; try apply Hf; try apply Hs;
    try discriminate.
  destruct v as [| | | | |[pointee|]| | | | |]; try discriminate.
  specialize (IHft (KindOf ft) val pointee).
  destruct (setWithProperType ParseFloat (KindOf ft) val ft pointee).
  exact IHft.
Qed.

Lemma setElems_in_bounds sliceOf elemT inputValue :
  snd (setElems ParseFloat sliceOf elemT inputValue) <> Panic IndexOutOfRange.
Proof.
  induction inputValue as [|s rest IH]; simpl; [discriminate|].
  pose proof (setWithProperType_in_bounds elemT sliceOf s (zeroValue elemT))
    as Hs.
  destruct (setWithProperType ParseFloat sliceOf s elemT (zeroValue elemT))
    as [elem [|e|p]]; simpl in Hs |- *; try assumption.
  destruct (setElems ParseFloat sliceOf elemT rest). exact IH.
Qed.

Lemma bindInput_in_bounds ft structField inputValue :
  inputValue <> [] ->
  snd (bindInput ParseFloat ft structField inputValue)
  <> Panic IndexOutOfRange.
Proof.
  intros Hne. unfold bindInput.
  destruct inputValue as [|first rest]; [congruence|].
  destruct (unmarshalField (KindOf ft) first ft structField)
    as [v [err| |p]] eqn:E.
  - destruct err; discriminate.
  - destruct (bool_decide (KindOf ft = reflect.Slice) && _).
    + destruct (Elem ft) as [elemT|]; [|discriminate].
      pose proof (setElems_in_bounds (KindOf elemT) elemT (first :: rest))
        as Hs.
      destruct (setElems ParseFloat (KindOf elemT) elemT (first :: rest))
        as [slice [|e|p]]; simpl in Hs |- *; try discriminate; assumption.
    + apply setWithProperType_in_bounds.
  - apply unmarshalField_panic in E. subst p. discriminate.
Qed.

Lemma mapIndex_In data name v :
  mapIndex data name = Some v -> exists k, In (k, v) data.
Proof.
  induction data as [|[k v'] data IH]; simpl; [discriminate|].
  destruct (String.eqb k name).
  - intros [= ->]. exists k. left. reflexivity.
  - intros H. destruct (IH H) as [k' Hk']. exists k'. right. assumption.
Qed.

Lemma mapIndexFold_In data name v :
  mapIndexFold EqualFold data name = Some v -> exists k, In (k, v) data.
Proof.
  induction data as [|[k v'] data IH]; simpl; [discriminate|].
  destruct (EqualFold k name).
  - intros [= ->]. exists k. left. reflexivity.
  - intros H. destruct (IH H) as [k' Hk']. exists k'. right. assumption.
Qed.

Lemma lookupInput_In data name v :
  lookupInput EqualFold data name = Some v -> exists k, In (k, v) data.
Proof.
  unfold lookupInput. destruct (mapIndex data name) as [v'|] eqn:E.
  - intros [= <-]. eapply mapIndex_In; eassumption.
  - apply mapIndexFold_In.
Qed.

Lemma bindMapEntries_in_bounds key elem entries :
  forall m,
    (forall k v, In (k, v) entries -> v <> []) ->
    snd (bindMapEntries key elem entries m) <> Panic IndexOutOfRange.
Proof.
  induction entries as [|[k v] entries IH]; intros m Hne; simpl;
    [discriminate|].
  destruct v as [|first rest].
  - destruct (Hne k [] (or_introl eq_refl) eq_refl).
  - unfold SetMapIndex.
    destruct (assignableString key && assignableString elem);
      [|discriminate].
    destruct m; [|discriminate].
    apply IH. intros; eapply Hne; right; eassumption.
Qed.

Lemma bindFields_in_bounds bind data tag fields :
  (forall k v, In (k, v) data -> v <> []) ->
  Forall (fun f => forall v, snd (bind (snd f) v) <> Panic IndexOutOfRange)
    fields ->
  forall vals,
    snd (bindFields ParseFloat EqualFold bind data tag fields vals)
    <> Panic IndexOutOfRange.
Proof.
  intros Hne Hall. induction Hall as [|[typeField ft] fields Hf _ IH];
    intros vals; destruct vals as [|structField vals]; simpl;
    try discriminate.
  assert (Hfield : snd (bindField ParseFloat EqualFold (bind ft) typeField ft
                          structField data tag) <> Panic IndexOutOfRange).
  { unfold bindField. destruct (negb (Exported typeField)); [discriminate|].
    destruct (resolveName typeField ft tag) as [name|]; [|apply Hf].
    destruct (lookupInput EqualFold data name) as [inputValue|] eqn:E;
      [|discriminate].
    apply bindInput_in_bounds.
    destruct (lookupInput_In _ _ _ E) as [k Hk]. eapply Hne; eassumption. }
  destruct (bindField ParseFloat EqualFold (bind ft) typeField ft structField
              data tag) as [structField' [|e|p]];
    simpl in Hfield |- *; try assumption.
  specialize (IH vals).
  destruct (bindFields ParseFloat EqualFold bind data tag fields vals).
  exact IH.
Qed.

Lemma bindData_in_bounds typ :
  forall val data tag,
    (forall k v, In (k, v) data -> v <> []) ->
    snd (bindData ParseFloat EqualFold typ val data tag)
    <> Panic IndexOutOfRange.
Proof.
  induction typ as [| | | | | | | |fields d IH| |] using rtype_nested_ind;
    intros val data tag Hne;
    destruct data as [|entry data']; cbn [bindData]; try discriminate.
  - destruct val; try discriminate.
    pose proof (bindMapEntries_in_bounds typ1 typ2 (entry :: data') m Hne)
      as Hm.
    destruct (bindMapEntries typ1 typ2 (entry :: data') m). exact Hm.
  - destruct val as [| | | | | | | |vals| |]; try discriminate.
    assert (Hf : snd (bindFields ParseFloat EqualFold
                        (fun ft v => bindData ParseFloat EqualFold ft v
                                       (entry :: data') tag)
                        (entry :: data') tag fields vals)
                 <> Panic IndexOutOfRange).
    { apply bindFields_in_bounds; [assumption|].
      eapply Forall_impl; [exact IH|].
      intros [typeField ft] Hft v. apply Hft. assumption. }
    destruct (bindFields _ _ _ _ _ fields vals). exact Hf.
Qed.

(** C9.  When every value sequence of [data] is non-empty, no call of
    [bindData] ends in an index out of range; and an empty value
    sequence does end so, on a map target as on a matched field. *)
Theorem bindData_first_value_in_bounds :
  (forall typ val data tag,
      (forall k v, In (k, v) data -> v <> []) ->
      snd (bindData ParseFloat EqualFold typ val data tag)
      <> Panic IndexOutOfRange)
  /\ bindData ParseFloat EqualFold (TMap tString tString None)
       (VMap (Some ∅)) [("k", [])] "query"
     = (VMap (Some ∅), Panic IndexOutOfRange)
  /\ bindData ParseFloat EqualFold tAddr (VStruct [VString ""])
       [("city", [])] "query"
     = (VStruct [VString ""], Panic IndexOutOfRange).
Proof.
  split; [|split; reflexivity].
  intros typ. apply bindData_in_bounds.
Qed.

(** *** Map targets *)

Lemma bindMapEntries_sets key elem :
  assignableString key = true ->
  assignableString elem = true ->
  forall entries (m : gmap string value),
    (forall k v, In (k, v) entries -> v <> []) ->
    exists m' : gmap string value,
      bindMapEntries key elem entries (Some m) = (Some m', Nil)
      /\ (forall pre k first rest post,
            entries = pre ++ (k, first :: rest) :: post ->
            (forall v, ~ In (k, v) post) ->
            m' !! k = Some (VString first))
      /\ (forall k, (forall v, ~ In (k, v) entries) -> m' !! k = m !! k).
Proof.
  intros Hkey Helem.
  induction entries as [|[k0 v0] entries IH]; intros m Hne.
  - exists m. split; [reflexivity|]. split; [|reflexivity].
    intros [|? ?] ? ? ? ? ?; discriminate.
  - destruct v0 as [|first0 rest0].
    { destruct (Hne k0 [] (or_introl eq_refl) eq_refl). }
    destruct (IH (<[k0 := VString first0]> m)) as (m' & Hrun & Hlast & Hother).
    { intros; eapply Hne; right; eassumption. }
    exists m'. split; [|split].
    + cbn [bindMapEntries]. unfold SetMapIndex.
      rewrite Hkey, Helem. exact Hrun.
    + intros pre k first rest post Hsplit Hpost.
      destruct pre as [|e pre]; simpl in Hsplit.
      * injection Hsplit as Hk0 Hf0 Hr0 He. subst k0 first0 rest0 entries.
        rewrite (Hother k Hpost). apply lookup_insert_eq.
      * injection Hsplit as _ He. subst entries.
        eapply Hlast; [reflexivity | assumption].
    + intros k Hk. rewrite Hother.
      * apply lookup_insert_ne. intros ->.
        apply (Hk (first0 :: rest0)). left. reflexivity.
      * intros v Hin. apply (Hk v). right. assumption.
Qed.

(** C8 (as amended).  A target that is a non-nil map whose key and
    element types take a string, and a [data] whose value sequences are
    non-empty: [bindData] returns nil, whatever the tag, and leaves a
    map in which every key of [data] holds the first value of its entry
    -- of its last entry, would a key come twice in the iteration -- and
    every other key what it held. *)
Theorem bindData_map key elem d (m : gmap string value) data tag :
  assignableString key = true ->
  assignableString elem = true ->
  (forall k v, In (k, v) data -> v <> []) ->
  exists m' : gmap string value,
    bindData ParseFloat EqualFold (TMap key elem d) (VMap (Some m)) data tag
    = (VMap (Some m'), Nil)
    /\ (forall pre k first rest post,
          data = pre ++ (k, first :: rest) :: post ->
          (forall v, ~ In (k, v) post) ->
          m' !! k = Some (VString first))
    /\ (forall k, (forall v, ~ In (k, v) data) -> m' !! k = m !! k).
Proof.
  intros Hkey Helem Hne.
  destruct (bindMapEntries_sets key elem Hkey Helem data m Hne)
    as (m' & Hrun & Hlast & Hother).
  destruct data as [|entry data'].
  - exists m. split; [reflexivity|]. split; [|reflexivity].
    intros [|? ?] ? ? ? ? ?; discriminate.
  - exists m'. split; [|split; assumption].
    cbn [bindData]. rewrite Hrun. reflexivity.
Qed.

(** *** The content router *)

Variable ErrorText : error -> string.
Variable jsonUnmarshal :
  string -> option (rtype * value) -> option (rtype * value) * option JSONError.
Variable xmlUnmarshal :
  string -> option (rtype * value) -> option (rtype * value) * option XMLError.

(** C7 (as amended).  A request with a positive content length whose
    body is read without error and whose content type (the JSON type,
    when the header is empty) starts with none of the JSON, XML, text
    XML, form and multipart form types: [Bind] returns the unsupported
    media type error and leaves the target as it was; no decoder and no
    binding of query or path parameters has a part in the result. *)
Theorem Bind_unsupported_media_type i c body :
  0 < ContentLength c ->
  ReadBody c = inl body ->
  strings.HasPrefix (contentType c) echo.MIMEApplicationJSON = false ->
  strings.HasPrefix (contentType c) echo.MIMEApplicationXML = false ->
  strings.HasPrefix (contentType c) echo.MIMETextXML = false ->
  strings.HasPrefix (contentType c) echo.MIMEApplicationForm = false ->
  strings.HasPrefix (contentType c) echo.MIMEMultipartForm = false ->
  Bind ParseFloat EqualFold ErrorText jsonUnmarshal xmlUnmarshal i c
  = (i, Err echo.ErrUnsupportedMediaType).
Proof.
  intros Hlen Hbody Hjson Hxml Htxml Hform Hmulti.
  unfold Bind. apply Z.ltb_lt in Hlen. rewrite Hlen.
  unfold bindBody. rewrite Hbody, Hjson, Hxml, Htxml, Hform, Hmulti.
  reflexivity.
Qed.

End Properties.

(** ** The theorems at concrete inputs *)

(** C1 (as amended) on [Ids []int `query:"x"`] and [x=1&x=2]. *)
Lemma bindField_slice_or_scalar_witness :
  Exported fIds = true
  /\ resolveName fIds tInts "query" = Some "x"
  /\ lookupInput ASCII.EqualFold [("x", ["1"; "2"])] "x" = Some ["1"; "2"]
  /\ unmarshalField (KindOf tInts) "1" tInts (VSlice [])
     = (VSlice [], NotHandled)
  /\ bindField Decimal.ParseFloat ASCII.EqualFold noRecursion fIds tInts
       (VSlice []) [("x", ["1"; "2"])] "query"
     = (VSlice [VInt 1; VInt 2], Nil).
Proof.
  do 4 (split; [reflexivity|]).
  apply (proj1 (bindField_slice_or_scalar Decimal.ParseFloat ASCII.EqualFold
                  noRecursion fIds tInts (VSlice []) [("x", ["1"; "2"])]
                  "query" "x" "1" ["2"] (VSlice [])
                  eq_refl eq_refl eq_refl eq_refl)
           tInt eq_refl eq_refl).
  intros s [<-|[<-|[]]]; reflexivity.
Defined.

(** C1, as the claim has it, fails: an entry with a single value gives a
    slice field a slice of one element; coercing the value into the field
    itself would be the error "unknown type". *)
Lemma bindField_single_value_slice :
  Exported fIds = true
  /\ resolveName fIds tInts "query" = Some "x"
  /\ lookupInput ASCII.EqualFold [("x", ["5"])] "x" = Some ["5"]
  /\ unmarshalField (KindOf tInts) "5" tInts (VSlice [])
     = (VSlice [], NotHandled)
  /\ KindOf tInts = reflect.Slice
  /\ length ["5"] = 1%nat
  /\ bindField Decimal.ParseFloat ASCII.EqualFold noRecursion fIds tInts
       (VSlice []) [("x", ["5"])] "query"
     = (VSlice [VInt 5], Nil)
  /\ setWithProperType Decimal.ParseFloat (KindOf tInts) "5" tInts (VSlice [])
     = (VSlice [], Err (errorString "unknown type"))
  /\ bindField Decimal.ParseFloat ASCII.EqualFold noRecursion fIds tInts
       (VSlice []) [("x", ["5"])] "query"
     <> setWithProperType Decimal.ParseFloat (KindOf tInts) "5" tInts
          (VSlice []).
Proof. repeat split. discriminate. Qed.

(** C2 on [x=1&x=bad&x=3]: the parse error of [bad] is returned and
    [Ids] keeps the slice it had. *)
Lemma bindData_slice_element_error_witness :
  length [(fName, tString)] = length [VString ""]
  /\ bindFields Decimal.ParseFloat ASCII.EqualFold
       (fun ft v =>
          bindData Decimal.ParseFloat ASCII.EqualFold ft v
            [("name", ["bob"]); ("x", ["1"; "bad"; "3"])] "query")
       [("name", ["bob"]); ("x", ["1"; "bad"; "3"])] "query"
       [(fName, tString)] [VString ""]
     = ([VString "bob"], Nil)
  /\ Exported fIds = true
  /\ resolveName fIds tInts "query" = Some "x"
  /\ lookupInput ASCII.EqualFold
       [("name", ["bob"]); ("x", ["1"; "bad"; "3"])] "x"
     = Some (["1"] ++ "bad" :: ["3"])
  /\ KindOf tInts = reflect.Slice
  /\ Elem tInts = Some tInt
  /\ UnmarshalParam (methodsOf tInts) = None
  /\ UnmarshalText (methodsOf tInts) = None
  /\ (forall s', In s' ["1"] ->
        snd (setWithProperType Decimal.ParseFloat (KindOf tInt) s' tInt
               (zeroValue tInt)) = Nil)
  /\ setWithProperType Decimal.ParseFloat (KindOf tInt) "bad" tInt
       (zeroValue tInt)
     = (VInt 0, Err (NumError "ParseInt" "bad" ErrSyntax))
  /\ bindData Decimal.ParseFloat ASCII.EqualFold
       (TStruct ([(fName, tString)] ++ (fIds, tInts)
                 :: [(fScore, TFloat F64 None)]) None)
       (VStruct ([VString ""] ++ VSlice [VInt 9]
                 :: [VFloat (S754_zero false)]))
       [("name", ["bob"]); ("x", ["1"; "bad"; "3"])] "query"
     = (VStruct ([VString "bob"] ++ VSlice [VInt 9]
                 :: [VFloat (S754_zero false)]),
        Err (NumError "ParseInt" "bad" ErrSyntax)).
Proof.
  assert (Hpre : forall s', In s' ["1"] ->
            snd (setWithProperType Decimal.ParseFloat (KindOf tInt) s' tInt
                   (zeroValue tInt)) = Nil).
  { intros s' [<-|[]]. reflexivity. }
  do 11 (split; [first [exact Hpre | reflexivity]|]).
  exact (bindData_slice_element_error Decimal.ParseFloat ASCII.EqualFold
           [(fName, tString)] fIds tInts [(fScore, TFloat F64 None)] None
           [VString ""] [VString "bob"] (VSlice [VInt 9])
           [VFloat (S754_zero false)]
           [("name", ["bob"]); ("x", ["1"; "bad"; "3"])] "query" "x" tInt
           ["1"] "bad" ["3"] (VInt 0) (NumError "ParseInt" "bad" ErrSyntax)
           eq_refl eq_refl eq_refl eq_refl eq_refl eq_refl eq_refl eq_refl
           eq_refl Hpre eq_refl).
Defined.

(** C3 (as amended) on a field looked up as [name]: the key [name] gives
    the input although the key [NAME] comes before it; without a key
    [name], the key [Name] gives the input; and without either, the
    field keeps its value and there is no error. *)
Lemma bindField_lookup_witness :
  Exported fName = true
  /\ (TagGet (Tag fName) "query" <> ""
      \/ UnmarshalParam (methodsOf tString) <> None
      \/ KindOf tString <> reflect.Struct)
  /\ "name" = (if String.eqb (TagGet (Tag fName) "query") ""
               then Name fName else TagGet (Tag fName) "query")
  /\ NoDup (map fst [("NAME", ["wrong"]); ("name", ["right"])])
  /\ In ("name", ["right"]) [("NAME", ["wrong"]); ("name", ["right"])]
  /\ ASCII.EqualFold "NAME" "name" = true
  /\ bindField Decimal.ParseFloat ASCII.EqualFold noRecursion fName tString
       (VString "") [("NAME", ["wrong"]); ("name", ["right"])] "query"
     = bindInput Decimal.ParseFloat tString (VString "") ["right"]
  /\ bindInput Decimal.ParseFloat tString (VString "") ["right"]
     = (VString "right", Nil)
  /\ (forall k' v', In (k', v') [("id", ["7"]); ("Name", ["bob"])] ->
        k' <> "name")
  /\ ASCII.EqualFold "Name" "name" = true
  /\ (forall k' v', In (k', v') [("id", ["7"])] ->
        ASCII.EqualFold k' "name" = false)
  /\ bindField Decimal.ParseFloat ASCII.EqualFold noRecursion fName tString
       (VString "") [("id", ["7"]); ("Name", ["bob"])] "query"
     = bindInput Decimal.ParseFloat tString (VString "") ["bob"]
  /\ bindInput Decimal.ParseFloat tString (VString "") ["bob"]
     = (VString "bob", Nil)
  /\ (forall k v, In (k, v) [("id", ["7"]); ("nick", ["al"])] ->
        k <> "name" /\ ASCII.EqualFold k "name" = false)
  /\ bindField Decimal.ParseFloat ASCII.EqualFold noRecursion fName tString
       (VString "") [("id", ["7"]); ("nick", ["al"])] "query"
     = (VString "", Nil).
Proof.
  assert (Hres : TagGet (Tag fName) "query" <> ""
                 \/ UnmarshalParam (methodsOf tString) <> None
                 \/ KindOf tString <> reflect.Struct)
    by (left; discriminate).
  assert (Hnd : NoDup (map fst [("NAME", ["wrong"]); ("name", ["right"])])).
  { cbn [map fst].
    repeat (apply NoDup_cons_2;
            [rewrite list_elem_of_In; simpl; intuition discriminate|]).
    apply NoDup_nil_2. }
  assert (Hin : In ("name", ["right"])
                  [("NAME", ["wrong"]); ("name", ["right"])])
    by (right; left; reflexivity).
  assert (Habs : forall k' v',
             In (k', v') [("id", ["7"]); ("Name", ["bob"])] -> k' <> "name").
  { intros k' v' [[= <- <-]|[[= <- <-]|[]]]; discriminate. }
  assert (Hpre : forall k' v', In (k', v') [("id", ["7"])] ->
             ASCII.EqualFold k' "name" = false).
  { intros k' v' [[= <- <-]|[]]. reflexivity. }
  assert (Hnone : forall k v,
             In (k, v) [("id", ["7"]); ("nick", ["al"])] ->
             k <> "name" /\ ASCII.EqualFold k "name" = false).
  { intros k v [[= <- <-]|[[= <- <-]|[]]]; (split; [discriminate|reflexivity]). }
  split; [reflexivity|]. split; [exact Hres|]. split; [reflexivity|].
  split; [exact Hnd|]. split; [exact Hin|]. split; [reflexivity|].
  split.
  { exact (proj1 (bindField_lookup Decimal.ParseFloat ASCII.EqualFold
                    (fun _ => noRecursion) fName tString (VString "")
                    [("NAME", ["wrong"]); ("name", ["right"])] "query" "name"
                    eq_refl Hres eq_refl)
             ["right"] Hnd Hin). }
  split; [reflexivity|]. split; [exact Habs|]. split; [reflexivity|].
  split; [exact Hpre|].
  split.
  { exact (proj1 (proj2 (bindField_lookup Decimal.ParseFloat ASCII.EqualFold
                           (fun _ => noRecursion) fName tString (VString "")
                           [("id", ["7"]); ("Name", ["bob"])] "query" "name"
                           eq_refl Hres eq_refl))
             [("id", ["7"])] "Name" ["bob"] [] Habs eq_refl eq_refl Hpre). }
  split; [reflexivity|]. split; [exact Hnone|].
  exact (proj1 (proj2 (proj2 (bindField_lookup Decimal.ParseFloat
                                ASCII.EqualFold
                                (fun _ => noRecursion) fName tString
                                (VString "")
                                [("id", ["7"]); ("nick", ["al"])] "query"
                                "name" eq_refl Hres eq_refl))
                  Hnone)).
Defined.

(** C3, as the claim has it, fails for a settable field without a tag
    that is of struct kind and has no [UnmarshalParam]: no name is
    looked up for it.  [Place] is no key of [data], exactly or up to
    case, and yet the field is not passed over: [bindData] goes into it
    and returns the parse error of [zip=bad].  And [Addr] is a key of
    [data], and yet its entry is not the input of the field: the entry
    of [city] is bound inside it, where the entry of [Addr] would give
    "unknown type". *)
Lemma bindField_untagged_struct_no_lookup :
  Exported fPlace = true
  /\ TagGet (Tag fPlace) "query" = ""
  /\ (forall k v, In (k, v) [("zip", ["bad"])] ->
        k <> Name fPlace /\ ASCII.EqualFold k (Name fPlace) = false)
  /\ bindData Decimal.ParseFloat ASCII.EqualFold
       (TStruct [(fPlace, tPlace); (fName, tString)] None)
       (VStruct [VStruct [VInt 0]; VString ""])
       [("zip", ["bad"])] "query"
     = (VStruct [VStruct [VInt 0]; VString ""],
        Err (NumError "ParseInt" "bad" ErrSyntax))
  /\ Exported fAddr = true
  /\ TagGet (Tag fAddr) "query" = ""
  /\ In (Name fAddr, ["x"]) [("Addr", ["x"]); ("city", ["NYC"])]
  /\ bindData Decimal.ParseFloat ASCII.EqualFold
       (TStruct [(fAddr, tAddr)] None) (VStruct [VStruct [VString ""]])
       [("Addr", ["x"]); ("city", ["NYC"])] "query"
     = (VStruct [VStruct [VString "NYC"]], Nil)
  /\ bindInput Decimal.ParseFloat tAddr (VStruct [VString ""]) ["x"]
     = (VStruct [VString ""], Err (errorString "unknown type")).
Proof.
  do 2 (split; [reflexivity|]).
  split.
  { intros k v [[= <- <-]|[]]. split; [discriminate|reflexivity]. }
  do 3 (split; [reflexivity|]).
  split; [left; reflexivity|].
  split; reflexivity.
Qed.

(** C4 on a [float32] field, with the decimal [ParseFloat]. *)
Lemma setWithProperType_empty_string_witness :
  Decimal.ParseFloat "0.0" 32 = inl (S754_zero false)
  /\ Decimal.ParseFloat "0.0" 64 = inl (S754_zero false)
  /\ UnmarshalParam (methodsOf (TFloat F32 None)) = None
  /\ UnmarshalText (methodsOf (TFloat F32 None)) = None
  /\ setWithProperType Decimal.ParseFloat (KindOf (TFloat F32 None)) ""
       (TFloat F32 None) (VFloat (S754_finite false 13421773 (-27)))
     = (VFloat (S754_zero false), Nil).
Proof.
  do 4 (split; [reflexivity|]).
  exact (proj2 (proj2 (proj2
           (setWithProperType_empty_string Decimal.ParseFloat
              (TFloat F32 None) (VFloat (S754_finite false 13421773 (-27)))
              eq_refl eq_refl eq_refl eq_refl)))
           F32 None eq_refl).
Defined.

(** C5 on a field of type [Level], an [int] with [UnmarshalParam]. *)
Lemma bindField_custom_unmarshal_witness :
  Exported fLevel = true
  /\ resolveName fLevel tLevel "query" = Some "level"
  /\ lookupInput ASCII.EqualFold [("level", ["high"; "7"])] "level"
     = Some ["high"; "7"]
  /\ KindOf tLevel = reflect.Int
  /\ UnmarshalParam (methodsOf tLevel) = Some levelUnmarshalParam
  /\ bindField Decimal.ParseFloat ASCII.EqualFold noRecursion fLevel tLevel
       (VInt 0) [("level", ["high"; "7"])] "query"
     = (VInt 3, Nil).
Proof.
  do 5 (split; [reflexivity|]).
  apply (proj1 (proj1 (bindField_custom_unmarshal Decimal.ParseFloat
                         ASCII.EqualFold noRecursion fLevel tLevel (VInt 0)
                         [("level", ["high"; "7"])] "query" "level" "high"
                         ["7"] eq_refl eq_refl eq_refl)
                  ltac:(discriminate))
           levelUnmarshalParam eq_refl).
Defined.


(** C7 (as amended) on a request of type [application/octet-stream]. *)
Lemma Bind_unsupported_media_type_witness :
  0 < ContentLength octetRequest
  /\ ReadBody octetRequest = inl "payload"
  /\ strings.HasPrefix (contentType octetRequest) echo.MIMEApplicationJSON
     = false
  /\ strings.HasPrefix (contentType octetRequest) echo.MIMEApplicationXML
     = false
  /\ strings.HasPrefix (contentType octetRequest) echo.MIMETextXML = false
  /\ strings.HasPrefix (contentType octetRequest) echo.MIMEApplicationForm
     = false
  /\ strings.HasPrefix (contentType octetRequest) echo.MIMEMultipartForm
     = false
  /\ Bind Decimal.ParseFloat ASCII.EqualFold plainErrorText idleDecoder
       idleDecoder pNamed octetRequest
     = (pNamed, Err echo.ErrUnsupportedMediaType).
Proof.
  do 7 (split; [reflexivity|]).
  exact (Bind_unsupported_media_type Decimal.ParseFloat ASCII.EqualFold
           plainErrorText idleDecoder idleDecoder pNamed octetRequest
           "payload" eq_refl eq_refl eq_refl eq_refl eq_refl eq_refl eq_refl).
Defined.

(** C7, as the claim has it, fails: with a content length of -1 (a body
    of unknown length) the body is passed over and the query string is
    bound; and with a body that cannot be read the error is that of the
    reading. *)
Lemma Bind_octet_stream_not_rejected :
  ContentLength chunkedRequest <> 0
  /\ contentType chunkedRequest = "application/octet-stream"
  /\ Bind Decimal.ParseFloat ASCII.EqualFold plainErrorText idleDecoder
       idleDecoder pNamed chunkedRequest
     = (Some (TPtr tNamed, VPtr (Some (VStruct [VString "bob"]))), Nil)
  /\ ContentLength brokenRequest <> 0
  /\ contentType brokenRequest = "application/octet-stream"
  /\ Bind Decimal.ParseFloat ASCII.EqualFold plainErrorText idleDecoder
       idleDecoder pNamed brokenRequest
     = (pNamed, Err (errorString "fail to read body: unexpected EOF")).
Proof.
  split; [discriminate|]. do 2 (split; [reflexivity|]).
  split; [discriminate|]. split; reflexivity.
Qed.

(** C8 (as amended) on a [map[string]interface{}]. *)
Lemma bindData_map_witness :
  assignableString tString = true
  /\ assignableString (TInterface []) = true
  /\ (forall k v, In (k, v) [("a", ["1"; "2"]); ("b", ["x"])] -> v <> [])
  /\ exists m' : gmap string value,
      bindData Decimal.ParseFloat ASCII.EqualFold
        (TMap tString (TInterface []) None)
        (VMap (Some (<["c" := VString "old"]> ∅)))
        [("a", ["1"; "2"]); ("b", ["x"])] "form"
      = (VMap (Some m'), Nil)
      /\ (forall pre k first rest post,
            [("a", ["1"; "2"]); ("b", ["x"])]
            = pre ++ (k, first :: rest) :: post ->
            (forall v, ~ In (k, v) post) ->
            m' !! k = Some (VString first))
      /\ (forall k,
            (forall v, ~ In (k, v) [("a", ["1"; "2"]); ("b", ["x"])]) ->
            m' !! k = (<["c" := VString "old"]> ∅ : gmap string value) !! k).
Proof.
  assert (Hne : forall k v,
            In (k, v) [("a", ["1"; "2"]); ("b", ["x"])] -> v <> []).
  { intros k v [[= <- <-]|[[= <- <-]|[]]]; discriminate. }
  do 2 (split; [reflexivity|]). split; [exact Hne|].
  exact (bindData_map Decimal.ParseFloat ASCII.EqualFold tString
           (TInterface []) None (<["c" := VString "old"]> ∅)
           [("a", ["1"; "2"]); ("b", ["x"])] "form" eq_refl eq_refl Hne).
Defined.

(** C8, as the claim has it, fails: on a map whose elements are no
    strings, and on a nil map, [SetMapIndex] panics. *)
Lemma bindData_map_panics :
  KindOf (TMap tString tInt None) = reflect.Map
  /\ bindData Decimal.ParseFloat ASCII.EqualFold (TMap tString tInt None)
       (VMap (Some ∅)) [("a", ["1"])] "form"
     = (VMap (Some ∅), Panic ReflectPanic)
  /\ KindOf (TMap tString tString None) = reflect.Map
  /\ bindData Decimal.ParseFloat ASCII.EqualFold (TMap tString tString None)
       (VMap None) [("a", ["1"])] "form"
     = (VMap None, Panic NilMapAssignment).
Proof. repeat split. Qed.

(** C9 on a query with three non-empty entries. *)
Lemma bindData_first_value_in_bounds_witness :
  (forall k v,
      In (k, v) [("name", ["bob"]); ("x", ["1"; "2"]); ("city", ["NYC"])] ->
      v <> [])
  /\ snd (bindData Decimal.ParseFloat ASCII.EqualFold tUser (zeroValue tUser)
           [("name", ["bob"]); ("x", ["1"; "2"]); ("city", ["NYC"])] "query")
     <> Panic IndexOutOfRange.
Proof.
  assert (Hne : forall k v,
            In (k, v) [("name", ["bob"]); ("x", ["1"; "2"]); ("city", ["NYC"])]
            -> v <> []).
  { intros k v [[= <- <-]|[[= <- <-]|[[= <- <-]|[]]]]; discriminate. }
  split; [exact Hne|].
  exact (proj1 (bindData_first_value_in_bounds Decimal.ParseFloat
                  ASCII.EqualFold)
           tUser (zeroValue tUser)
           [("name", ["bob"]); ("x", ["1"; "2"]); ("city", ["NYC"])] "query"
           Hne).
Defined.

(** C10 (as amended) on [Home struct{...} `query:"home"`]: with
    [home=NYC] and with [HOME=NYC] the round ends in "unknown type",
    while the recursion would bind [city=Oslo]. *)
Lemma bindField_tagged_struct_witness :
  Exported fHome = true
  /\ TagGet (Tag fHome) "query" <> ""
  /\ KindOf tAddr = reflect.Struct
  /\ UnmarshalParam (methodsOf tAddr) = None
  /\ UnmarshalText (methodsOf tAddr) = None
  /\ NoDup (map fst [("home", ["NYC"]); ("city", ["Oslo"])])
  /\ In (TagGet (Tag fHome) "query", ["NYC"])
       [("home", ["NYC"]); ("city", ["Oslo"])]
  /\ bindField Decimal.ParseFloat ASCII.EqualFold
       (fun v =>
          bindData Decimal.ParseFloat ASCII.EqualFold tAddr v
            [("home", ["NYC"]); ("city", ["Oslo"])] "query")
       fHome tAddr (VStruct [VString ""])
       [("home", ["NYC"]); ("city", ["Oslo"])] "query"
     = (VStruct [VString ""], Err (errorString "unknown type"))
  /\ bindData Decimal.ParseFloat ASCII.EqualFold tAddr (VStruct [VString ""])
       [("home", ["NYC"]); ("city", ["Oslo"])] "query"
     = (VStruct [VString "Oslo"], Nil)
  /\ (forall k' v', In (k', v') [("city", ["Oslo"]); ("HOME", ["NYC"])] ->
        k' <> TagGet (Tag fHome) "query")
  /\ ASCII.EqualFold "HOME" (TagGet (Tag fHome) "query") = true
  /\ (forall k' v', In (k', v') [("city", ["Oslo"])] ->
        ASCII.EqualFold k' (TagGet (Tag fHome) "query") = false)
  /\ bindField Decimal.ParseFloat ASCII.EqualFold
       (fun v =>
          bindData Decimal.ParseFloat ASCII.EqualFold tAddr v
            [("city", ["Oslo"]); ("HOME", ["NYC"])] "query")
       fHome tAddr (VStruct [VString ""])
       [("city", ["Oslo"]); ("HOME", ["NYC"])] "query"
     = (VStruct [VString ""], Err (errorString "unknown type")).
Proof.
  assert (Htag : TagGet (Tag fHome) "query" <> "") by discriminate.
  assert (Hnd : NoDup (map fst [("home", ["NYC"]); ("city", ["Oslo"])])).
  { cbn [map fst].
    repeat (apply NoDup_cons_2;
            [rewrite list_elem_of_In; simpl; intuition discriminate|]).
    apply NoDup_nil_2. }
  assert (Hin : In (TagGet (Tag fHome) "query", ["NYC"])
                  [("home", ["NYC"]); ("city", ["Oslo"])])
    by (left; reflexivity).
  assert (Habs : forall k' v',
             In (k', v') [("city", ["Oslo"]); ("HOME", ["NYC"])] ->
             k' <> TagGet (Tag fHome) "query").
  { intros k' v' [[= <- <-]|[[= <- <-]|[]]]; discriminate. }
  assert (Hpre : forall k' v', In (k', v') [("city", ["Oslo"])] ->
             ASCII.EqualFold k' (TagGet (Tag fHome) "query") = false).
  { intros k' v' [[= <- <-]|[]]. reflexivity. }
  split; [reflexivity|]. split; [exact Htag|].
  do 3 (split; [reflexivity|]).
  split; [exact Hnd|]. split; [exact Hin|].
  split.
  { pose proof (proj1 (bindField_tagged_struct Decimal.ParseFloat
                         ASCII.EqualFold
                         (fun v =>
                            bindData Decimal.ParseFloat ASCII.EqualFold tAddr v
                              [("home", ["NYC"]); ("city", ["Oslo"])] "query")
                         fHome tAddr (VStruct [VString ""])
                         [("home", ["NYC"]); ("city", ["Oslo"])] "query"
                         eq_refl Htag eq_refl eq_refl eq_refl)
                  "NYC" [] Hnd Hin) as [H1 H2].
    exact (eq_trans H1 H2). }
  split; [reflexivity|]. split; [exact Habs|]. split; [reflexivity|].
  split; [exact Hpre|].
  pose proof (proj2 (bindField_tagged_struct Decimal.ParseFloat
                       ASCII.EqualFold
                       (fun v =>
                          bindData Decimal.ParseFloat ASCII.EqualFold tAddr v
                            [("city", ["Oslo"]); ("HOME", ["NYC"])] "query")
                       fHome tAddr (VStruct [VString ""])
                       [("city", ["Oslo"]); ("HOME", ["NYC"])] "query"
                       eq_refl Htag eq_refl eq_refl eq_refl)
                [("city", ["Oslo"])] "HOME" "NYC" [] [] Habs eq_refl eq_refl
                Hpre) as [H1 H2].
  exact (eq_trans H1 H2).
Defined.

(** C10, as the claim has it, fails for a field that cannot be set:
    [home struct{...} `query:"home"`] is of struct kind, has a tag and
    no custom unmarshalling, and [home] is a key of [data]; the field is
    passed over before its tag is read, nothing is coerced and there is
    no error.  And for a settable field whose entry has no value, the
    first value is out of range. *)
Lemma bindField_tagged_struct_unsettable :
  Exported fPrivateHome = false
  /\ TagGet (Tag fPrivateHome) "query" = "home"
  /\ KindOf tAddr = reflect.Struct
  /\ UnmarshalParam (methodsOf tAddr) = None
  /\ UnmarshalText (methodsOf tAddr) = None
  /\ In ("home", ["NYC"]) [("home", ["NYC"])]
  /\ bindField Decimal.ParseFloat ASCII.EqualFold
       (fun v =>
          bindData Decimal.ParseFloat ASCII.EqualFold tAddr v
            [("home", ["NYC"])] "query")
       fPrivateHome tAddr (VStruct [VString ""]) [("home", ["NYC"])] "query"
     = (VStruct [VString ""], Nil)
  /\ bindData Decimal.ParseFloat ASCII.EqualFold
       (TStruct [(fPrivateHome, tAddr)] None) (VStruct [VStruct [VString ""]])
       [("home", ["NYC"])] "query"
     = (VStruct [VStruct [VString ""]], Nil)
  /\ Exported fHome = true
  /\ TagGet (Tag fHome) "query" = "home"
  /\ In ("home", @nil string) [("home", @nil string)]
  /\ bindData Decimal.ParseFloat ASCII.EqualFold
       (TStruct [(fHome, tAddr)] None) (VStruct [VStruct [VString ""]])
       [("home", [])] "query"
     = (VStruct [VStruct [VString ""]], Panic IndexOutOfRange).
Proof.
  do 5 (split; [reflexivity|]).
  split; [left; reflexivity|].
  do 4 (split; [reflexivity|]).
  split; [left; reflexivity|].
  reflexivity.
Qed.


(** ** Further properties of the binder *)

Section BinderProperties.

Variable ParseFloat : string -> Z -> spec_float + error.
Variable EqualFold : string -> string -> bool.

(** *** The loop over the fields *)

(** X1.  The first field whose round does not end in nil ends the call:
    [bindData] returns what that round returned, the fields before it
    keep what they were given, the field has what its round left, and
    the fields after it are as they were. *)
Theorem bindData_first_failure fs1 typeField ft fs2 d vs1 vs1' structField
    structField' vs2 data tag r :
  data <> [] ->
  length fs1 = length vs1 ->
  bindFields ParseFloat EqualFold
    (fun ft v => bindData ParseFloat EqualFold ft v data tag)
    data tag fs1 vs1 = (vs1', Nil) ->
  bindField ParseFloat EqualFold
    (fun v => bindData ParseFloat EqualFold ft v data tag)
    typeField ft structField data tag = (structField', r) ->
  r <> Nil ->
  bindData ParseFloat EqualFold
    (TStruct (fs1 ++ (typeField, ft) :: fs2) d)
    (VStruct (vs1 ++ structField :: vs2)) data tag
  = (VStruct (vs1' ++ structField' :: vs2), r).
Proof.
  intros Hdata Hlen Hfs1 Hfield Hr.
  destruct data as [|entry data']; [congruence|].
  cbn [bindData].
  rewrite (bindFields_app _ _ _ _ _ _ _ _ _ _ Hlen Hfs1).
  cbn [bindFields]. rewrite Hfield.
  destruct r; [congruence| |]; reflexivity.
Qed.

(** A field the binder passes over: it cannot be set, or the name it is
    looked up by is found in [data] neither as it is nor up to case. *)
Lemma bindField_passed_over recurse typeField ft structField data tag :
  Exported typeField = false
  \/ (exists name,
        resolveName typeField ft tag = Some name
        /\ lookupInput EqualFold data name = None) ->
  bindField ParseFloat EqualFold recurse typeField ft structField data tag
  = (structField, Nil).
Proof.
  unfold bindField. intros [Hexp|(name & Hname & Hlook)].
  - rewrite Hexp. reflexivity.
  - destruct (negb (Exported typeField)); [reflexivity|].
    rewrite Hname, Hlook. reflexivity.
Qed.

Lemma bindFields_frame bind data tag fields :
  forall vals vals' r,
    bindFields ParseFloat EqualFold bind data tag fields vals = (vals', r) ->
    length vals' = length vals
    /\ forall i typeField ft,
        fields !! i = Some (typeField, ft) ->
        Exported typeField = false
        \/ (exists name,
              resolveName typeField ft tag = Some name
              /\ lookupInput EqualFold data name = None) ->
        vals' !! i = vals !! i.
Proof.
  induction fields as [|[typeField ft] fields IH]; intros vals vals' r H.
  - simpl in H. injection H as <- _. split; [reflexivity|].
    intros i ? ? Hi. destruct i; discriminate Hi.
  - destruct vals as [|structField vals]; simpl in H.
    { injection H as <- _. split; [reflexivity|]. reflexivity. }
    destruct (bindField ParseFloat EqualFold (bind ft) typeField ft
                structField data tag) as [structField' o] eqn:Hf.
    set (passed := fun (f : StructField) (t : rtype) =>
           Exported f = false
           \/ (exists name,
                 resolveName f t tag = Some name
                 /\ lookupInput EqualFold data name = None)) in *.
    assert (Hkeep : passed typeField ft -> structField' = structField).
    { intros Hp. rewrite (bindField_passed_over _ _ _ _ _ _ Hp) in Hf.
      congruence. }
    assert (Hrest : exists vals'', vals' = structField' :: vals''
              /\ length vals'' = length vals
              /\ forall i f t, fields !! i = Some (f, t) ->
                   passed f t -> vals'' !! i = vals !! i).
    { destruct o.
      - destruct (bindFields ParseFloat EqualFold bind data tag fields vals)
          as [vals'' r'] eqn:Hfs.
        injection H as <- _. exists vals''. split; [reflexivity|].
        exact (IH _ _ _ Hfs).
      - injection H as <- _. exists vals. auto.
      - injection H as <- _. exists vals. auto. }
    destruct Hrest as (vals'' & -> & Hlen & Hkeep').
    split; [simpl; congruence|].
    intros [|i] f t Hi Hp; simpl in Hi |- *.
    + injection Hi as -> ->. f_equal. auto.
    + eapply Hkeep'; eassumption.
Qed.

(** X2.  Whatever the outcome, [bindData] leaves a struct a struct with
    as many fields as it had; and a field that cannot be set, or whose
    name is found in [data] neither as it is nor up to case, holds what
    it held. *)
Theorem bindData_frame fields d vals data tag v' r :
  bindData ParseFloat EqualFold (TStruct fields d) (VStruct vals) data tag
  = (v', r) ->
  exists vals',
    v' = VStruct vals'
    /\ length vals' = length vals
    /\ forall i typeField ft,
        fields !! i = Some (typeField, ft) ->
        Exported typeField = false
        \/ (exists name,
              resolveName typeField ft tag = Some name
              /\ lookupInput EqualFold data name = None) ->
        vals' !! i = vals !! i.
Proof.
  intros H. destruct data as [|entry data'].
  - simpl in H. injection H as <- _. exists vals. auto.
  - cbn [bindData] in H.
    destruct (bindFields ParseFloat EqualFold _ (entry :: data') tag fields vals)
      as [vals' r'] eqn:Hfs.
    injection H as <- _. exists vals'. split; [reflexivity|].
    exact (bindFields_frame _ _ _ _ _ _ _ Hfs).
Qed.

(** *** Pointers *)

Lemma unmarshalFieldNonPtr_no_panic s ft field field' p :
  unmarshalFieldNonPtr s ft field <> (field', HandledPanic p).
Proof.
  unfold unmarshalFieldNonPtr.
  destruct (UnmarshalParam (methodsOf ft)) as [g|].
  - destruct (g s field); discriminate.
  - destruct (UnmarshalText (methodsOf ft)) as [g|]; [|discriminate].
    destruct (g _ field); discriminate.
Qed.

Lemma setWithProperType_handled ft val structField structField' err :
  KindOf ft <> reflect.Ptr ->
  unmarshalFieldNonPtr val ft structField = (structField', Handled err) ->
  setWithProperType ParseFloat (KindOf ft) val ft structField
  = (structField', ofError err).
Proof.
  intros Hk H.
  destruct ft as [| w ? | w ? | w ? | | | | | | | k ?];
    try destruct w; try destruct k;
    cbn [setWithProperType KindOf unmarshalField] in *;
    try congruence; rewrite H; reflexivity.
Qed.

Lemma setWithProperType_through_pointer val elem p :
  setWithProperType ParseFloat reflect.Ptr val (TPtr elem) (VPtr p)
  = let (pointee, r) :=
      setWithProperType ParseFloat (KindOf elem) val elem
        (default (zeroValue elem) p) in
    (VPtr (Some pointee), r).
Proof.
  cbn [setWithProperType unmarshalField unmarshalFieldPtr].
  replace (match p with Some v => v | None => zeroValue elem end)
    with (default (zeroValue elem) p) by (destruct p; reflexivity).
  destruct (unmarshalFieldNonPtr val elem (default (zeroValue elem) p))
    as [pointee' [err| |q]] eqn:E.
  - destruct (decide (KindOf elem = reflect.Ptr)) as [Hk|Hk].
    + destruct elem; try destruct w; try destruct k; try discriminate Hk.
      discriminate E.
    + rewrite (setWithProperType_handled _ _ _ _ _ Hk E). reflexivity.
  - apply unmarshalFieldNonPtr_NotHandled in E. destruct E as (-> & _ & _).
    reflexivity.
  - destruct (unmarshalFieldNonPtr_no_panic _ _ _ _ _ E).
Qed.

(** X3.  Coercing a string into a field of pointer kind is coercing it
    into what the pointer points to -- into a fresh zero value when the
    pointer is nil -- and leaves the pointer pointing to the result, also
    when the coercion fails. *)
Theorem setWithProperType_pointer val elem p :
  setWithProperType ParseFloat (KindOf (TPtr elem)) val (TPtr elem) (VPtr p)
  = (VPtr (Some
       (fst (setWithProperType ParseFloat (KindOf elem) val elem
               (default (zeroValue elem) p)))),
     snd (setWithProperType ParseFloat (KindOf elem) val elem
            (default (zeroValue elem) p))).
Proof.
  cbn [KindOf]. rewrite setWithProperType_through_pointer.
  destruct (setWithProperType ParseFloat (KindOf elem) val elem
              (default (zeroValue elem) p)).
  reflexivity.
Qed.

(** X4.  A settable field of pointer kind whose input is found is not
    nil after its round, whether the round ends in nil or in an error. *)
Theorem bindField_pointer_allocated recurse typeField elem p data tag name
    first rest :
  Exported typeField = true ->
  resolveName typeField (TPtr elem) tag = Some name ->
  lookupInput EqualFold data name = Some (first :: rest) ->
  exists pointee,
    fst (bindField ParseFloat EqualFold recurse typeField (TPtr elem) (VPtr p)
           data tag)
    = VPtr (Some pointee).
Proof.
  intros Hexp Hname Hlook.
  rewrite (bindField_matched _ _ _ _ _ _ _ _ _ _ Hexp Hname Hlook).
  unfold bindInput. cbn [KindOf unmarshalField unmarshalFieldPtr].
  destruct (unmarshalFieldNonPtr first elem _) as [pointee' [err| |q]] eqn:E.
  - eexists. reflexivity.
  - rewrite bool_decide_false by discriminate. cbn [andb].
    rewrite setWithProperType_through_pointer.
    destruct (setWithProperType ParseFloat (KindOf elem) first elem _).
    eexists. reflexivity.
  - destruct (unmarshalFieldNonPtr_no_panic _ _ _ _ _ E).
Qed.

(** *** Failed coercions *)

Lemma setWithProperType_failure_keeps ft val structField :
  KindOf ft <> reflect.Ptr ->
  UnmarshalParam (methodsOf ft) = None ->
  UnmarshalText (methodsOf ft) = None ->
  snd (setWithProperType ParseFloat (KindOf ft) val ft structField) <> Nil ->
  fst (setWithProperType ParseFloat (KindOf ft) val ft structField)
  = structField.
Proof.
  intros Hk Hp Ht.
  destruct ft as [| w ? | w ? | w ? | | | | | | | k ?];
    try destruct w; try destruct k;
    cbn [setWithProperType KindOf unmarshalField] in *;
    try congruence;
    rewrite (unmarshalFieldNonPtr_none _ _ _ Hp Ht);
    unfold setIntField, setUintField, setBoolField, setFloatField,
      SetInt, SetUint, SetBool, SetFloat, SetString;
    repeat match goal with
      | |- context [match ?x with _ => _ end] => destruct x
      end;
    simpl; congruence.
Qed.

(** X5.  A settable field that is no pointer and has no custom
    unmarshalling, and whose input is found: when its round does not end
    in nil -- a value that does not parse, an element of a slice that
    does not, a kind that cannot be set -- the field holds what it held
    before. *)
Theorem bindField_failure_keeps recurse typeField ft structField data tag
    name inputValue :
  Exported typeField = true ->
  resolveName typeField ft tag = Some name ->
  lookupInput EqualFold data name = Some inputValue ->
  KindOf ft <> reflect.Ptr ->
  UnmarshalParam (methodsOf ft) = None ->
  UnmarshalText (methodsOf ft) = None ->
  snd (bindField ParseFloat EqualFold recurse typeField ft structField data tag)
  <> Nil ->
  fst (bindField ParseFloat EqualFold recurse typeField ft structField data tag)
  = structField.
Proof.
  intros Hexp Hname Hlook Hk Hp Ht.
  rewrite (bindField_matched _ _ _ _ _ _ _ _ _ _ Hexp Hname Hlook).
  unfold bindInput. destruct inputValue as [|first rest]; [reflexivity|].
  rewrite unmarshalField_nonptr by assumption.
  rewrite (unmarshalFieldNonPtr_none _ _ _ Hp Ht).
  destruct (bool_decide (KindOf ft = reflect.Slice) && _).
  - destruct (Elem ft) as [elemT|]; [|reflexivity].
    destruct (setElems ParseFloat (KindOf elemT) elemT (first :: rest))
      as [slice [|e|q]]; simpl; congruence.
  - apply setWithProperType_failure_keeps; assumption.
Qed.

(** *** Integer fields *)

Lemma digit_bound c d : strconv.digit c = Some d -> 0 <= d <= 9.
Proof.
  unfold strconv.digit.
  destruct (48 <=? Z.of_N (N_of_ascii c)) eqn:H1; [|discriminate].
  destruct (Z.of_N (N_of_ascii c) <=? 57) eqn:H2; [|discriminate].
  simpl. intros [= <-]. apply Z.leb_le in H1, H2. lia.
Qed.

Lemma parseDigits_bound s :
  forall n maxVal r,
    0 <= n <= maxVal ->
    strconv.parseDigits s n maxVal = inl r -> n <= r <= maxVal.
Proof.
  induction s as [|c s IH]; intros n maxVal r Hn; simpl.
  - intros [= <-]. lia.
  - destruct (strconv.digit c) as [d|] eqn:Hd; [|discriminate].
    apply digit_bound in Hd.
    destruct (maxVal <? n * 10 + d) eqn:Hmax; [discriminate|].
    apply Z.ltb_ge in Hmax. intros Hr.
    apply IH in Hr; lia.
Qed.

Lemma parseUint_bound s bitSize r :
  0 <= strconv.bits bitSize ->
  strconv.parseUint s bitSize = inl r ->
  0 <= r <= 2 ^ strconv.bits bitSize - 1.
Proof.
  intros Hb. unfold strconv.parseUint.
  assert (0 < 2 ^ strconv.bits bitSize) by (apply Z.pow_pos_nonneg; lia).
  destruct s; [discriminate|].
  intros Hd. apply parseDigits_bound in Hd; lia.
Qed.

Lemma ParseUint_bound s bitSize r :
  0 <= strconv.bits bitSize ->
  strconv.ParseUint s bitSize = inl r ->
  0 <= r < 2 ^ strconv.bits bitSize.
Proof.
  intros Hb. unfold strconv.ParseUint.
  destruct (strconv.parseUint s bitSize) as [n|e] eqn:E; [|discriminate].
  intros [= <-]. apply parseUint_bound in E; lia.
Qed.

Lemma ParseInt_bound s bitSize r :
  1 <= strconv.bits bitSize ->
  strconv.ParseInt s bitSize = inl r ->
  - 2 ^ (strconv.bits bitSize - 1) <= r < 2 ^ (strconv.bits bitSize - 1).
Proof.
  intros Hb. unfold strconv.ParseInt.
  assert (0 < 2 ^ (strconv.bits bitSize - 1))
    by (apply Z.pow_pos_nonneg; lia).
  destruct s as [|c s]; [discriminate|].
  destruct (strconv.parseUint _ bitSize) as [un|e] eqn:E; [|discriminate].
  apply parseUint_bound in E; [|lia].
  destruct (Ascii.eqb c "-"); cbn [negb andb].
  - destruct (2 ^ (strconv.bits bitSize - 1) <? un) eqn:Hc; [discriminate|].
    apply Z.ltb_ge in Hc. intros [= <-]. lia.
  - destruct (2 ^ (strconv.bits bitSize - 1) <=? un) eqn:Hc; [discriminate|].
    apply Z.leb_gt in Hc. intros [= <-]. lia.
Qed.

Lemma wrapSigned_small b x :
  1 <= b -> - 2 ^ (b - 1) <= x < 2 ^ (b - 1) -> wrapSigned b x = x.
Proof.
  intros Hb Hx. unfold wrapSigned.
  assert (2 ^ b = 2 * 2 ^ (b - 1)).
  { replace b with (Z.succ (b - 1)) at 1 by lia. apply Z.pow_succ_r. lia. }
  rewrite Z.mod_small by lia. lia.
Qed.

Lemma wrapUnsigned_small b x : 0 <= x < 2 ^ b -> wrapUnsigned b x = x.
Proof. intros Hx. unfold wrapUnsigned. apply Z.mod_small. assumption. Qed.

(** X6.  An integer field without custom unmarshalling gets the number
    that [strconv] reads from the value at the width of the field (the
    empty value read as 0), as it is: the width asked of [strconv] is
    that of the field, so the number fits and nothing is cut off.  When
    [strconv] fails, its error is returned and the field is left. *)
Theorem setWithProperType_integer w d val structField :
  (UnmarshalParam (methodsOf (TInt w d)) = None ->
   UnmarshalText (methodsOf (TInt w d)) = None ->
   setWithProperType ParseFloat (KindOf (TInt w d)) val (TInt w d) structField
   = match strconv.ParseInt (if String.eqb val "" then "0" else val)
             (widthBits w) with
     | inl n => (VInt n, Nil)
     | inr err => (structField, Err err)
     end)
  /\ (UnmarshalParam (methodsOf (TUint w d)) = None ->
      UnmarshalText (methodsOf (TUint w d)) = None ->
      setWithProperType ParseFloat (KindOf (TUint w d)) val (TUint w d)
        structField
      = match strconv.ParseUint (if String.eqb val "" then "0" else val)
                (widthBits w) with
        | inl n => (VUint n, Nil)
        | inr err => (structField, Err err)
        end).
Proof.
  split; intros Hp Ht.
  - assert (Hset : setWithProperType ParseFloat (KindOf (TInt w d)) val
                     (TInt w d) structField
                   = setIntField val (widthBits w) (TInt w d) structField).
    { destruct w; cbn [setWithProperType KindOf unmarshalField];
        rewrite (unmarshalFieldNonPtr_none _ _ _ Hp Ht); reflexivity. }
    rewrite Hset. unfold setIntField, SetInt.
    destruct (strconv.ParseInt _ (widthBits w)) as [n|e] eqn:E; [|reflexivity].
    apply ParseInt_bound in E; [|destruct w; vm_compute; discriminate].
    rewrite wrapSigned_small; [reflexivity | destruct w; vm_compute; discriminate |].
    destruct w; exact E.
  - assert (Hset : setWithProperType ParseFloat (KindOf (TUint w d)) val
                     (TUint w d) structField
                   = setUintField val (widthBits w) (TUint w d) structField).
    { destruct w; cbn [setWithProperType KindOf unmarshalField];
        rewrite (unmarshalFieldNonPtr_none _ _ _ Hp Ht); reflexivity. }
    rewrite Hset. unfold setUintField, SetUint.
    destruct (strconv.ParseUint _ (widthBits w)) as [n|e] eqn:E; [|reflexivity].
    apply ParseUint_bound in E; [|destruct w; vm_compute; discriminate].
    rewrite wrapUnsigned_small; [reflexivity|].
    destruct w; exact E.
Qed.

(** *** Panics *)

Lemma zeroValue_hasShape t : hasShape t (zeroValue t) = true.
Proof.
  induction t as [| | | | | | | |fields d IH| |] using rtype_nested_ind;
    try reflexivity.
  cbn [zeroValue hasShape].
  induction IH as [|[typeField ft] fields Hft _ IHfields]; [reflexivity|].
  cbn [snd] in Hft. cbn [map shapeFields snd]. rewrite Hft.
  exact IHfields.
Qed.

Lemma setWithProperType_no_panic ft :
  forall val structField p,
    hasShape ft structField = true ->
    snd (setWithProperType ParseFloat (KindOf ft) val ft structField)
    <> Panic p.
Proof.
  induction ft as [| | | | |elem IH| | | | |] using rtype_nested_ind;
    intros val structField p Hshape.
  6: { destruct structField as [| | | | |q| | | | |]; try discriminate Hshape.
       cbn [KindOf]. rewrite setWithProperType_through_pointer.
       specialize (IH val (default (zeroValue elem) q) p).
       destruct (setWithProperType ParseFloat (KindOf elem) val elem _).
       apply IH. destruct q; [exact Hshape | apply zeroValue_hasShape]. }
  all: try destruct w; try destruct k;
    cbn [setWithProperType KindOf unmarshalField];
    (destruct (unmarshalFieldNonPtr val _ structField) as [v [err| |q]] eqn:E;
     [ destruct err; discriminate
     | apply unmarshalFieldNonPtr_NotHandled in E; destruct E as (-> & _ & _)
     | destruct (unmarshalFieldNonPtr_no_panic _ _ _ _ _ E) ]);
    unfold setIntField, setUintField, setBoolField, setFloatField,
      SetInt, SetUint, SetBool, SetFloat, SetString;
    repeat match goal with
      | |- context [match ?x with _ => _ end] => destruct x
      end;
    discriminate.
Qed.

Lemma setElems_no_panic elemT inputValue p :
  snd (setElems ParseFloat (KindOf elemT) elemT inputValue) <> Panic p.
Proof.
  induction inputValue as [|s rest IH]; simpl; [discriminate|].
  pose proof (setWithProperType_no_panic elemT s (zeroValue elemT) p
                (zeroValue_hasShape elemT)) as Hs.
  destruct (setWithProperType ParseFloat (KindOf elemT) s elemT
              (zeroValue elemT)) as [elem [|e|q]];
    simpl in Hs |- *; try assumption; try discriminate.
  destruct (setElems ParseFloat (KindOf elemT) elemT rest). exact IH.
Qed.

Lemma bindInput_no_panic ft structField inputValue p :
  hasShape ft structField = true ->
  inputValue <> [] ->
  snd (bindInput ParseFloat ft structField inputValue) <> Panic p.
Proof.
  intros Hshape Hne. unfold bindInput.
  destruct inputValue as [|first rest]; [congruence|].
  destruct (decide (KindOf ft = reflect.Ptr)) as [Hk|Hk].
  - destruct ft as [| w ? | w ? | w ? | |elem| | | | | k ?];
      try destruct w; try destruct k; try discriminate Hk.
    destruct structField as [| | | | |q| | | | |]; try discriminate Hshape.
    cbn [KindOf unmarshalField unmarshalFieldPtr].
    destruct (unmarshalFieldNonPtr first elem _) as [v [err| |q']] eqn:E.
    + destruct err; discriminate.
    + rewrite bool_decide_false by discriminate. cbn [andb].
      apply (setWithProperType_no_panic (TPtr elem)).
      apply unmarshalFieldNonPtr_NotHandled in E. destruct E as (-> & _ & _).
      cbn [hasShape]. destruct q; [exact Hshape | apply zeroValue_hasShape].
    + destruct (unmarshalFieldNonPtr_no_panic _ _ _ _ _ E).
  - rewrite unmarshalField_nonptr by assumption.
    destruct (unmarshalFieldNonPtr first ft structField) as [v [err| |q]] eqn:E.
    + destruct err; discriminate.
    + apply unmarshalFieldNonPtr_NotHandled in E. destruct E as (-> & _ & _).
      destruct (bool_decide (KindOf ft = reflect.Slice)) eqn:Hs; cbn [andb].
      * apply bool_decide_eq_true in Hs.
        destruct ft as [| w ? | w ? | w ? | | |elemT ?| | | | k ?];
          try destruct w; try destruct k; try discriminate Hs.
        cbn [Elem Nat.ltb Nat.leb length].
        pose proof (setElems_no_panic elemT (first :: rest) p) as He.
        destruct (setElems ParseFloat (KindOf elemT) elemT (first :: rest))
          as [slice [|e|q]]; simpl in He |- *; try discriminate; assumption.
      * apply setWithProperType_no_panic. assumption.
    + destruct (unmarshalFieldNonPtr_no_panic _ _ _ _ _ E).
Qed.

Lemma resolveName_None typeField ft tag :
  resolveName typeField ft tag = None -> KindOf ft = reflect.Struct.
Proof.
  unfold resolveName.
  destruct (String.eqb _ ""); [|discriminate].
  destruct (negb (isBindUnmarshaler ft)); [|discriminate].
  destruct (bool_decide (KindOf ft = reflect.Struct)) eqn:Hk; [|discriminate].
  intros _. apply bool_decide_eq_true in Hk. exact Hk.
Qed.

Lemma bindFields_no_panic bind data tag p fields :
  (forall k v, In (k, v) data -> v <> []) ->
  Forall (fun f => forall v,
            KindOf (snd f) = reflect.Struct ->
            hasShape (snd f) v = true ->
            snd (bind (snd f) v) <> Panic p) fields ->
  forall vals,
    shapeFields hasShape fields vals = true ->
    snd (bindFields ParseFloat EqualFold bind data tag fields vals) <> Panic p.
Proof.
  intros Hne Hall. induction Hall as [|[typeField ft] fields Hf _ IH];
    intros vals Hshape; destruct vals as [|structField vals];
    try discriminate Hshape; simpl; [discriminate|].
  cbn [shapeFields] in Hshape. apply andb_true_iff in Hshape.
  destruct Hshape as [Hfield Hrest].
  assert (Hround : snd (bindField ParseFloat EqualFold (bind ft) typeField ft
                          structField data tag) <> Panic p).
  { unfold bindField. destruct (negb (Exported typeField)); [discriminate|].
    destruct (resolveName typeField ft tag) as [name|] eqn:Hname.
    - destruct (lookupInput EqualFold data name) as [inputValue|] eqn:E;
        [|discriminate].
      apply bindInput_no_panic; [assumption|].
      destruct (lookupInput_In _ _ _ _ E) as [k Hk]. eapply Hne; eassumption.
    - apply Hf; [exact (resolveName_None _ _ _ Hname) | assumption]. }
  destruct (bindField ParseFloat EqualFold (bind ft) typeField ft structField
              data tag) as [structField' [|e|q]];
    simpl in Hround |- *; try assumption; try discriminate.
  specialize (IH vals Hrest).
  destruct (bindFields ParseFloat EqualFold bind data tag fields vals).
  exact IH.
Qed.

Lemma bindData_struct_safe typ :
  forall val data tag p,
    KindOf typ = reflect.Struct ->
    hasShape typ val = true ->
    (forall k v, In (k, v) data -> v <> []) ->
    snd (bindData ParseFloat EqualFold typ val data tag) <> Panic p.
Proof.
  induction typ as [| | | | | | | |fields d IH| |] using rtype_nested_ind;
    intros val data tag p Hk Hshape Hne;
    try destruct w; try destruct k; try discriminate Hk.
  destruct data as [|entry data']; cbn [bindData]; [discriminate|].
  destruct val as [| | | | | | | |vals| |]; try discriminate Hshape.
  cbn [hasShape] in Hshape.
  assert (Hf : snd (bindFields ParseFloat EqualFold
                      (fun ft v => bindData ParseFloat EqualFold ft v
                                     (entry :: data') tag)
                      (entry :: data') tag fields vals) <> Panic p).
  { apply bindFields_no_panic; [assumption| |assumption].
    eapply Forall_impl; [exact IH|].
    intros [typeField ft] Hft v Hkf Hsf. apply Hft; assumption. }
  destruct (bindFields _ _ _ _ _ fields vals). exact Hf.
Qed.

(** X7.  On a target of struct kind whose value is built like its type,
    and with a [data] whose value sequences are non-empty, [bindData]
    does not panic: it returns nil or an error. *)
Theorem bindData_struct_no_panic typ val data tag :
  KindOf typ = reflect.Struct ->
  hasShape typ val = true ->
  (forall k v, In (k, v) data -> v <> []) ->
  exists v' : value,
    bindData ParseFloat EqualFold typ val data tag = (v', Nil)
    \/ exists e, bindData ParseFloat EqualFold typ val data tag = (v', Err e).
Proof.
  intros Hk Hshape Hne.
  pose proof (fun p => bindData_struct_safe typ val data tag p Hk Hshape Hne)
    as Hno.
  destruct (bindData ParseFloat EqualFold typ val data tag) as [v' [|e|p]].
  - exists v'. left. reflexivity.
  - exists v'. right. exists e. reflexivity.
  - destruct (Hno p eq_refl).
Qed.

(** *** The shape of the target *)

Lemma unmarshalersKeepShape_own t :
  unmarshalersKeepShape t -> keepsShape t (methodsOf t).
Proof. destruct t; intros [H _]; exact H. Qed.

Lemma unmarshalFieldNonPtr_shape s t v :
  keepsShape t (methodsOf t) ->
  hasShape t v = true ->
  hasShape t (fst (unmarshalFieldNonPtr s t v)) = true.
Proof.
  intros [Hp Ht] Hv. unfold unmarshalFieldNonPtr.
  destruct (UnmarshalParam (methodsOf t)) as [f|] eqn:Ef.
  - specialize (Hp f s v eq_refl Hv). destruct (f s v). exact Hp.
  - destruct (UnmarshalText (methodsOf t)) as [g|] eqn:Eg; [|exact Hv].
    specialize (Ht g (list_byte_of_string s) v eq_refl Hv).
    destruct (g _ v). exact Ht.
Qed.

Lemma setWithProperType_shape ft :
  forall s v,
    unmarshalersKeepShape ft ->
    hasShape ft v = true ->
    hasShape ft (fst (setWithProperType ParseFloat (KindOf ft) s ft v)) = true.
Proof.
  induction ft as [| | | | |elem IH| | | | |] using rtype_nested_ind;
    intros s v Hms Hv.
  6: { destruct v as [| | | | |q| | | | |]; try discriminate Hv.
       cbn [KindOf]. rewrite setWithProperType_through_pointer.
       destruct Hms as [_ Hms].
       specialize (IH s (default (zeroValue elem) q) Hms).
       destruct (setWithProperType ParseFloat (KindOf elem) s elem _).
       cbn [hasShape fst] in *. apply IH.
       destruct q; [exact Hv | apply zeroValue_hasShape]. }
  all: destruct Hms as [Hms _];
    pose proof (unmarshalFieldNonPtr_shape s _ v Hms Hv) as Hu;
    try destruct w; try destruct k;
    cbn [setWithProperType KindOf unmarshalField];
    (destruct (unmarshalFieldNonPtr s _ v) as [v' [err| |q]] eqn:E;
     [ exact Hu
     | apply unmarshalFieldNonPtr_NotHandled in E; destruct E as (-> & _ & _)
     | destruct (unmarshalFieldNonPtr_no_panic _ _ _ _ _ E) ]);
    unfold setIntField, setUintField, setBoolField, setFloatField,
      SetInt, SetUint, SetBool, SetFloat, SetString;
    repeat match goal with
      | |- context [match ?x with _ => _ end] => destruct x
      end;
    first [exact Hv | reflexivity].
Qed.

Lemma bindInput_shape ft structField inputValue :
  unmarshalersKeepShape ft ->
  hasShape ft structField = true ->
  hasShape ft (fst (bindInput ParseFloat ft structField inputValue)) = true.
Proof.
  intros Hms Hv. unfold bindInput.
  destruct inputValue as [|first rest]; [exact Hv|].
  destruct (decide (KindOf ft = reflect.Ptr)) as [Hk|Hk].
  - destruct ft as [| w ? | w ? | w ? | |elem| | | | | k ?];
      try destruct w; try destruct k; try discriminate Hk.
    destruct structField as [| | | | |q| | | | |]; try discriminate Hv.
    cbn [KindOf unmarshalField unmarshalFieldPtr].
    assert (Hq : hasShape elem (default (zeroValue elem) q) = true)
      by (destruct q; [exact Hv | apply zeroValue_hasShape]).
    replace (match q with Some v => v | None => zeroValue elem end)
      with (default (zeroValue elem) q) by (destruct q; reflexivity).
    pose proof (unmarshalFieldNonPtr_shape first elem _
                  (unmarshalersKeepShape_own _ (proj2 Hms)) Hq) as Hu.
    destruct (unmarshalFieldNonPtr first elem _) as [v' [err| |q']] eqn:E;
      cbn [fst] in Hu.
    + exact Hu.
    + rewrite bool_decide_false by discriminate. cbn [andb].
      apply (setWithProperType_shape (TPtr elem)); assumption.
    + exact Hu.
  - rewrite unmarshalField_nonptr by assumption.
    pose proof (unmarshalFieldNonPtr_shape first ft structField
                  (unmarshalersKeepShape_own _ Hms) Hv) as Hu.
    destruct (unmarshalFieldNonPtr first ft structField) as [v' [err| |q]] eqn:E;
      cbn [fst] in Hu; try exact Hu.
    apply unmarshalFieldNonPtr_NotHandled in E. destruct E as (-> & _ & _).
    destruct (bool_decide (KindOf ft = reflect.Slice)) eqn:Hs; cbn [andb].
    + apply bool_decide_eq_true in Hs.
      destruct ft as [| w ? | w ? | w ? | | |elemT ?| | | | k ?];
        try destruct w; try destruct k; try discriminate Hs.
      cbn [Elem Nat.ltb Nat.leb length].
      destruct (setElems ParseFloat (KindOf elemT) elemT (first :: rest))
        as [slice [|e|q]]; first [reflexivity | exact Hv].
    + apply setWithProperType_shape; assumption.
Qed.

Lemma bindFields_shape bind data tag fields :
  Forall (fun f => forall v,
            unmarshalersKeepShape (snd f) ->
            hasShape (snd f) v = true ->
            hasShape (snd f) (fst (bind (snd f) v)) = true) fields ->
  allFields unmarshalersKeepShape fields ->
  forall vals,
    shapeFields hasShape fields vals = true ->
    shapeFields hasShape fields
      (fst (bindFields ParseFloat EqualFold bind data tag fields vals)) = true.
Proof.
  intros Hall. induction Hall as [|[typeField ft] fields Hf _ IH];
    intros Hms vals Hshape; destruct vals as [|structField vals];
    try discriminate Hshape; simpl; [reflexivity|].
  cbn [shapeFields] in Hshape. apply andb_true_iff in Hshape.
  destruct Hshape as [Hfield Hrest]. destruct Hms as [Hmf Hms].
  assert (Hround : hasShape ft
                     (fst (bindField ParseFloat EqualFold (bind ft) typeField
                             ft structField data tag)) = true).
  { unfold bindField. destruct (negb (Exported typeField)); [exact Hfield|].
    destruct (resolveName typeField ft tag) as [name|].
    - destruct (lookupInput EqualFold data name) as [inputValue|];
        [|exact Hfield].
      apply bindInput_shape; assumption.
    - apply Hf; assumption. }
  destruct (bindField ParseFloat EqualFold (bind ft) typeField ft structField
              data tag) as [structField' [|e|q]]; cbn [fst] in Hround.
  - specialize (IH Hms vals Hrest).
    destruct (bindFields ParseFloat EqualFold bind data tag fields vals).
    cbn [fst shapeFields] in *. rewrite Hround. exact IH.
  - cbn [fst shapeFields]. rewrite Hround. exact Hrest.
  - cbn [fst shapeFields]. rewrite Hround. exact Hrest.
Qed.

Lemma bindData_shape typ :
  forall val data tag,
    unmarshalersKeepShape typ ->
    hasShape typ val = true ->
    hasShape typ (fst (bindData ParseFloat EqualFold typ val data tag)) = true.
Proof.
  induction typ as [| | | | | | | |fields d IH| |] using rtype_nested_ind;
    intros val data tag Hms Hv;
    destruct data as [|entry data']; cbn [bindData]; try exact Hv.
  - destruct val; try exact Hv.
    destruct (bindMapEntries typ1 typ2 (entry :: data') m). reflexivity.
  - destruct val as [| | | | | | | |vals| |]; try discriminate Hv.
    destruct Hms as [_ Hms]. cbn [hasShape] in Hv.
    pose proof (bindFields_shape
                  (fun ft v => bindData ParseFloat EqualFold ft v
                                 (entry :: data') tag)
                  (entry :: data') tag fields) as Hf.
    destruct (bindFields _ _ _ _ _ fields vals) as [vals' r] eqn:E.
    cbn [fst hasShape]. specialize (Hf ltac:(
      eapply Forall_impl; [exact IH|];
      intros [typeField ft] Hft v Hm Hs; apply Hft; assumption) Hms vals Hv).
    rewrite E in Hf. exact Hf.
Qed.

(** X14.  When the custom unmarshallers of the types of a target leave
    values built like their types, so does [bindData]: whatever [data]
    is and however the call ends, a target that was built like its type
    still is. *)
Theorem bindData_keeps_shape typ val data tag :
  unmarshalersKeepShape typ ->
  hasShape typ val = true ->
  hasShape typ (fst (bindData ParseFloat EqualFold typ val data tag)) = true.
Proof. apply bindData_shape. Qed.

(** *** The order of the iteration over [data] *)

Lemma mapIndex_Some_In data name v :
  mapIndex data name = Some v -> In (name, v) data.
Proof.
  induction data as [|[k v'] data IH]; simpl; [discriminate|].
  destruct (String.eqb_spec k name) as [->|Hk].
  - intros [= ->]. left. reflexivity.
  - intros H. right. auto.
Qed.

Lemma mapIndex_None_In data name :
  mapIndex data name = None -> forall v, ~ In (name, v) data.
Proof.
  induction data as [|[k v'] data IH]; simpl; [intros _ v []|].
  destruct (String.eqb_spec k name) as [->|Hk]; [discriminate|].
  intros H v [Heq|Hin]; [congruence|]. exact (IH H v Hin).
Qed.

Lemma keys_In (data : SourceMap) k v : In (k, v) data -> In k (map fst data).
Proof. intros H. apply (in_map fst) in H. exact H. Qed.

Lemma NoDup_keys_unique (data : SourceMap) k v1 v2 :
  NoDup (map fst data) -> In (k, v1) data -> In (k, v2) data -> v1 = v2.
Proof.
  induction data as [|[k' v'] data IH]; simpl; [intros _ []|].
  rewrite NoDup_cons. intros [Hk' Hnd] [H1|H1] [H2|H2].
  - congruence.
  - injection H1 as -> _. destruct Hk'. apply list_elem_of_In.
    eapply keys_In; eassumption.
  - injection H2 as -> _. destruct Hk'. apply list_elem_of_In.
    eapply keys_In; eassumption.
  - auto.
Qed.

Lemma mapIndex_NoDup data name v :
  NoDup (map fst data) -> In (name, v) data -> mapIndex data name = Some v.
Proof.
  intros Hnd Hin. destruct (mapIndex data name) as [v'|] eqn:E.
  - f_equal.
    exact (NoDup_keys_unique data name v' v Hnd (mapIndex_Some_In _ _ _ E) Hin).
  - destruct (mapIndex_None_In _ _ E v Hin).
Qed.

Lemma mapIndexFold_Some data name v :
  mapIndexFold EqualFold data name = Some v ->
  exists k, In (k, v) data /\ EqualFold k name = true.
Proof.
  induction data as [|[k v'] data IH]; simpl; [discriminate|].
  destruct (EqualFold k name) eqn:Hk.
  - intros [= ->]. exists k. auto.
  - intros H. destruct (IH H) as (k' & Hin & Hk'). exists k'. auto.
Qed.

Lemma mapIndexFold_None data name :
  mapIndexFold EqualFold data name = None ->
  forall k v, In (k, v) data -> EqualFold k name = false.
Proof.
  induction data as [|[k v'] data IH]; simpl; [intros _ k v []|].
  destruct (EqualFold k name) eqn:Hk; [discriminate|].
  intros H k' v [[= <- _]|Hin]; [exact Hk | eauto].
Qed.

(** X8.  The input found for a name does not depend on the order in
    which the keys of [data] come, as long as the name is a key of
    [data] or at most one key equals it up to case.  (With two such
    keys and no exact one, the first in the iteration wins.) *)
Theorem lookupInput_order_independent data data' name :
  Permutation data data' ->
  NoDup (map fst data) ->
  (mapIndex data name = None ->
   forall k1 v1 k2 v2,
     In (k1, v1) data -> In (k2, v2) data ->
     EqualFold k1 name = true -> EqualFold k2 name = true -> k1 = k2) ->
  lookupInput EqualFold data' name = lookupInput EqualFold data name.
Proof.
  intros Hperm Hnd Hone.
  assert (Hnd' : NoDup (map fst data')).
  { eapply NoDup_Permutation_proper; [|exact Hnd].
    apply Permutation_map. symmetry. exact Hperm. }
  assert (Hix : mapIndex data' name = mapIndex data name).
  { destruct (mapIndex data name) as [v|] eqn:E.
    - apply mapIndex_NoDup; [assumption|].
      eapply Permutation_in; [exact Hperm|]. apply mapIndex_Some_In. exact E.
    - destruct (mapIndex data' name) as [v|] eqn:E'; [|reflexivity].
      apply mapIndex_Some_In in E'.
      destruct (mapIndex_None_In _ _ E v).
      eapply Permutation_in; [symmetry; exact Hperm | exact E']. }
  unfold lookupInput. rewrite Hix.
  destruct (mapIndex data name) as [v|] eqn:E; [reflexivity|].
  specialize (Hone eq_refl).
  destruct (mapIndexFold EqualFold data name) as [v|] eqn:Ef.
  - destruct (mapIndexFold_Some _ _ _ Ef) as (k & Hin & Hk).
    destruct (mapIndexFold EqualFold data' name) as [v'|] eqn:Ef'.
    + destruct (mapIndexFold_Some _ _ _ Ef') as (k' & Hin' & Hk').
      apply (Permutation_in _ (Permutation_sym Hperm)) in Hin'.
      assert (k' = k) by (eapply Hone; eassumption). subst k'.
      f_equal. exact (NoDup_keys_unique data k v' v Hnd Hin' Hin).
    + apply (Permutation_in _ Hperm) in Hin.
      rewrite (mapIndexFold_None _ _ Ef' _ _ Hin) in Hk. discriminate.
  - apply mapIndexFold_none. intros k v Hin.
    apply (Permutation_in _ (Permutation_sym Hperm)) in Hin.
    exact (mapIndexFold_None _ _ Ef _ _ Hin).
Qed.

Lemma NoDup_keys_split (pre post : SourceMap) k v :
  NoDup (map fst (pre ++ (k, v) :: post)) -> forall v', ~ In (k, v') post.
Proof.
  rewrite map_app. cbn [map fst]. intros Hnd v' Hin.
  apply NoDup_app in Hnd. destruct Hnd as (_ & _ & Hnd).
  apply NoDup_cons in Hnd. destruct Hnd as [Hk _].
  apply Hk. apply list_elem_of_In. eapply keys_In; eassumption.
Qed.

Lemma bindMapEntries_lookup key elem entries (m m' : gmap string value) :
  NoDup (map fst entries) ->
  (forall k v, In (k, v) entries -> v <> []) ->
  bindMapEntries key elem entries (Some m) = (Some m', Nil) ->
  (forall pre k first rest post,
      entries = pre ++ (k, first :: rest) :: post ->
      (forall v, ~ In (k, v) post) ->
      m' !! k = Some (VString first)) ->
  (forall k, (forall v, ~ In (k, v) entries) -> m' !! k = m !! k) ->
  forall k,
    m' !! k = match mapIndex entries k with
              | Some (first :: _) => Some (VString first)
              | _ => m !! k
              end.
Proof.
  intros Hnd Hne _ Hlast Hother k.
  destruct (mapIndex entries k) as [v|] eqn:E.
  - apply mapIndex_Some_In in E.
    destruct v as [|first rest]; [destruct (Hne _ _ E eq_refl)|].
    destruct (in_split _ _ E) as (pre & post & ->).
    eapply Hlast; [reflexivity|]. eapply NoDup_keys_split; eassumption.
  - apply Hother. apply mapIndex_None_In. assumption.
Qed.

(** X9.  On a non-nil map whose key and element types take a string,
    and with non-empty value sequences, what [bindData] leaves in the
    map does not depend on the order in which the entries of [data]
    come. *)
Theorem bindData_map_order_independent key elem d (m : gmap string value)
    data data' tag :
  assignableString key = true ->
  assignableString elem = true ->
  (forall k v, In (k, v) data -> v <> []) ->
  NoDup (map fst data) ->
  Permutation data data' ->
  bindData ParseFloat EqualFold (TMap key elem d) (VMap (Some m)) data' tag
  = bindData ParseFloat EqualFold (TMap key elem d) (VMap (Some m)) data tag.
Proof.
  intros Hkey Helem Hne Hnd Hperm.
  assert (Hnd' : NoDup (map fst data')).
  { eapply NoDup_Permutation_proper; [|exact Hnd].
    apply Permutation_map. symmetry. exact Hperm. }
  assert (Hne' : forall k v, In (k, v) data' -> v <> []).
  { intros k v Hin. eapply Hne.
    eapply Permutation_in; [symmetry; exact Hperm | exact Hin]. }
  destruct (bindMapEntries_sets key elem Hkey Helem data m Hne)
    as (m1 & Hrun1 & Hlast1 & Hother1).
  destruct (bindMapEntries_sets key elem Hkey Helem data' m Hne')
    as (m2 & Hrun2 & Hlast2 & Hother2).
  assert (Heq : m2 = m1).
  { apply map_eq. intros k.
    rewrite (bindMapEntries_lookup _ _ _ _ _ Hnd Hne Hrun1 Hlast1 Hother1 k).
    rewrite (bindMapEntries_lookup _ _ _ _ _ Hnd' Hne' Hrun2 Hlast2 Hother2 k).
    replace (mapIndex data' k) with (mapIndex data k); [reflexivity|].
    destruct (mapIndex data k) as [v|] eqn:E.
    - symmetry. apply mapIndex_NoDup; [assumption|].
      eapply Permutation_in; [exact Hperm|]. apply mapIndex_Some_In. exact E.
    - destruct (mapIndex data' k) as [v|] eqn:E'; [|reflexivity].
      apply mapIndex_Some_In in E'.
      destruct (mapIndex_None_In _ _ E v).
      eapply Permutation_in; [symmetry; exact Hperm | exact E']. }
  destruct data as [|entry data1]; destruct data' as [|entry' data1'].
  - reflexivity.
  - apply Permutation_nil in Hperm. discriminate.
  - symmetry in Hperm. apply Permutation_nil in Hperm. discriminate.
  - cbn [bindData]. rewrite Hrun1, Hrun2, Heq. reflexivity.
Qed.

(** *** The map of the path parameters *)

Lemma mapIndex_mapAssign params name v k :
  mapIndex (mapAssign params name v) k
  = if String.eqb name k then Some v else mapIndex params k.
Proof.
  induction params as [|[k' v'] params IH]; simpl.
  - reflexivity.
  - destruct (String.eqb_spec k' name) as [->|Hk']; simpl.
    + destruct (String.eqb name k); reflexivity.
    + rewrite IH. destruct (String.eqb_spec name k) as [->|Hk].
      * destruct (String.eqb_spec k' k); [contradiction | reflexivity].
      * reflexivity.
Qed.

Lemma mapAssign_In params name v k w :
  In (k, w) (mapAssign params name v) ->
  (k = name /\ w = v) \/ In (k, w) params.
Proof.
  induction params as [|[k' v'] params IH]; simpl.
  - intros [[= <- <-]|[]]. auto.
  - destruct (String.eqb_spec k' name) as [->|Hk']; simpl.
    + intros [[= <- <-]|H]; auto.
    + intros [H|H]; [auto|]. destruct (IH H); auto.
Qed.

Lemma mapAssign_keys params name v k :
  In k (map fst (mapAssign params name v)) ->
  k = name \/ In k (map fst params).
Proof.
  intros H. apply in_map_iff in H. destruct H as ([k' w] & <- & H).
  apply mapAssign_In in H. destruct H as [[-> _]|H]; [auto|].
  right. eapply keys_In; eassumption.
Qed.

Lemma mapAssign_NoDup params name v :
  NoDup (map fst params) -> NoDup (map fst (mapAssign params name v)).
Proof.
  induction params as [|[k' v'] params IH]; simpl.
  - intros _. apply NoDup_singleton.
  - rewrite NoDup_cons. intros [Hk' Hnd].
    destruct (String.eqb_spec k' name) as [->|Hne]; simpl.
    + apply NoDup_cons. auto.
    + apply NoDup_cons. split; [|auto].
      rewrite list_elem_of_In. intros Hin.
      apply mapAssign_keys in Hin. destruct Hin as [->|Hin]; [congruence|].
      apply Hk'. apply list_elem_of_In. exact Hin.
Qed.

Lemma pathParams_spec_from values names :
  forall i acc params,
    pathParams names values i acc = Some params ->
    (forall j name x,
        names !! j = Some name ->
        values !! (i + j)%nat = Some x ->
        (forall j', (j < j')%nat -> names !! j' <> Some name) ->
        mapIndex params name = Some [x])
    /\ (forall name, ~ In name names ->
        mapIndex params name = mapIndex acc name)
    /\ (NoDup (map fst acc) -> NoDup (map fst params))
    /\ ((forall k v, In (k, v) acc -> exists x, v = [x]) ->
        forall k v, In (k, v) params -> exists x, v = [x]).
Proof.
  induction names as [|name0 names IH]; intros i acc params H; simpl in H.
  - injection H as <-. repeat split; auto.
    intros j name x Hj. destruct j; discriminate Hj.
  - destruct (values !! i) as [v0|] eqn:Hv0; [|discriminate].
    destruct (IH _ _ _ H) as (Hlast & Hother & Hnd & Hone).
    split; [|split; [|split]].
    + intros [|j] name x Hj Hx Hlater; simpl in Hj.
      * injection Hj as ->. rewrite Nat.add_0_r, Hv0 in Hx.
        injection Hx as ->.
        rewrite Hother, mapIndex_mapAssign, String.eqb_refl; [reflexivity|].
        intros Hin. apply list_elem_of_In, list_elem_of_lookup in Hin.
        destruct Hin as [j Hj]. apply (Hlater (S j)); [lia | exact Hj].
      * apply (Hlast j name x Hj).
        -- rewrite <- Hx. f_equal. lia.
        -- intros j' Hlt. apply (Hlater (S j')). lia.
    + intros name Hnot. rewrite Hother by (intros Hin; apply Hnot; right; exact Hin).
      rewrite mapIndex_mapAssign.
      destruct (String.eqb_spec name0 name) as [->|]; [|reflexivity].
      destruct Hnot. left. reflexivity.
    + intros Hacc. apply Hnd. apply mapAssign_NoDup. exact Hacc.
    + intros Hacc. apply Hone. intros k v Hin.
      apply mapAssign_In in Hin. destruct Hin as [[_ ->]|Hin]; eauto.
Qed.

Lemma pathParams_defined values names :
  forall i acc,
    (i + length names <= length values)%nat ->
    exists params, pathParams names values i acc = Some params.
Proof.
  induction names as [|name0 names IH]; intros i acc Hlen; simpl in *.
  - eauto.
  - destruct (lookup_lt_is_Some_2 values i ltac:(lia)) as [v0 Hv0].
    rewrite Hv0. apply IH. lia.
Qed.

Lemma pathParams_undefined values names :
  forall i acc,
    (i <= length values)%nat ->
    (length values < i + length names)%nat ->
    pathParams names values i acc = None.
Proof.
  induction names as [|name0 names IH]; intros i acc Hi Hlen; simpl in *.
  - lia.
  - destruct (values !! i) as [v0|] eqn:Hv0; [|reflexivity].
    apply lookup_lt_Some in Hv0. apply IH; lia.
Qed.

(** X10.  The map that [Bind] builds from the names and values of the
    path parameters.  With a value for every name it has the names as
    its keys, each once, each with a single value: the value of the last
    parameter of that name.  With fewer values than names, [values[i]]
    is out of range. *)
Theorem pathParams_spec names values :
  ((length names <= length values)%nat ->
   exists params,
     pathParams names values 0 [] = Some params
     /\ NoDup (map fst params)
     /\ (forall k v, In (k, v) params -> exists x, v = [x])
     /\ (forall j name x,
           names !! j = Some name ->
           values !! j = Some x ->
           (forall j', (j < j')%nat -> names !! j' <> Some name) ->
           mapIndex params name = Some [x])
     /\ (forall name, ~ In name names -> mapIndex params name = None))
  /\ ((length values < length names)%nat ->
      pathParams names values 0 [] = None).
Proof.
  split.
  - intros Hlen.
    destruct (pathParams_defined values names 0 [] ltac:(simpl; lia))
      as [params Hp].
    exists params. split; [exact Hp|].
    destruct (pathParams_spec_from _ _ _ _ _ Hp) as (Hlast & Hother & Hnd & Hone).
    split; [apply Hnd; apply NoDup_nil_2|].
    split; [apply Hone; intros k v []|].
    split; [exact Hlast | exact Hother].
  - intros Hlen. apply pathParams_undefined; simpl; lia.
Qed.

(** *** The content router *)

Variable ErrorText : error -> string.
Variable jsonUnmarshal :
  string -> option (rtype * value) -> option (rtype * value) * option JSONError.
Variable xmlUnmarshal :
  string -> option (rtype * value) -> option (rtype * value) * option XMLError.


Lemma bindDataPtr_empty ptr tag :
  bindDataPtr ParseFloat EqualFold ptr [] tag = (ptr, Nil).
Proof.
  destruct ptr as [[t v]|]; [|reflexivity].
  destruct t; try reflexivity.
  destruct v as [| | | | |[pointee|]| | | | |]; reflexivity.
Qed.

(** X12.  For a request without a body ([ContentLength] not above 0):
    when the target is not nil and is no struct behind its pointers, or
    when the target is not nil and there are neither query nor path
    parameters, [Bind] returns nil and the target is as it was; nothing
    is read of the body, whatever its type.  On the nil target [Bind]
    does not return: [typ.Kind()] is a nil dereference, whatever the
    parameters. *)
Theorem Bind_nothing_to_bind c :
  ContentLength c <= 0 ->
  (forall t v,
      KindOf (derefType t) <> reflect.Struct
      \/ (QueryParams c = [] /\ ParamNames c = []) ->
      Bind ParseFloat EqualFold ErrorText jsonUnmarshal xmlUnmarshal
        (Some (t, v)) c
      = (Some (t, v), Nil))
  /\ Bind ParseFloat EqualFold ErrorText jsonUnmarshal xmlUnmarshal None c
     = (None, Panic NilDereference).
Proof.
  intros Hlen. unfold Bind.
  destruct (0 <? ContentLength c) eqn:E; [apply Z.ltb_lt in E; lia|].
  split; [|reflexivity].
  intros t v Hcase. unfold bindQueryAndParams.
  destruct Hcase as [Hk|[Hq Hn]].
  - rewrite bool_decide_false by assumption. reflexivity.
  - destruct (bool_decide _); [|reflexivity].
    rewrite Hq, Hn, bindDataPtr_empty. cbn [pathParams].
    rewrite bindDataPtr_empty. reflexivity.
Qed.

(** X13.  A target that is a pointer to a pointer to a struct passes the
    test of [Bind] for a struct, but not that of [bindData]: for a
    request without a body and with a query, [Bind] returns the status
    400 with "binding element must be a struct" and leaves the target as
    it was. *)
Theorem Bind_pointer_to_pointer elem val c :
  ContentLength c <= 0 ->
  KindOf (derefType elem) = reflect.Struct ->
  QueryParams c <> [] ->
  Bind ParseFloat EqualFold ErrorText jsonUnmarshal xmlUnmarshal
    (Some (TPtr (TPtr elem), VPtr (Some val))) c
  = (Some (TPtr (TPtr elem), VPtr (Some val)),
     Err (HTTPError echo.StatusBadRequest
            (ErrorText (errorString "binding element must be a struct"))
            (Some (errorString "binding element must be a struct")))).
Proof.
  intros Hlen Hk Hq. unfold Bind.
  destruct (0 <? ContentLength c) eqn:E; [apply Z.ltb_lt in E; lia|].
  unfold bindQueryAndParams. cbn [derefType].
  rewrite bool_decide_true by assumption.
  destruct (QueryParams c) as [|entry query]; [congruence|].
  reflexivity.
Qed.

(** X20.  A body without a content type is decoded as JSON: for a
    request with a body that can be read and an empty [Content-Type],
    [Bind] goes on to the query and path parameters with what
    [json.Unmarshal] left when that succeeds, and returns the status 400
    with the decoder's error as its cause when it fails; the form is not
    looked at. *)
Theorem Bind_default_content_type i c body :
  0 < ContentLength c ->
  ReadBody c = inl body ->
  HeaderContentType c = "" ->
  (forall i',
      jsonUnmarshal body i = (i', None) ->
      Bind ParseFloat EqualFold ErrorText jsonUnmarshal xmlUnmarshal i c
      = bindQueryAndParams ParseFloat EqualFold ErrorText i' c)
  /\ (forall i' e,
        jsonUnmarshal body i = (i', Some e) ->
        exists message,
          Bind ParseFloat EqualFold ErrorText jsonUnmarshal xmlUnmarshal i c
          = (i', Err (HTTPError echo.StatusBadRequest message
                        (Some (jsonError e))))).
Proof.
  intros Hlen Hbody Hctype. apply Z.ltb_lt in Hlen.
  unfold Bind, bindBody, contentType. rewrite Hlen, Hbody, Hctype.
  cbn [String.length Nat.leb strings.HasPrefix].
  change (String.prefix echo.MIMEApplicationJSON echo.MIMEApplicationJSON)
    with true. cbv iota.
  split.
  - intros i' ->. reflexivity.
  - intros i' e ->. unfold badRequest, echo.NewHTTPError.
    destruct e; eexists; reflexivity.
Qed.

Lemma bindDataPtr_safe typ val data tag :
  KindOf typ = reflect.Struct ->
  unmarshalersKeepShape typ ->
  hasShape typ val = true ->
  (forall k v, In (k, v) data -> v <> []) ->
  exists val',
    fst (bindDataPtr ParseFloat EqualFold
           (Some (TPtr typ, VPtr (Some val))) data tag)
    = Some (TPtr typ, VPtr (Some val'))
    /\ hasShape typ val' = true
    /\ forall p,
        snd (bindDataPtr ParseFloat EqualFold
               (Some (TPtr typ, VPtr (Some val))) data tag) <> Panic p.
Proof.
  intros Hk Hms Hv Hne.
  destruct data as [|entry data'].
  - exists val. repeat split; [assumption | discriminate].
  - cbn [bindDataPtr].
    pose proof (bindData_shape typ val (entry :: data') tag Hms Hv) as Hs.
    pose proof (fun p => bindData_struct_safe typ val (entry :: data') tag p
                           Hk Hv Hne) as Hp.
    destruct (bindData ParseFloat EqualFold typ val (entry :: data') tag)
      as [val' r].
    exists val'. repeat split; assumption.
Qed.

(** X15.  [Bind] on a pointer to a struct does not panic -- it returns
    nil or an error and leaves a pointer to a struct built like its type
    -- when the struct was built like its type, its custom unmarshallers
    and the two decoders leave it so, the value sequences of the form
    and of the query are non-empty, and every path parameter name has a
    value. *)
Theorem Bind_struct_no_panic typ val c :
  KindOf typ = reflect.Struct ->
  hasShape typ val = true ->
  unmarshalersKeepShape typ ->
  (forall body val0,
      hasShape typ val0 = true ->
      exists val1,
        fst (jsonUnmarshal body (Some (TPtr typ, VPtr (Some val0))))
        = Some (TPtr typ, VPtr (Some val1))
        /\ hasShape typ val1 = true) ->
  (forall body val0,
      hasShape typ val0 = true ->
      exists val1,
        fst (xmlUnmarshal body (Some (TPtr typ, VPtr (Some val0))))
        = Some (TPtr typ, VPtr (Some val1))
        /\ hasShape typ val1 = true) ->
  (forall params k v, FormParams c = inl params -> In (k, v) params -> v <> []) ->
  (forall k v, In (k, v) (QueryParams c) -> v <> []) ->
  (length (ParamNames c) <= length (ParamValues c))%nat ->
  exists val',
    fst (Bind ParseFloat EqualFold ErrorText jsonUnmarshal xmlUnmarshal
           (Some (TPtr typ, VPtr (Some val))) c)
    = Some (TPtr typ, VPtr (Some val'))
    /\ hasShape typ val' = true
    /\ forall p,
        snd (Bind ParseFloat EqualFold ErrorText jsonUnmarshal xmlUnmarshal
               (Some (TPtr typ, VPtr (Some val))) c) <> Panic p.
Proof.
  intros Hk Hv Hms Hjson Hxml Hform Hquery Hlen.
  assert (Hq : forall val0,
            hasShape typ val0 = true ->
            exists val',
              fst (bindQueryAndParams ParseFloat EqualFold ErrorText
                     (Some (TPtr typ, VPtr (Some val0))) c)
              = Some (TPtr typ, VPtr (Some val'))
              /\ hasShape typ val' = true
              /\ forall p,
                  snd (bindQueryAndParams ParseFloat EqualFold ErrorText
                         (Some (TPtr typ, VPtr (Some val0))) c) <> Panic p).
  { intros val0 Hv0. unfold bindQueryAndParams. cbn [derefType].
    destruct (bool_decide _);
      [|exists val0; repeat split; [assumption | discriminate]].
    destruct (bindDataPtr_safe typ val0 (QueryParams c) "query" Hk Hms Hv0
                Hquery) as (val1 & Hfst & Hv1 & Hp).
    destruct (bindDataPtr _ _ _ (QueryParams c) "query") as [j [|e|p]];
      cbn [fst snd] in Hfst, Hp; subst j.
    - destruct (pathParams_defined (ParamValues c) (ParamNames c) 0 []
                  ltac:(simpl; lia)) as [params Hparams].
      rewrite Hparams.
      destruct (pathParams_spec_from _ _ _ _ _ Hparams) as (_ & _ & _ & Hone).
      assert (Hne : forall k v, In (k, v) params -> v <> []).
      { intros k v Hin. destruct (Hone ltac:(intros ? ? []) k v Hin) as [x ->].
        discriminate. }
      destruct (bindDataPtr_safe typ val1 params "param" Hk Hms Hv1 Hne)
        as (val2 & Hfst2 & Hv2 & Hp2).
      destruct (bindDataPtr _ _ _ params "param") as [j [|e|p]];
        cbn [fst snd] in Hfst2, Hp2; subst j.
      + exists val2. repeat split; [assumption | discriminate].
      + exists val2. repeat split; [assumption | discriminate].
      + destruct (Hp2 p eq_refl).
    - exists val1. repeat split; [assumption | discriminate].
    - destruct (Hp p eq_refl). }
  unfold Bind. destruct (0 <? ContentLength c); [|apply Hq; assumption].
  assert (Hb : exists val1,
            fst (bindBody ParseFloat EqualFold ErrorText jsonUnmarshal
                   xmlUnmarshal (Some (TPtr typ, VPtr (Some val))) c)
            = Some (TPtr typ, VPtr (Some val1))
            /\ hasShape typ val1 = true
            /\ forall p,
                snd (bindBody ParseFloat EqualFold ErrorText jsonUnmarshal
                       xmlUnmarshal (Some (TPtr typ, VPtr (Some val))) c)
                <> Panic p).
  { unfold bindBody.
    destruct (ReadBody c) as [body|err];
      [|exists val; repeat split; [assumption | discriminate]].
    destruct (strings.HasPrefix _ echo.MIMEApplicationJSON).
    { destruct (Hjson body val Hv) as (val1 & Hfst & Hv1).
      destruct (jsonUnmarshal body _) as [j [[| |]|]]; cbn [fst] in Hfst;
        subst j; exists val1; repeat split; try assumption; discriminate. }
    destruct (strings.HasPrefix _ echo.MIMEApplicationXML
              || strings.HasPrefix _ echo.MIMETextXML).
    { destruct (Hxml body val Hv) as (val1 & Hfst & Hv1).
      destruct (xmlUnmarshal body _) as [j [[| |]|]]; cbn [fst] in Hfst;
        subst j; exists val1; repeat split; try assumption; discriminate. }
    destruct (strings.HasPrefix _ echo.MIMEApplicationForm
              || strings.HasPrefix _ echo.MIMEMultipartForm);
      [|exists val; repeat split; [assumption | discriminate]].
    destruct (FormParams c) as [params|err] eqn:Ef;
      [|exists val; repeat split; [assumption | discriminate]].
    destruct (bindDataPtr_safe typ val params "form" Hk Hms Hv
                (fun k v => Hform params k v eq_refl))
      as (val1 & Hfst & Hv1 & Hp).
    destruct (bindDataPtr _ _ _ params "form") as [j [|e|p]];
      cbn [fst snd] in Hfst, Hp; subst j.
    - exists val1. repeat split; [assumption | discriminate].
    - exists val1. repeat split; [assumption | discriminate].
    - destruct (Hp p eq_refl). }
  destruct Hb as (val1 & Hfst & Hv1 & Hp).
  destruct (bindBody _ _ _ _ _ _ c) as [j [|e|p]];
    cbn [fst snd] in Hfst, Hp; subst j.
  - apply Hq. assumption.
  - exists val1. repeat split; [assumption | discriminate].
  - destruct (Hp p eq_refl).
Qed.

(** *** Keys that no field asks for *)

Lemma bindFields_unknown_keys bind data tag fields :
  Forall (fun f => forall v,
            Exported (fst f) = true ->
            resolveName (fst f) (snd f) tag = None ->
            hasShape (snd f) v = true ->
            bind (snd f) v = (v, Nil)) fields ->
  (forall f name,
      In f fields -> Exported (fst f) = true ->
      resolveName (fst f) (snd f) tag = Some name ->
      lookupInput EqualFold data name = None) ->
  forall vals,
    shapeFields hasShape fields vals = true ->
    bindFields ParseFloat EqualFold bind data tag fields vals = (vals, Nil).
Proof.
  intros Hall. induction Hall as [|[typeField ft] fields Hf _ IH];
    intros Hnames vals Hshape; destruct vals as [|structField vals];
    try discriminate Hshape; [reflexivity|].
  cbn [shapeFields] in Hshape. apply andb_true_iff in Hshape.
  destruct Hshape as [Hfield Hrest]. cbn [fst snd] in Hf.
  assert (Hround : bindField ParseFloat EqualFold (bind ft) typeField ft
                     structField data tag = (structField, Nil)).
  { unfold bindField. destruct (Exported typeField) eqn:Hexp; [|reflexivity].
    cbn [negb].
    destruct (resolveName typeField ft tag) as [name|] eqn:Hname.
    - rewrite (Hnames (typeField, ft) name (or_introl eq_refl) Hexp Hname).
      reflexivity.
    - apply Hf; auto. }
  cbn [bindFields]. rewrite Hround, IH; [reflexivity| |assumption].
  intros f name Hin. apply Hnames. right. exact Hin.
Qed.

(** X19.  Keys that no field asks for are passed over: on a struct
    built like its type, when none of the names that [bindData] looks up
    -- for the fields of the struct and of the structs it recurses into
    -- is found in [data], as it is or up to case, [bindData] returns nil
    and the target is as it was. *)
Theorem bindData_unknown_keys typ :
  forall val data tag,
    KindOf typ = reflect.Struct ->
    hasShape typ val = true ->
    (forall name,
        In name (resolvedNames tag typ) ->
        lookupInput EqualFold data name = None) ->
    bindData ParseFloat EqualFold typ val data tag = (val, Nil).
Proof.
  induction typ as [| | | | | | | |fields d IH| |] using rtype_nested_ind;
    intros val data tag Hk Hshape Hnames;
    try destruct w; try destruct k; try discriminate Hk.
  destruct data as [|entry data']; [reflexivity|]. cbn [bindData].
  destruct val as [| | | | | | | |vals| |]; try discriminate Hshape.
  cbn [hasShape] in Hshape.
  rewrite (bindFields_unknown_keys _ (entry :: data') tag fields);
    [reflexivity| | |assumption].
  - rewrite Forall_forall in IH |- *. intros [typeField ft] Hin v Hexp Hname Hv.
    cbn [fst snd] in *.
    apply (IH (typeField, ft) Hin); [|assumption|].
    + exact (resolveName_None _ _ _ Hname).
    + intros name Hn. apply Hnames. cbn [resolvedNames].
      apply in_flat_map. exists (typeField, ft).
      split; [apply list_elem_of_In; exact Hin|].
      cbn [fst snd]. rewrite Hexp, Hname. exact Hn.
  - intros [typeField ft] name Hin Hexp Hname. cbn [fst snd] in *.
    apply Hnames. cbn [resolvedNames].
    apply in_flat_map. exists (typeField, ft). split; [exact Hin|].
    cbn [fst snd]. rewrite Hexp, Hname. left. reflexivity.
Qed.

End BinderProperties.

(** ** Properties of the etcd provider *)

Section EtcdProperties.

Context {Certificate CertPool Client E : Type}.
Variable LoadX509KeyPair : string -> string -> Certificate + E.
Variable ReadFile : string -> string + E.
Variable IsNotExist : E -> bool.
Variable NewCertPool : CertPool.
Variable AppendCertsFromPEM : CertPool -> string -> CertPool * bool.
Variable ErrorText : E -> string.
Variable New : @etcd.clientConfig Certificate CertPool -> Client + E.

Lemma splitOn_not_nil sep s : splitOn sep s <> [].
Proof.
  destruct s as [|c s]; simpl; [discriminate|].
  destruct (Ascii.eqb c sep); [discriminate|].
  destruct (splitOn sep s); discriminate.
Qed.

Lemma joinWith_splitOn sep s : joinWith sep (splitOn sep s) = s.
Proof.
  induction s as [|c s IH]; [reflexivity|].
  pose proof (splitOn_not_nil sep s) as Hne.
  cbn [splitOn]. destruct (Ascii.eqb_spec c sep) as [->|Hc].
  - destruct (splitOn sep s) as [|piece pieces]; [congruence|].
    change (joinWith sep ("" :: piece :: pieces))
      with (String sep (joinWith sep (piece :: pieces))).
    rewrite IH. reflexivity.
  - destruct (splitOn sep s) as [|piece pieces]; [congruence|].
    destruct pieces as [|piece' pieces].
    + simpl in IH |- *. rewrite IH. reflexivity.
    + change (joinWith sep (String c piece :: piece' :: pieces))
        with (String c (piece +:+ String sep (joinWith sep (piece' :: pieces)))).
      change (joinWith sep (piece :: piece' :: pieces))
        with (piece +:+ String sep (joinWith sep (piece' :: pieces))) in IH.
      rewrite IH. reflexivity.
Qed.

Lemma splitOn_no_sep sep s :
  forall piece, In piece (splitOn sep s) ->
    ~ In sep (list_ascii_of_string piece).
Proof.
  induction s as [|c s IH]; intros piece; cbn [splitOn].
  - intros [<-|[]] [].
  - destruct (Ascii.eqb_spec c sep) as [->|Hc].
    + intros [<-|Hin]; [intros [] | apply IH; exact Hin].
    + pose proof (splitOn_not_nil sep s) as Hne.
      destruct (splitOn sep s) as [|piece0 pieces]; [congruence|].
      intros [<-|Hin].
      * cbn [list_ascii_of_string]. intros [Heq|Hin]; [congruence|].
        exact (IH piece0 (or_introl eq_refl) Hin).
      * apply IH. right. exact Hin.
Qed.

(** X16.  The endpoints that [Connect] hands to [clientv3.New] are the
    pieces of the configured string between its commas, as they are
    (nothing is trimmed, an empty piece stays): there is at least one,
    none has a comma, and joined by commas they give the configured
    string.  An empty setting gives one empty endpoint. *)
Theorem connectConfig_endpoints (p : @etcd.provider Certificate CertPool Client) :
  etcd.ClientEndpoints (etcd.connectConfig p) <> []
  /\ joinWith "," (etcd.ClientEndpoints (etcd.connectConfig p))
     = etcd.Endpoints (etcd.Cfg p)
  /\ (forall endpoint,
        In endpoint (etcd.ClientEndpoints (etcd.connectConfig p)) ->
        ~ In ","%char (list_ascii_of_string endpoint))
  /\ (etcd.Endpoints (etcd.Cfg p) = "" ->
      etcd.ClientEndpoints (etcd.connectConfig p) = [""]).
Proof.
  cbn [etcd.connectConfig etcd.ClientEndpoints].
  split; [apply splitOn_not_nil|].
  split; [apply joinWith_splitOn|].
  split; [apply splitOn_no_sep|].
  intros ->. reflexivity.
Qed.

(** X17.  [initTLSConfig] does not fail on a missing file: an error it
    returns is not one of [os.IsNotExist], and then the provider is as
    it was.  When it returns nil the TLS configuration is as it was, or
    it is the loaded key pair with the pool of the CA file -- and this
    only when a certificate or a key file is configured.  The settings
    and the client are never touched. *)
Theorem initTLSConfig_outcome (p p' : @etcd.provider Certificate CertPool Client)
    r :
  etcd.initTLSConfig LoadX509KeyPair ReadFile IsNotExist NewCertPool
    AppendCertsFromPEM ErrorText p = (p', r) ->
  etcd.Cfg p' = etcd.Cfg p
  /\ etcd.client p' = etcd.client p
  /\ (forall err, r = Some err -> IsNotExist err = false /\ p' = p)
  /\ (r = None ->
      etcd.tls p' = etcd.tls p
      \/ (etcd.CertFile (etcd.Cfg p) <> ""
          \/ etcd.CertKeyFile (etcd.Cfg p) <> "")
         /\ exists cert caData,
             LoadX509KeyPair (etcd.CertFile (etcd.Cfg p))
               (etcd.CertKeyFile (etcd.Cfg p)) = inl cert
             /\ ReadFile (etcd.CaFile (etcd.Cfg p)) = inl caData
             /\ etcd.tls p'
                = Some {| etcd.Certificates := [cert];
                          etcd.RootCAs :=
                            fst (AppendCertsFromPEM NewCertPool caData) |}).
Proof.
  unfold etcd.initTLSConfig, etcd.readTLSConfig.
  destruct ((0 <? String.length (etcd.CertFile (etcd.Cfg p)))%nat
            || (0 <? String.length (etcd.CertKeyFile (etcd.Cfg p)))%nat)
    eqn:Hfiles.
  2: { intros [= <- <-].
       split; [reflexivity|]. split; [reflexivity|].
       split; [discriminate|]. intros _. left. reflexivity. }
  assert (Hset : etcd.CertFile (etcd.Cfg p) <> ""
                 \/ etcd.CertKeyFile (etcd.Cfg p) <> "").
  { apply orb_true_iff in Hfiles. destruct Hfiles as [H|H]; [left|right];
      intros Heq; rewrite Heq in H; discriminate. }
  assert (Hfail : forall err q o,
            (if IsNotExist err
             then ({| etcd.Cfg := etcd.Cfg p;
                      etcd.Log := ("fail to load tls files: "
                                   +:+ ErrorText err) :: etcd.Log p;
                      etcd.client := etcd.client p;
                      etcd.tls := etcd.tls p |}, None)
             else (p, Some err)) = (q, o) ->
            etcd.Cfg q = etcd.Cfg p
            /\ etcd.client q = etcd.client p
            /\ (forall err', o = Some err' ->
                 IsNotExist err' = false /\ q = p)
            /\ (o = None -> etcd.tls q = etcd.tls p)).
  { intros err q o. destruct (IsNotExist err) eqn:Hne; intros [= <- <-].
    - split; [reflexivity|]. split; [reflexivity|].
      split; [discriminate|]. reflexivity.
    - split; [reflexivity|]. split; [reflexivity|].
      split; [|discriminate]. intros err' [= <-]. auto. }
  destruct (LoadX509KeyPair _ _) as [cert|err] eqn:Hcert.
  - destruct (ReadFile _) as [caData|err] eqn:Hca.
    + intros [= <- <-].
      split; [reflexivity|]. split; [reflexivity|].
      split; [discriminate|]. intros _. right. split; [exact Hset|]. eauto.
    + intros H. destruct (Hfail _ _ _ H) as (H1 & H2 & H3 & H4).
      repeat (split; [assumption|]). intros Hr. left. exact (H4 Hr).
  - intros H. destruct (Hfail _ _ _ H) as (H1 & H2 & H3 & H4).
    repeat (split; [assumption|]). intros Hr. left. exact (H4 Hr).
Qed.

Lemma initTLSConfig_frame (p p' : @etcd.provider Certificate CertPool Client)
    r :
  etcd.initTLSConfig LoadX509KeyPair ReadFile IsNotExist NewCertPool
    AppendCertsFromPEM ErrorText p = (p', r) ->
  etcd.Cfg p' = etcd.Cfg p /\ etcd.client p' = etcd.client p.
Proof.
  unfold etcd.initTLSConfig.
  destruct (_ || _); [|intros [= <- <-]; auto].
  destruct (etcd.readTLSConfig _ _ _ _ _ _ _) as [cfg|err].
  - intros [= <- <-]. auto.
  - destruct (IsNotExist err); intros [= <- <-]; auto.
Qed.

(** X18.  [Init]: when it returns nil, the provider holds the client
    that [clientv3.New] returned for the endpoints, the timeout and the
    TLS configuration the provider ends with, and [Provide] gives that
    client for the service "etcd-client" and for the client type; when
    it returns an error, the client is as it was.  The settings are
    never touched. *)
Theorem Init_outcome (p p' : @etcd.provider Certificate CertPool Client) r :
  etcd.Init LoadX509KeyPair ReadFile IsNotExist NewCertPool
    AppendCertsFromPEM ErrorText New p = (p', r) ->
  etcd.Cfg p' = etcd.Cfg p
  /\ (r = None ->
      exists c,
        New (etcd.connectConfig p') = inl c
        /\ etcd.client p' = Some c
        /\ (forall isClientType,
              etcd.Provide p' isClientType "etcd-client"
              = etcd.ProvidedClient (Some c))
        /\ (forall service,
              etcd.Provide p' true service = etcd.ProvidedClient (Some c)))
  /\ (forall err, r = Some err -> etcd.client p' = etcd.client p).
Proof.
  unfold etcd.Init, etcd.Connect.
  destruct (etcd.initTLSConfig _ _ _ _ _ _ p) as [p1 r1] eqn:Htls.
  destruct (initTLSConfig_frame _ _ _ Htls) as (Hcfg & Hclient).
  destruct r1 as [err|].
  - intros [= <- <-]. split; [exact Hcfg|]. split; [discriminate|]. auto.
  - destruct (New (etcd.connectConfig p1)) as [c|err] eqn:Hnew.
    + intros [= <- <-]. split; [exact Hcfg|]. split; [|discriminate].
      intros _. exists c.
      split; [exact Hnew|]. split; [reflexivity|]. split.
      * intros isClientType. unfold etcd.Provide. cbn [etcd.client].
        rewrite orb_true_r. reflexivity.
      * intros service. reflexivity.
    + intros [= <- <-]. split; [exact Hcfg|]. split; [discriminate|]. auto.
Qed.

End EtcdProperties.

(** ** The further properties at concrete inputs *)

(** X1 on [name=bob&home=x]: [Name] is bound, the tagged struct [Home]
    fails, [Score] after it is as it was. *)
Lemma bindData_first_failure_witness :
  [("name", ["bob"]); ("home", ["x"]); ("Score", ["1.5"])] <> []
  /\ length [(fName, tString)] = length [VString ""]
  /\ bindFields Decimal.ParseFloat ASCII.EqualFold
       (fun ft v =>
          bindData Decimal.ParseFloat ASCII.EqualFold ft v
            [("name", ["bob"]); ("home", ["x"]); ("Score", ["1.5"])] "query")
       [("name", ["bob"]); ("home", ["x"]); ("Score", ["1.5"])] "query"
       [(fName, tString)] [VString ""]
     = ([VString "bob"], Nil)
  /\ bindField Decimal.ParseFloat ASCII.EqualFold
       (fun v =>
          bindData Decimal.ParseFloat ASCII.EqualFold tAddr v
            [("name", ["bob"]); ("home", ["x"]); ("Score", ["1.5"])] "query")
       fHome tAddr (VStruct [VString ""])
       [("name", ["bob"]); ("home", ["x"]); ("Score", ["1.5"])] "query"
     = (VStruct [VString ""], Err (errorString "unknown type"))
  /\ Err (errorString "unknown type") <> Nil
  /\ bindData Decimal.ParseFloat ASCII.EqualFold
       (TStruct ([(fName, tString)] ++ (fHome, tAddr)
                 :: [(fScore, TFloat F64 None)]) None)
       (VStruct ([VString ""] ++ VStruct [VString ""]
                 :: [VFloat (S754_zero false)]))
       [("name", ["bob"]); ("home", ["x"]); ("Score", ["1.5"])] "query"
     = (VStruct ([VString "bob"] ++ VStruct [VString ""]
                 :: [VFloat (S754_zero false)]),
        Err (errorString "unknown type")).
Proof.
  assert (Hdata : [("name", ["bob"]); ("home", ["x"]); ("Score", ["1.5"])]
                  <> ([] : SourceMap)) by discriminate.
  assert (Hr : Err (errorString "unknown type") <> Nil) by discriminate.
  split; [exact Hdata|]. do 3 (split; [reflexivity|]). split; [exact Hr|].
  exact (bindData_first_failure Decimal.ParseFloat ASCII.EqualFold
           [(fName, tString)] fHome tAddr [(fScore, TFloat F64 None)] None
           [VString ""] [VString "bob"] (VStruct [VString ""])
           (VStruct [VString ""]) [VFloat (S754_zero false)]
           [("name", ["bob"]); ("home", ["x"]); ("Score", ["1.5"])] "query"
           (Err (errorString "unknown type"))
           Hdata eq_refl eq_refl eq_refl Hr).
Defined.

(** X2 on a struct with a field that cannot be set and a field without
    input, and a [data] that names both and fails on a third. *)
Lemma bindData_frame_witness :
  bindData Decimal.ParseFloat ASCII.EqualFold
    (TStruct [(fSecret, tString); (fName, tString); (fAge, tInt);
              (fNick, tString)] None)
    (VStruct [VString "s"; VString ""; VInt 30; VString "n"])
    [("secret", ["x"]); ("name", ["bob"]); ("age", ["old"])] "query"
  = (VStruct [VString "s"; VString "bob"; VInt 30; VString "n"],
     Err (NumError "ParseInt" "old" ErrSyntax))
  /\ exists vals',
      VStruct [VString "s"; VString "bob"; VInt 30; VString "n"]
      = VStruct vals'
      /\ length vals'
         = length [VString "s"; VString ""; VInt 30; VString "n"]
      /\ forall i typeField ft,
          [(fSecret, tString); (fName, tString); (fAge, tInt);
           (fNick, tString)] !! i = Some (typeField, ft) ->
          Exported typeField = false
          \/ (exists name,
                resolveName typeField ft "query" = Some name
                /\ lookupInput ASCII.EqualFold
                     [("secret", ["x"]); ("name", ["bob"]); ("age", ["old"])]
                     name = None) ->
          vals' !! i
          = [VString "s"; VString ""; VInt 30; VString "n"] !! i.
Proof.
  split; [reflexivity|].
  exact (bindData_frame Decimal.ParseFloat ASCII.EqualFold
           [(fSecret, tString); (fName, tString); (fAge, tInt);
            (fNick, tString)] None
           [VString "s"; VString ""; VInt 30; VString "n"]
           [("secret", ["x"]); ("name", ["bob"]); ("age", ["old"])] "query"
           _ _ eq_refl).
Defined.

(** X4 on a nil [*string] field and [nick=al]. *)
Lemma bindField_pointer_allocated_witness :
  Exported fNick = true
  /\ resolveName fNick (TPtr tString) "query" = Some "nick"
  /\ lookupInput ASCII.EqualFold [("nick", ["al"])] "nick" = Some ["al"]
  /\ exists pointee,
      fst (bindField Decimal.ParseFloat ASCII.EqualFold noRecursion fNick
             (TPtr tString) (VPtr None) [("nick", ["al"])] "query")
      = VPtr (Some pointee).
Proof.
  do 3 (split; [reflexivity|]).
  exact (bindField_pointer_allocated Decimal.ParseFloat ASCII.EqualFold
           noRecursion fNick tString None [("nick", ["al"])] "query" "nick"
           "al" [] eq_refl eq_refl eq_refl).
Defined.

(** X5 on an [int] field and [age=old]. *)
Lemma bindField_failure_keeps_witness :
  Exported fAge = true
  /\ resolveName fAge tInt "query" = Some "age"
  /\ lookupInput ASCII.EqualFold [("age", ["old"])] "age" = Some ["old"]
  /\ KindOf tInt <> reflect.Ptr
  /\ UnmarshalParam (methodsOf tInt) = None
  /\ UnmarshalText (methodsOf tInt) = None
  /\ snd (bindField Decimal.ParseFloat ASCII.EqualFold noRecursion fAge tInt
            (VInt 30) [("age", ["old"])] "query") <> Nil
  /\ fst (bindField Decimal.ParseFloat ASCII.EqualFold noRecursion fAge tInt
            (VInt 30) [("age", ["old"])] "query") = VInt 30.
Proof.
  assert (Hk : KindOf tInt <> reflect.Ptr) by discriminate.
  assert (Hr : snd (bindField Decimal.ParseFloat ASCII.EqualFold noRecursion
                      fAge tInt (VInt 30) [("age", ["old"])] "query") <> Nil)
    by discriminate.
  do 3 (split; [reflexivity|]). split; [exact Hk|].
  do 2 (split; [reflexivity|]). split; [exact Hr|].
  exact (bindField_failure_keeps Decimal.ParseFloat ASCII.EqualFold
           noRecursion fAge tInt (VInt 30) [("age", ["old"])] "query" "age"
           ["old"] eq_refl eq_refl eq_refl Hk eq_refl eq_refl Hr).
Defined.

(** X6 on an [int8] field: 127 fits, 128 does not. *)
Lemma setWithProperType_integer_witness :
  UnmarshalParam (methodsOf (TInt W8 None)) = None
  /\ UnmarshalText (methodsOf (TInt W8 None)) = None
  /\ setWithProperType Decimal.ParseFloat (KindOf (TInt W8 None)) "128"
       (TInt W8 None) (VInt 5)
     = match strconv.ParseInt "128" (widthBits W8) with
       | inl n => (VInt n, Nil)
       | inr err => (VInt 5, Err err)
       end
  /\ strconv.ParseInt "128" (widthBits W8)
     = inr (NumError "ParseInt" "128" ErrRange).
Proof.
  do 2 (split; [reflexivity|]). split; [|reflexivity].
  exact (proj1 (setWithProperType_integer Decimal.ParseFloat W8 None "128"
                  (VInt 5)) eq_refl eq_refl).
Defined.

(** X7 on the zero value of the example struct. *)
Lemma bindData_struct_no_panic_witness :
  KindOf tUser = reflect.Struct
  /\ hasShape tUser (zeroValue tUser) = true
  /\ (forall k v, In (k, v) [("x", ["1"; "oops"]); ("home", ["y"])] -> v <> [])
  /\ exists v' : value,
      bindData Decimal.ParseFloat ASCII.EqualFold tUser (zeroValue tUser)
        [("x", ["1"; "oops"]); ("home", ["y"])] "query" = (v', Nil)
      \/ exists e,
          bindData Decimal.ParseFloat ASCII.EqualFold tUser (zeroValue tUser)
            [("x", ["1"; "oops"]); ("home", ["y"])] "query" = (v', Err e).
Proof.
  assert (Hne : forall k v,
            In (k, v) [("x", ["1"; "oops"]); ("home", ["y"])] -> v <> []).
  { intros k v [[= <- <-]|[[= <- <-]|[]]]; discriminate. }
  do 2 (split; [reflexivity|]). split; [exact Hne|].
  exact (bindData_struct_no_panic Decimal.ParseFloat ASCII.EqualFold tUser
           (zeroValue tUser) [("x", ["1"; "oops"]); ("home", ["y"])] "query"
           eq_refl eq_refl Hne).
Defined.

(** X8 on the keys [Name] and [id] in both orders, for the name
    [name]. *)
Lemma lookupInput_order_independent_witness :
  Permutation [("Name", ["a"]); ("id", ["7"])] [("id", ["7"]); ("Name", ["a"])]
  /\ NoDup (map fst [("Name", ["a"]); ("id", ["7"])])
  /\ (mapIndex [("Name", ["a"]); ("id", ["7"])] "name" = None ->
      forall k1 v1 k2 v2,
        In (k1, v1) [("Name", ["a"]); ("id", ["7"])] ->
        In (k2, v2) [("Name", ["a"]); ("id", ["7"])] ->
        ASCII.EqualFold k1 "name" = true ->
        ASCII.EqualFold k2 "name" = true -> k1 = k2)
  /\ lookupInput ASCII.EqualFold [("id", ["7"]); ("Name", ["a"])] "name"
     = lookupInput ASCII.EqualFold [("Name", ["a"]); ("id", ["7"])] "name".
Proof.
  assert (Hperm : Permutation [("Name", ["a"]); ("id", ["7"])]
                    [("id", ["7"]); ("Name", ["a"])]) by apply perm_swap.
  assert (Hnd : NoDup (map fst [("Name", ["a"]); ("id", ["7"])])).
  { cbn [map fst].
    repeat (apply NoDup_cons_2;
            [rewrite list_elem_of_In; simpl; intuition discriminate|]).
    apply NoDup_nil_2. }
  assert (Hone : mapIndex [("Name", ["a"]); ("id", ["7"])] "name" = None ->
            forall k1 v1 k2 v2,
              In (k1, v1) [("Name", ["a"]); ("id", ["7"])] ->
              In (k2, v2) [("Name", ["a"]); ("id", ["7"])] ->
              ASCII.EqualFold k1 "name" = true ->
              ASCII.EqualFold k2 "name" = true -> k1 = k2).
  { intros _ k1 v1 k2 v2 [[= <- <-]|[[= <- <-]|[]]] [[= <- <-]|[[= <- <-]|[]]];
      try reflexivity; discriminate. }
  split; [exact Hperm|]. split; [exact Hnd|]. split; [exact Hone|].
  exact (lookupInput_order_independent ASCII.EqualFold
           [("Name", ["a"]); ("id", ["7"])] [("id", ["7"]); ("Name", ["a"])]
           "name" Hperm Hnd Hone).
Defined.

(** X9 on two entries in both orders. *)
Lemma bindData_map_order_independent_witness :
  assignableString tString = true
  /\ assignableString tString = true
  /\ (forall k v, In (k, v) [("a", ["1"]); ("b", ["2"])] -> v <> [])
  /\ NoDup (map fst [("a", ["1"]); ("b", ["2"])])
  /\ Permutation [("a", ["1"]); ("b", ["2"])] [("b", ["2"]); ("a", ["1"])]
  /\ bindData Decimal.ParseFloat ASCII.EqualFold (TMap tString tString None)
       (VMap (Some ∅)) [("b", ["2"]); ("a", ["1"])] "form"
     = bindData Decimal.ParseFloat ASCII.EqualFold (TMap tString tString None)
         (VMap (Some ∅)) [("a", ["1"]); ("b", ["2"])] "form".
Proof.
  assert (Hne : forall k v, In (k, v) [("a", ["1"]); ("b", ["2"])] -> v <> []).
  { intros k v [[= <- <-]|[[= <- <-]|[]]]; discriminate. }
  assert (Hnd : NoDup (map fst [("a", ["1"]); ("b", ["2"])])).
  { cbn [map fst].
    repeat (apply NoDup_cons_2;
            [rewrite list_elem_of_In; simpl; intuition discriminate|]).
    apply NoDup_nil_2. }
  assert (Hperm : Permutation [("a", ["1"]); ("b", ["2"])]
                    [("b", ["2"]); ("a", ["1"])]) by apply perm_swap.
  do 2 (split; [reflexivity|]).
  split; [exact Hne|]. split; [exact Hnd|]. split; [exact Hperm|].
  exact (bindData_map_order_independent Decimal.ParseFloat ASCII.EqualFold
           tString tString None ∅ [("a", ["1"]); ("b", ["2"])]
           [("b", ["2"]); ("a", ["1"])] "form" eq_refl eq_refl Hne Hnd Hperm).
Defined.

(** X10 on the path parameters [id] and [name]. *)
Lemma pathParams_spec_witness :
  (length ["id"; "name"] <= length ["7"; "bob"])%nat
  /\ exists params,
      pathParams ["id"; "name"] ["7"; "bob"] 0 [] = Some params
      /\ NoDup (map fst params)
      /\ (forall k v, In (k, v) params -> exists x, v = [x])
      /\ (forall j name x,
            ["id"; "name"] !! j = Some name ->
            ["7"; "bob"] !! j = Some x ->
            (forall j', (j < j')%nat -> ["id"; "name"] !! j' <> Some name) ->
            mapIndex params name = Some [x])
      /\ (forall name, ~ In name ["id"; "name"] -> mapIndex params name = None).
Proof.
  assert (Hlen : (length ["id"; "name"] <= length ["7"; "bob"])%nat)
    by (simpl; lia).
  split; [exact Hlen|].
  exact (proj1 (pathParams_spec ["id"; "name"] ["7"; "bob"]) Hlen).
Defined.


(** X12 on a request without body, query and path parameters, for a
    pointer to a struct and for the nil target. *)
Lemma Bind_nothing_to_bind_witness :
  ContentLength emptyRequest <= 0
  /\ (KindOf (derefType (TPtr tNamed)) <> reflect.Struct
      \/ (QueryParams emptyRequest = [] /\ ParamNames emptyRequest = []))
  /\ Bind Decimal.ParseFloat ASCII.EqualFold plainErrorText idleDecoder
       idleDecoder (Some (TPtr tNamed, VPtr (Some (zeroValue tNamed))))
       emptyRequest
     = (Some (TPtr tNamed, VPtr (Some (zeroValue tNamed))), Nil)
  /\ Bind Decimal.ParseFloat ASCII.EqualFold plainErrorText idleDecoder
       idleDecoder None emptyRequest
     = (None, Panic NilDereference).
Proof.
  assert (Hlen : ContentLength emptyRequest <= 0) by (simpl; lia).
  assert (Hcase : KindOf (derefType (TPtr tNamed)) <> reflect.Struct
                  \/ (QueryParams emptyRequest = []
                      /\ ParamNames emptyRequest = []))
    by (right; split; reflexivity).
  split; [exact Hlen|]. split; [exact Hcase|].
  split.
  - exact (proj1 (Bind_nothing_to_bind Decimal.ParseFloat ASCII.EqualFold
                    plainErrorText idleDecoder idleDecoder emptyRequest Hlen)
             (TPtr tNamed) (VPtr (Some (zeroValue tNamed))) Hcase).
  - exact (proj2 (Bind_nothing_to_bind Decimal.ParseFloat ASCII.EqualFold
                    plainErrorText idleDecoder idleDecoder emptyRequest Hlen)).
Defined.

(** X13 on a pointer to a pointer to a struct and the query
    [name=bob]. *)
Lemma Bind_pointer_to_pointer_witness :
  ContentLength chunkedRequest <= 0
  /\ KindOf (derefType tNamed) = reflect.Struct
  /\ QueryParams chunkedRequest <> []
  /\ Bind Decimal.ParseFloat ASCII.EqualFold plainErrorText idleDecoder
       idleDecoder
       (Some (TPtr (TPtr tNamed), VPtr (Some (VPtr (Some (zeroValue tNamed))))))
       chunkedRequest
     = (Some (TPtr (TPtr tNamed),
              VPtr (Some (VPtr (Some (zeroValue tNamed))))),
        Err (HTTPError echo.StatusBadRequest
               (plainErrorText (errorString "binding element must be a struct"))
               (Some (errorString "binding element must be a struct")))).
Proof.
  assert (Hlen : ContentLength chunkedRequest <= 0) by (simpl; lia).
  assert (Hq : QueryParams chunkedRequest <> []) by discriminate.
  split; [exact Hlen|]. split; [reflexivity|]. split; [exact Hq|].
  exact (Bind_pointer_to_pointer Decimal.ParseFloat ASCII.EqualFold
           plainErrorText idleDecoder idleDecoder tNamed
           (VPtr (Some (zeroValue tNamed))) chunkedRequest Hlen eq_refl Hq).
Defined.

Lemma tUser_unmarshalersKeepShape : unmarshalersKeepShape tUser.
Proof.
  assert (Hnone : forall t, methodsOf t = noMethods -> keepsShape t (methodsOf t)).
  { intros t ->. split; intros; discriminate. }
  assert (Hlevel : keepsShape tLevel (methodsOf tLevel)).
  { split; [|intros; discriminate].
    intros f param v [= <-] Hv. unfold levelUnmarshalParam.
    destruct (String.eqb param "high"); [reflexivity|].
    destruct (String.eqb param "low"); [reflexivity | exact Hv]. }
  cbn [unmarshalersKeepShape tUser allFields tAddr tInts tString tInt tLevel].
  repeat match goal with |- _ /\ _ => split end;
    first [exact I | exact Hlevel | apply Hnone; reflexivity].
Qed.

(** X14 on the example struct, whose [Level] has [UnmarshalParam]. *)
Lemma bindData_keeps_shape_witness :
  unmarshalersKeepShape tUser
  /\ hasShape tUser (zeroValue tUser) = true
  /\ hasShape tUser
       (fst (bindData Decimal.ParseFloat ASCII.EqualFold tUser
               (zeroValue tUser)
               [("level", ["high"]); ("x", ["1"; "oops"])] "query"))
     = true.
Proof.
  split; [exact tUser_unmarshalersKeepShape|]. split; [reflexivity|].
  exact (bindData_keeps_shape Decimal.ParseFloat ASCII.EqualFold tUser
           (zeroValue tUser) [("level", ["high"]); ("x", ["1"; "oops"])]
           "query" tUser_unmarshalersKeepShape eq_refl).
Defined.

(** X15 on a form request with a query and a path parameter. *)
Lemma Bind_struct_no_panic_witness :
  KindOf tUser = reflect.Struct
  /\ hasShape tUser (zeroValue tUser) = true
  /\ unmarshalersKeepShape tUser
  /\ (forall params k v,
        FormParams formRequest = inl params -> In (k, v) params -> v <> [])
  /\ (forall k v, In (k, v) (QueryParams formRequest) -> v <> [])
  /\ (length (ParamNames formRequest) <= length (ParamValues formRequest))%nat
  /\ exists val',
      fst (Bind Decimal.ParseFloat ASCII.EqualFold plainErrorText idleDecoder
             idleDecoder (Some (TPtr tUser, VPtr (Some (zeroValue tUser))))
             formRequest)
      = Some (TPtr tUser, VPtr (Some val'))
      /\ hasShape tUser val' = true
      /\ forall p,
          snd (Bind Decimal.ParseFloat ASCII.EqualFold plainErrorText
                 idleDecoder idleDecoder
                 (Some (TPtr tUser, VPtr (Some (zeroValue tUser))))
                 formRequest) <> Panic p.
Proof.
  assert (Hform : forall params k v,
            FormParams formRequest = inl params -> In (k, v) params -> v <> []).
  { intros params k v [= <-] [[= <- <-]|[]]. discriminate. }
  assert (Hquery : forall k v, In (k, v) (QueryParams formRequest) -> v <> []).
  { intros k v [[= <- <-]|[]]. discriminate. }
  assert (Hlen : (length (ParamNames formRequest)
                  <= length (ParamValues formRequest))%nat) by (simpl; lia).
  assert (Hdec : forall (X : Type) (body : string) val0,
            hasShape tUser val0 = true ->
            exists val1,
              fst (@idleDecoder X body (Some (TPtr tUser, VPtr (Some val0))))
              = Some (TPtr tUser, VPtr (Some val1))
              /\ hasShape tUser val1 = true).
  { intros X body val0 Hv. exists val0. split; [reflexivity | exact Hv]. }
  do 2 (split; [reflexivity|]).
  split; [exact tUser_unmarshalersKeepShape|].
  split; [exact Hform|]. split; [exact Hquery|]. split; [exact Hlen|].
  exact (Bind_struct_no_panic Decimal.ParseFloat ASCII.EqualFold
           plainErrorText idleDecoder idleDecoder tUser (zeroValue tUser)
           formRequest eq_refl eq_refl tUser_unmarshalersKeepShape
           (Hdec JSONError) (Hdec XMLError) Hform Hquery Hlen).
Defined.

(** X19 on the example struct and a key that none of its fields asks
    for. *)
Lemma bindData_unknown_keys_witness :
  KindOf tUser = reflect.Struct
  /\ hasShape tUser (zeroValue tUser) = true
  /\ (forall name,
        In name (resolvedNames "query" tUser) ->
        lookupInput ASCII.EqualFold [("page", ["2"])] name = None)
  /\ bindData Decimal.ParseFloat ASCII.EqualFold tUser (zeroValue tUser)
       [("page", ["2"])] "query"
     = (zeroValue tUser, Nil).
Proof.
  assert (Hnames : forall name,
            In name (resolvedNames "query" tUser) ->
            lookupInput ASCII.EqualFold [("page", ["2"])] name = None).
  { intros name Hin. vm_compute in Hin.
    repeat (destruct Hin as [<-|Hin]; [reflexivity|]). destruct Hin. }
  do 2 (split; [reflexivity|]). split; [exact Hnames|].
  exact (bindData_unknown_keys Decimal.ParseFloat ASCII.EqualFold tUser
           (zeroValue tUser) [("page", ["2"])] "query" eq_refl eq_refl Hnames).
Defined.

(** X17 and X18 on a provider whose key file is missing: a warning, no
    TLS, and a client all the same. *)
Lemma initTLSConfig_outcome_witness :
  etcd.initTLSConfig exampleLoadX509KeyPair exampleReadFile exampleIsNotExist
    [] exampleAppendCerts exampleErrorText
    (exampleProvider "a:2379,b:2379" "cert.pem" "lost.pem" "ca.pem")
  = ({| etcd.Cfg := etcd.Cfg (exampleProvider "a:2379,b:2379" "cert.pem"
                                "lost.pem" "ca.pem");
        etcd.Log :=
          ["fail to load tls files: open lost.pem: no such file or directory"];
        etcd.client := None;
        etcd.tls := None |}, None)
  /\ (forall err : fileError,
        None = Some err ->
        exampleIsNotExist err = false
        /\ {| etcd.Cfg := etcd.Cfg (exampleProvider "a:2379,b:2379" "cert.pem"
                                      "lost.pem" "ca.pem");
              etcd.Log :=
                ["fail to load tls files: open lost.pem: no such file or directory"];
              etcd.client := None;
              etcd.tls := None |}
           = exampleProvider "a:2379,b:2379" "cert.pem" "lost.pem" "ca.pem").
Proof.
  split; [reflexivity|].
  exact (proj1 (proj2 (proj2
           (initTLSConfig_outcome exampleLoadX509KeyPair exampleReadFile
              exampleIsNotExist [] exampleAppendCerts exampleErrorText
              (exampleProvider "a:2379,b:2379" "cert.pem" "lost.pem" "ca.pem")
              _ None eq_refl)))).
Defined.

Lemma Init_outcome_witness :
  etcd.Init exampleLoadX509KeyPair exampleReadFile exampleIsNotExist
    [] exampleAppendCerts exampleErrorText exampleNew
    (exampleProvider "a:2379,b:2379" "cert.pem" "key.pem" "ca.pem")
  = ({| etcd.Cfg := etcd.Cfg (exampleProvider "a:2379,b:2379" "cert.pem"
                                "key.pem" "ca.pem");
        etcd.Log := [];
        etcd.client := Some ["a:2379"; "b:2379"];
        etcd.tls := Some {| etcd.Certificates := ["CERT"];
                            etcd.RootCAs := ["CA"] |} |}, None)
  /\ etcd.Cfg
       {| etcd.Cfg := etcd.Cfg (exampleProvider "a:2379,b:2379" "cert.pem"
                                  "key.pem" "ca.pem");
          etcd.Log := [];
          etcd.client := Some ["a:2379"; "b:2379"];
          etcd.tls := Some {| etcd.Certificates := ["CERT"];
                              etcd.RootCAs := ["CA"] |} |}
     = etcd.Cfg (exampleProvider "a:2379,b:2379" "cert.pem" "key.pem"
                   "ca.pem").
Proof.
  split; [reflexivity|].
  exact (proj1 (Init_outcome exampleLoadX509KeyPair exampleReadFile
                  exampleIsNotExist [] exampleAppendCerts exampleErrorText
                  exampleNew
                  (exampleProvider "a:2379,b:2379" "cert.pem" "key.pem"
                     "ca.pem")
                  _ None eq_refl)).
Defined.

(** X20 on a request with a body and no content type. *)
Lemma Bind_default_content_type_witness :
  0 < ContentLength bareRequest
  /\ ReadBody bareRequest = inl "{}"
  /\ HeaderContentType bareRequest = ""
  /\ (forall i',
        idleDecoder "{}" pNamed = (i', @None JSONError) ->
        Bind Decimal.ParseFloat ASCII.EqualFold plainErrorText idleDecoder
          idleDecoder pNamed bareRequest
        = bindQueryAndParams Decimal.ParseFloat ASCII.EqualFold plainErrorText
            i' bareRequest).
Proof.
  assert (Hlen : 0 < ContentLength bareRequest) by reflexivity.
  split; [exact Hlen|]. do 2 (split; [reflexivity|]).
  exact (proj1 (Bind_default_content_type Decimal.ParseFloat ASCII.EqualFold
                  plainErrorText idleDecoder idleDecoder pNamed bareRequest
                  "{}" Hlen eq_refl eq_refl)).
Defined.
